(** * cv-helper: object cropping and image compositing

    A shallow embedding of [crop_objects.py] and [compose_images.py].
    Python integers are [Z], Python floats are IEEE binary64 values of the
    standard library's [SpecFloat], the configuration dictionary is a
    [gmap string Z], exceptions are an error monad, the random module is an
    explicit stream of draws, and Pillow images are records of pixels that
    live in a heap where the code mutates them in place. *)

From Stdlib Require Import ZArith Lia Bool List Reals Lra.
From Stdlib Require Import SpecFloat.
From stdpp Require Import base tactics option list gmap strings.

Open Scope Z_scope.

(** ** Exceptions *)

Inductive exn : Type :=
  | KeyError (key : string)
  | ZeroDivisionError
  | OverflowError
  | IndexError
  | ValueError (msg : string).

Inductive result (A : Type) : Type :=
  | Ok (a : A)
  | Raise (e : exn).
Arguments Ok {A} a.
Arguments Raise {A} e.

#[global] Instance result_ret : MRet result := fun A a => Ok a.
#[global] Instance result_bind : MBind result := fun A B k r =>
  match r with
  | Ok a => k a
  | Raise e => Raise e
  end.

(** ** The random module

    [random.randint(a, b)] draws an integer of [a..b], both ends included,
    and raises [ValueError] on an empty range.  The generator is a stream of
    raw draws with a cursor; a draw [d] selects [a + d mod (b - a + 1)]. *)

Record RandomState : Type := mkRandom {
  rs_stream : nat -> Z;
  rs_pos : nat
}.

Definition randint (a b : Z) (st : RandomState) : result (Z * RandomState) :=
  if b <? a then Raise (ValueError "empty range for randrange()")
  else
    let d := rs_stream st (rs_pos st) in
    Ok (a + d mod (b - a + 1), mkRandom (rs_stream st) (S (rs_pos st))).

(** ** Configuration: the dictionary read from config.yaml *)

Abbreviation Config := (gmap string Z).

Definition getitem (config : Config) (key : string) : result Z :=
  match config !! key with
  | Some v => Ok v
  | None => Raise (KeyError key)
  end.

(** ** compose_images.calculate_valid_position *)

Definition calculate_valid_position
    (obj_width obj_height : Z) (config : Config) (st : RandomState)
    : result ((Z * Z) * RandomState) :=
  output_width ← getitem config "output_width";
  output_height ← getitem config "output_height";
  x_min ← getitem config "object_x_min";
  x_max ← getitem config "object_x_max";
  y_max ← getitem config "object_y_max";
  let half_width := obj_width / 2 in
  let half_height := obj_height / 2 in
  let valid_x_min := Z.max x_min half_width in
  let valid_x_max := Z.min x_max (output_width - half_width) in
  let valid_y_min := half_height in
  let valid_y_max := Z.min y_max (output_height - half_height) in
  if (valid_x_max <? valid_x_min) || (valid_y_max <? valid_y_min) then
    let center_x := (x_min + x_max) / 2 in
    let center_y := y_max / 2 in
    Ok ((center_x, center_y), st)
  else
    '(center_x, st1) ← randint valid_x_min valid_x_max st;
    '(center_y, st2) ← randint valid_y_min valid_y_max st1;
    Ok ((center_x, center_y), st2).

(** The placement part of a configuration. *)
Definition placement_config (output_width output_height x_min x_max y_max : Z)
    : Config :=
  <["output_width" := output_width]>
  (<["output_height" := output_height]>
  (<["object_x_min" := x_min]>
  (<["object_x_max" := x_max]>
  (<["object_y_max" := y_max]> ∅)))).

Definition has_placement (config : Config)
    (output_width output_height x_min x_max y_max : Z) : Prop :=
  config !! "output_width" = Some output_width /\
  config !! "output_height" = Some output_height /\
  config !! "object_x_min" = Some x_min /\
  config !! "object_x_max" = Some x_max /\
  config !! "object_y_max" = Some y_max.

(** A generator whose every raw draw is [d]. *)
Definition constant_random (d : Z) : RandomState := mkRandom (fun _ => d) 0.

(** ** Python floats: IEEE 754 binary64

    The operations are those of the standard library's executable
    specification of IEEE 754 at precision 53 and maximal exponent 1024,
    rounding to nearest, ties to even.  Where Python raises instead of
    returning an infinity or a NaN the model raises too. *)

Definition prec : Z := 53.
Definition emax : Z := 1024.

(** An integer as an exact, not yet rounded, floating-point operand. *)
Definition exact_int (z : Z) : spec_float :=
  match z with
  | Z0 => S754_zero false
  | Zpos p => S754_finite false p 0
  | Zneg p => S754_finite true p 0
  end.

(** [float(z)], the implicit conversion of an int operand. *)
Definition float_of_int (z : Z) : result spec_float :=
  match binary_normalize prec emax z 0 false with
  | S754_infinity _ => Raise OverflowError
  | f => Ok f
  end.

(** [a / b] on two ints: the correctly rounded quotient. *)
Definition int_truediv (a b : Z) : result spec_float :=
  if b =? 0 then Raise ZeroDivisionError
  else
    match SFdiv prec emax (exact_int a) (exact_int b) with
    | S754_infinity _ => Raise OverflowError
    | f => Ok f
    end.

Definition float_is_zero (f : spec_float) : bool :=
  match f with S754_zero _ => true | _ => false end.

(** [x / y] on two floats. *)
Definition float_truediv (x y : spec_float) : result spec_float :=
  if float_is_zero y then Raise ZeroDivisionError
  else Ok (SFdiv prec emax x y).

Definition float_mul (x y : spec_float) : spec_float := SFmul prec emax x y.
Definition float_sub (x y : spec_float) : spec_float := SFsub prec emax x y.
Definition float_abs (x : spec_float) : spec_float := SFabs x.
Definition float_lt (x y : spec_float) : bool := SFltb x y.

(** [int(x)]: truncation toward zero. *)
Definition int_of_float (x : spec_float) : result Z :=
  match x with
  | S754_zero _ => Ok 0
  | S754_finite s m e =>
      let v := match e with
               | Z0 => Zpos m
               | Zpos _ => Zpos m * 2 ^ e
               | Zneg k => Zpos m / 2 ^ Zpos k
               end in
      Ok (if s then - v else v)
  | S754_infinity _ => Raise OverflowError
  | S754_nan => Raise (ValueError "cannot convert float NaN to integer")
  end.

(** The literal [0.001]: the binary64 number nearest to 1/1000. *)
Definition float_0_001 : spec_float := S754_finite false 4611686018427388 (-62).

(** ** Pillow images

    A raster is a grid of samples stored row by row.  An [Image] carries a
    mode and four 8-bit channels per pixel; a band, as returned by
    [Image.split], is a raster of single samples. *)

Record Raster (A : Type) : Type := mkRaster {
  width : Z;
  height : Z;
  rows : list (list A)
}.
Arguments mkRaster {A} width height rows.
Arguments width {A} r.
Arguments height {A} r.
Arguments rows {A} r.

Definition Box : Type := Z * Z * Z * Z.

Definition raster_get {A : Type} (d : A) (r : Raster A) (x y : Z) : A :=
  if (0 <=? x) && (0 <=? y) then
    match rows r !! Z.to_nat y with
    | Some row => default d (row !! Z.to_nat x)
    | None => d
    end
  else d.

Definition raster_make {A : Type} (w h : Z) (f : Z -> Z -> A) : Raster A :=
  mkRaster w h (map (fun y => map (fun x => f x y) (seqZ 0 w)) (seqZ 0 h)).

Definition raster_map {A B : Type} (f : A -> B) (r : Raster A) : Raster B :=
  mkRaster (width r) (height r) (map (map f) (rows r)).

(** The stored rows agree with the declared size. *)
Definition raster_wf {A : Type} (r : Raster A) : Prop :=
  0 <= width r /\ 0 <= height r /\
  length (rows r) = Z.to_nat (height r) /\
  Forall (fun row => length row = Z.to_nat (width r)) (rows r).

(** [crop(box)]: the region [x0, x1) by [y0, y1) of the source; samples
    outside the source are filled with [d]. *)
Definition raster_crop {A : Type} (d : A) (r : Raster A) (box : Box)
    : result (Raster A) :=
  let '(x0, y0, x1, y1) := box in
  if x1 <? x0 then
    Raise (ValueError "Coordinate 'right' is less than 'left'")
  else if y1 <? y0 then
    Raise (ValueError "Coordinate 'lower' is less than 'upper'")
  else
    Ok (raster_make (x1 - x0) (y1 - y0)
          (fun x y => raster_get d r (x + x0) (y + y0))).

Inductive Mode : Type := L | LA | RGB | RGBA.

#[global] Instance Mode_eq_dec : EqDecision Mode.
Proof. solve_decision. Defined.

Record Pixel : Type := mkPixel {
  red : N;
  green : N;
  blue : N;
  alpha : N
}.

Definition transparent_black : Pixel := mkPixel 0 0 0 0.

Record Image : Type := mkImage {
  mode : Mode;
  pixels : Raster Pixel
}.

Definition size (image : Image) : Z * Z :=
  (width (pixels image), height (pixels image)).

Definition getpixel (image : Image) (x y : Z) : Pixel :=
  raster_get transparent_black (pixels image) x y.

Definition image_wf (image : Image) : Prop := raster_wf (pixels image).

(** [Image.convert("RGBA")] and [Image.convert("RGB")]: a grey image keeps
    its value in the first channel, and a mode without alpha is opaque. *)
Definition to_rgba (from : Mode) (p : Pixel) : Pixel :=
  match from with
  | L => mkPixel (red p) (red p) (red p) 255
  | LA => mkPixel (red p) (red p) (red p) (alpha p)
  | RGB => mkPixel (red p) (green p) (blue p) 255
  | RGBA => p
  end.

Definition to_rgb (from : Mode) (p : Pixel) : Pixel :=
  let q := to_rgba from p in mkPixel (red q) (green q) (blue q) 255.

Definition convert_RGBA (image : Image) : Image :=
  mkImage RGBA (raster_map (to_rgba (mode image)) (pixels image)).

Definition convert_RGB (image : Image) : Image :=
  mkImage RGB (raster_map (to_rgb (mode image)) (pixels image)).

(** [Image.split]: one band per channel of the mode. *)
Definition split (image : Image) : list (Raster N) :=
  let band (f : Pixel -> N) := raster_map f (pixels image) in
  match mode image with
  | L => [band red]
  | LA => [band red; band alpha]
  | RGB => [band red; band green; band blue]
  | RGBA => [band red; band green; band blue; band alpha]
  end.

Definition index {A : Type} (l : list A) (i : nat) : result A :=
  match l !! i with
  | Some a => Ok a
  | None => Raise IndexError
  end.

(** [Image.getbbox] on a band: the smallest box holding every non-zero
    sample, right and lower edges excluded, or [None]. *)
Definition column_has_data (band : Raster N) (x : Z) : bool :=
  existsb (fun y => negb (N.eqb (raster_get 0%N band x y) 0))
          (seqZ 0 (height band)).

Definition row_has_data (band : Raster N) (y : Z) : bool :=
  existsb (fun x => negb (N.eqb (raster_get 0%N band x y) 0))
          (seqZ 0 (width band)).

Definition getbbox (band : Raster N) : option Box :=
  let xs := filter (fun x => column_has_data band x = true)
                   (seqZ 0 (width band)) in
  let ys := filter (fun y => row_has_data band y = true)
                   (seqZ 0 (height band)) in
  match head xs, last xs, head ys, last ys with
  | Some x0, Some x1, Some y0, Some y1 => Some (x0, y0, x1 + 1, y1 + 1)
  | _, _, _, _ => None
  end.

Definition crop (image : Image) (box : Box) : result Image :=
  r ← raster_crop transparent_black (pixels image) box;
  Ok (mkImage (mode image) r).

Definition copy (image : Image) : Image := image.

(** [Image.paste(im, (left, top), mask)] with an RGBA source and mask:
    inside the part of the source rectangle that lies on the destination
    every channel is blended by the mask's alpha, with Pillow's rounded
    division by 255; the rest of the destination is kept.  Pillow takes the
    corners of the rectangle as C ints and raises beyond them; that check
    is left out here, and [c_int] below describes the coordinates it
    accepts. *)
Definition blend8 (mask in1 in2 : N) : N :=
  let tmp := (in1 * (255 - mask) + in2 * mask + 128)%N in
  (((tmp / 256) + tmp) / 256)%N.

Definition paste_pixel (dest src mask : Image) (origin : Z * Z) (x y : Z)
    : Pixel :=
  let d := getpixel dest x y in
  let sx := x - fst origin in
  let sy := y - snd origin in
  if (0 <=? sx) && (sx <? width (pixels src)) &&
     (0 <=? sy) && (sy <? height (pixels src)) then
    let s := getpixel src sx sy in
    let m := alpha (getpixel mask sx sy) in
    mkPixel (blend8 m (red d) (red s)) (blend8 m (green d) (green s))
            (blend8 m (blue d) (blue s)) (blend8 m (alpha d) (alpha s))
  else d.

Definition paste (dest src : Image) (origin : Z * Z) (mask : Image)
    : result Image :=
  if bool_decide (size mask = size src) then
    Ok (mkImage (mode dest)
          (raster_make (width (pixels dest)) (height (pixels dest))
             (paste_pixel dest src mask origin)))
  else Raise (ValueError "images do not match").

(** ** The object store

    Images are Python objects: a variable holds a reference, [convert],
    [copy], [crop] and [resize] build a new object, [paste] writes into an
    existing one.  The world also holds the state of the random module. *)

Abbreviation ref := nat (only parsing).

Record World : Type := mkWorld {
  heap : gmap nat Image;
  random : RandomState
}.

Definition Prog (A : Type) : Type := World -> result (A * World).

#[global] Instance Prog_ret : MRet Prog := fun A a => fun w => Ok (a, w).
#[global] Instance Prog_bind : MBind Prog := fun A B k m => fun w =>
  match m w with
  | Ok (a, w') => k a w'
  | Raise e => Raise e
  end.

Definition alloc (image : Image) : Prog nat := fun w =>
  let r := fresh (dom (heap w)) in
  Ok (r, mkWorld (<[r := image]> (heap w)) (random w)).

Definition load (r : nat) : Prog Image := fun w =>
  match heap w !! r with
  | Some image => Ok (image, w)
  | None => Raise (ValueError "no such object")
  end.

Definition store (r : nat) (image : Image) : Prog unit := fun w =>
  Ok (tt, mkWorld (<[r := image]> (heap w)) (random w)).

Definition lift {A : Type} (r : result A) : Prog A := fun w =>
  match r with
  | Ok a => Ok (a, w)
  | Raise e => Raise e
  end.

Definition with_random {A : Type}
    (f : RandomState -> result (A * RandomState)) : Prog A := fun w =>
  match f (random w) with
  | Ok (a, st) => Ok (a, mkWorld (heap w) st)
  | Raise e => Raise e
  end.

(** One world extends another: every object of the first is in the second,
    unchanged, and the random state is the same. *)
Definition extends (w w' : World) : Prop :=
  (forall r image, heap w !! r = Some image -> heap w' !! r = Some image) /\
  random w' = random w.

(** ** The functions of the repository *)

Section Repository.

(** [Image.Resampling.LANCZOS]: the sample at [(x, y)] of the image
    resized to [(w, h)].  The filter is a parameter; nothing below
    depends on the values it produces. *)
Variable lanczos : Image -> Z -> Z -> Z -> Z -> Pixel.

(** [Image.resize(size, resample)]: an image of exactly the requested
    size; a requested side below 1 raises.  The sizes Pillow refuses
    because a side is no C int or the image does not fit in memory are not
    told apart here; [pillow_size] below describes sizes it accepts. *)
Definition resize (image : Image) (sz : Z * Z) : result Image :=
  let '(w, h) := sz in
  if (w <? 1) || (h <? 1) then
    Raise (ValueError "height and width must be > 0")
  else Ok (mkImage (mode image) (raster_make w h (lanczos image w h))).

(** *** compose_images.crop_and_resize_to_target *)

Definition crop_and_resize_to_target
    (image : Image) (target_width target_height : Z) : result Image :=
  target_ratio ← int_truediv target_width target_height;
  let '(img_width, img_height) := size image in
  img_ratio ← int_truediv img_width img_height;
  if float_lt (float_abs (float_sub img_ratio target_ratio)) float_0_001
  then resize image (target_width, target_height)
  else
    image ←
      (if float_lt target_ratio img_ratio then
         h ← float_of_int img_height;
         new_width ← int_of_float (float_mul h target_ratio);
         let x0 := (img_width - new_width) / 2 in
         crop image (x0, 0, x0 + new_width, img_height)
       else
         w ← float_of_int img_width;
         q ← float_truediv w target_ratio;
         new_height ← int_of_float q;
         let y0 := (img_height - new_height) / 2 in
         crop image (0, y0, img_width, y0 + new_height));
    resize image (target_width, target_height).

(** *** compose_images.resize_object_with_height *)

(** The two lines that compute [ratio] and [new_width]. *)
Definition new_width_of (obj_width obj_height target_height : Z)
    : result Z :=
  ratio ← int_truediv target_height obj_height;
  w ← float_of_int obj_width;
  int_of_float (float_mul w ratio).

Definition resize_object_with_height
    (obj_image : Image) (target_height : Z) : result Image :=
  let '(obj_width, obj_height) := size obj_image in
  new_width ← new_width_of obj_width obj_height target_height;
  resize obj_image (new_width, target_height).

(** *** compose_images.composite_images *)

Definition paste_origin (obj_width obj_height center_x center_y : Z)
    : Z * Z :=
  (center_x - obj_width / 2, center_y - obj_height / 2).

Definition composite_images
    (background obj_image : nat) (center_x center_y : Z) : Prog nat :=
  bg ← load background;
  background ← (if bool_decide (mode bg ≠ RGBA)
                then alloc (convert_RGBA bg) else mret background);
  ob ← load obj_image;
  obj_image ← (if bool_decide (mode ob ≠ RGBA)
               then alloc (convert_RGBA ob) else mret obj_image);
  ob ← load obj_image;
  let '(obj_width, obj_height) := size ob in
  let origin := paste_origin obj_width obj_height center_x center_y in
  bg ← load background;
  result ← alloc (copy bg);
  dest ← load result;
  src ← load obj_image;
  pasted ← lift (paste dest src origin src);
  _ ← store result pasted;
  final ← load result;
  alloc (convert_RGB final).

(** *** compose_images.main: the body of the loop over the objects

    From the draw of the object height to the bounding box; the local
    variables the annotation is built from are returned. *)

Record Generated : Type := mkGenerated {
  gen_result : nat;
  gen_obj_resized : nat;
  gen_center : Z * Z;
  gen_bbox : Box
}.

Definition bounding_box (obj_width obj_height center_x center_y : Z)
    : Box :=
  let bbox_left := center_x - obj_width / 2 in
  let bbox_top := center_y - obj_height / 2 in
  let bbox_right := bbox_left + obj_width in
  let bbox_bottom := bbox_top + obj_height in
  (bbox_left, bbox_top, bbox_right, bbox_bottom).

Definition generate_one
    (config : Config) (min_height max_height : Z)
    (background obj_image : nat) : Prog Generated :=
  target_obj_height ← with_random (randint min_height max_height);
  ob ← load obj_image;
  resized ← lift (resize_object_with_height ob target_obj_height);
  obj_resized ← alloc resized;
  '(center_x, center_y) ←
    with_random (calculate_valid_position
                   (width (pixels resized)) (height (pixels resized))
                   config);
  bg ← load background;
  bg_copy ← alloc (copy bg);
  result ← composite_images bg_copy obj_resized center_x center_y;
  let '(obj_width, obj_height) := size resized in
  mret (mkGenerated result obj_resized (center_x, center_y)
          (bounding_box obj_width obj_height center_x center_y)).

End Repository.

(** *** crop_objects.crop_to_content

    The box is computed first, then the image is cropped to it; the lines
    printed are returned with the image. *)

Definition add_padding (image : Image) (padding : Z) (bbox : Box) : Box :=
  if 0 <? padding then
    let '(x0, y0, x1, y1) := bbox in
    let '(w, h) := size image in
    (Z.max 0 (x0 - padding), Z.max 0 (y0 - padding),
     Z.min w (x1 + padding), Z.min h (y1 + padding))
  else bbox.

Definition content_bbox (image : Image) (padding : Z)
    : result (Image * option Box) :=
  let image := if bool_decide (mode image ≠ RGBA)
               then convert_RGBA image else image in
  alpha ← index (split image) 3;
  match getbbox alpha with
  | None => Ok (image, None)
  | Some bbox => Ok (image, Some (add_padding image padding bbox))
  end.

Definition crop_to_content (image : Image) (padding : Z)
    : result (Image * list string) :=
  '(image, bbox) ← content_bbox image padding;
  match bbox with
  | None => Ok (image, ["  Warning: Image is fully transparent"])
  | Some bbox => cropped ← crop image bbox; Ok (cropped, [])
  end.

(** The image [composite_images] returns, as a function of the two images
    it is given. *)
Definition composite_value (bg ob : Image) (center_x center_y : Z) : Image :=
  let bg := if bool_decide (mode bg ≠ RGBA) then convert_RGBA bg else bg in
  let ob := if bool_decide (mode ob ≠ RGBA) then convert_RGBA ob else ob in
  let '(obj_width, obj_height) := size ob in
  let origin := paste_origin obj_width obj_height center_x center_y in
  convert_RGB
    (mkImage (mode bg)
       (raster_make (width (pixels bg)) (height (pixels bg))
          (paste_pixel bg ob ob origin))).

(** The alpha of a pixel as [crop_to_content] sees it, after the coercion
    to RGBA. *)
Definition opacity (image : Image) (x y : Z) : N :=
  alpha (to_rgba (mode image) (getpixel image x y)).

(** [lo] and [hi] are the least and the greatest index below [n] at which
    [P] holds. *)
Definition extent (P : Z -> Prop) (n lo hi : Z) : Prop :=
  P lo /\ P hi /\ 0 <= lo <= hi /\ hi < n /\
  forall z, 0 <= z < n -> P z -> lo <= z <= hi.

(** The image [crop_to_content] works on: its argument, coerced to RGBA. *)
Definition coerced (image : Image) : Image :=
  if bool_decide (mode image ≠ RGBA) then convert_RGBA image else image.

Definition alpha_band (image : Image) : Raster N :=
  raster_map alpha (pixels image).

(** ** The real value of a float

    [bpow e] is 2^e; a positive finite float of mantissa [m] and exponent
    [e] has the value [IZR m * bpow e]. *)
Definition bpow (e : Z) : R := powerRZ 2 e.

(** [v] is within a relative distance of 2^-52 of [x]. *)
Definition close (x v : R) : Prop :=
  (x - x * bpow (-52) <= v <= x + x * bpow (-52))%R.

(** ** Sample values *)

Definition sample_background : Image :=
  mkImage RGB (raster_make 4 3 (fun x y => mkPixel 10 20 30 255)).

Definition sample_object : Image :=
  mkImage RGBA
    (mkRaster 2 2 [[mkPixel 200 0 0 255; mkPixel 0 200 0 0];
                   [mkPixel 0 0 200 128; mkPixel 9 9 9 255]]).

Definition sample_world : World :=
  mkWorld (<[0%nat := sample_background]> (<[1%nat := sample_object]> ∅))
          (constant_random 0).

Definition sample_cutout : Image :=
  mkImage RGBA
    (mkRaster 4 3
       [[mkPixel 1 2 3 0; mkPixel 1 2 3 0; mkPixel 1 2 3 0; mkPixel 1 2 3 0];
        [mkPixel 1 2 3 0; mkPixel 9 8 7 5; mkPixel 6 5 4 255; mkPixel 1 2 3 0];
        [mkPixel 1 2 3 0; mkPixel 1 2 3 0; mkPixel 1 2 3 0; mkPixel 1 2 3 0]]).

Definition sample_transparent : Image :=
  mkImage LA
    (mkRaster 2 2 [[mkPixel 7 0 0 0; mkPixel 8 0 0 0];
                   [mkPixel 9 0 0 0; mkPixel 7 0 0 0]]).

(** A resampling filter to run the functions with: nearest neighbour. *)
Definition nearest (image : Image) (w h x y : Z) : Pixel :=
  getpixel image (x * width (pixels image) / w) (y * height (pixels image) / h).

Definition sample_square : Image :=
  mkImage RGBA (raster_make 100 100 (fun _ _ => mkPixel 9 9 9 255)).

Definition sample_wide : Image :=
  mkImage RGBA (raster_make 200 100 (fun _ _ => mkPixel 9 9 9 255)).

Definition sample_thin : Image :=
  mkImage RGBA (raster_make 1 100 (fun _ _ => mkPixel 9 9 9 255)).

Definition sample_hd : Image :=
  mkImage RGB (raster_make 1920 1080 (fun _ _ => mkPixel 10 20 30 255)).

Definition sample_1000 : Image :=
  mkImage RGB (raster_make 1000 1000 (fun _ _ => mkPixel 10 20 30 255)).

(** ** The sizes Pillow works with

    Pillow hands the sides of an image and the coordinates of a box to its
    C code as C ints, where a value from 2^31 on raises [OverflowError], and
    an image has to fit in memory; [resize] and [paste] above check
    neither.  The predicates below describe what is within these limits:
    images of at most [Image.MAX_IMAGE_PIXELS] pixels, the number Pillow
    opens without a warning, and boxes whose coordinates are C ints. *)

Definition max_image_pixels : Z := 89478485.

Definition pillow_size (w h : Z) : Prop :=
  1 <= w /\ 1 <= h /\ w * h <= max_image_pixels.

Definition c_int (z : Z) : Prop := - 2 ^ 31 <= z < 2 ^ 31.

(** Limits of the placement that keep the corners of every paste box of
    such images C ints. *)
Definition limits_in_range (x_min x_max y_max : Z) : Prop :=
  - 2 ^ 30 < x_min < 2 ^ 30 /\ - 2 ^ 30 < x_max < 2 ^ 30 /\
  - 2 ^ 30 < y_max < 2 ^ 30.

(** An object image that stays such an image when it is resized to a
    height of at most [max_height]. *)
Definition resize_in_range (max_height : Z) (ob : Image) : Prop :=
  pillow_size (width (pixels ob)) (height (pixels ob)) /\
  width (pixels ob) * max_height / height (pixels ob) * max_height
    <= max_image_pixels.

(** ** More of the two scripts *)

(** The keys [calculate_valid_position] reads, in the order it reads them. *)
Definition placement_keys : list string :=
  ["output_width"; "output_height"; "object_x_min"; "object_x_max";
   "object_y_max"].

(** A generator that hands out the given raw draws, then zeros. *)
Definition random_of_list (draws : list Z) : RandomState :=
  mkRandom (fun i => nth i draws 0) 0.

(** Every channel of the pixel fits in eight bits. *)
Definition eight_bit (p : Pixel) : Prop :=
  (red p <= 255 /\ green p <= 255 /\ blue p <= 255 /\ alpha p <= 255)%N.

(** An object image that [resize_object_with_height] can bring to every
    height of [min_height .. max_height] with a width of one pixel or
    more. *)
Definition resizable (min_height max_height : Z) (ob : Image) : Prop :=
  0 < width (pixels ob) /\
  0 < height (pixels ob) < 2 ^ 53 /\
  width (pixels ob) * max_height <= 2 ^ 50 /\
  2 * height (pixels ob) <= width (pixels ob) * min_height.

Definition thin_world : World :=
  mkWorld (<[0%nat := sample_background]> (<[1%nat := sample_thin]> ∅))
          (constant_random 0).

(** *** compose_images.main: the coordinates handed to the annotation

    [float(bbox_left)], [float(bbox_top)], [float(bbox_right)] and
    [float(bbox_bottom)], evaluated in this order. *)
Definition bbox_to_float (bbox : Box)
    : result (spec_float * spec_float * spec_float * spec_float) :=
  let '(bbox_left, bbox_top, bbox_right, bbox_bottom) := bbox in
  l ← float_of_int bbox_left;
  t ← float_of_int bbox_top;
  r ← float_of_int bbox_right;
  b ← float_of_int bbox_bottom;
  Ok (l, t, r, b).

(** ** Directories and file names

    A path either does not exist, or names a regular file, or names a
    directory with the entries [os.listdir] returns, in its order.  File
    names are strings of bytes; [str.lower] is modelled on the letters A
    to Z, which is what it does to a name of ASCII characters. *)

Inductive os_exn : Type :=
  | FileNotFoundError (msg : string)
  | NotADirectoryError (path : string).

Inductive Entry : Type :=
  | RegularFile
  | Directory (names : list string).

Abbreviation FileSystem := (gmap string Entry).

Definition is_upper (c : Ascii.ascii) : bool :=
  let n := Ascii.nat_of_ascii c in (65 <=? n)%nat && (n <=? 90)%nat.

Definition lower_char (c : Ascii.ascii) : Ascii.ascii :=
  if is_upper c then Ascii.ascii_of_nat (Ascii.nat_of_ascii c + 32) else c.

(** [str.lower] *)
Fixpoint lower (s : string) : string :=
  match s with
  | EmptyString => EmptyString
  | String c s' => String (lower_char c) (lower s')
  end.

(** [str.endswith] with one suffix: some tail of [s] is the suffix. *)
Fixpoint endswith (s suffix : string) : bool :=
  if String.eqb s suffix then true
  else
    match s with
    | EmptyString => false
    | String _ s' => endswith s' suffix
    end.

(** [str.endswith] with a tuple of suffixes. *)
Definition endswith_any (s : string) (suffixes : list string) : bool :=
  existsb (endswith s) suffixes.

Definition startswith (s prefix : string) : bool := String.prefix prefix s.

(** [os.path.join] of two components on a POSIX system. *)
Definition join (a b : string) : string :=
  if startswith b "/" then b
  else if String.eqb a "" || endswith a "/" then a +:+ b
  else a +:+ "/" +:+ b.

(** *** get_image_files (the same function in both scripts) *)

(** The loop over the listing; [files] is the list built so far. *)
Fixpoint get_image_files_loop
    (directory : string) (extensions : list string)
    (names : list string) (files : list string) : list string :=
  match names with
  | [] => files
  | f :: rest =>
      get_image_files_loop directory extensions rest
        (if endswith_any (lower f) extensions
         then files ++ [join directory f] else files)
  end.

Definition get_image_files
    (fs : FileSystem) (directory : string) (extensions : list string)
    : os_exn + list string :=
  match fs !! directory with
  | None => inl (FileNotFoundError ("Directory not found: " +:+ directory))
  | Some RegularFile => inl (NotADirectoryError directory)
  | Some (Directory names) =>
      inr (get_image_files_loop directory extensions names [])
  end.

(** Some character of the string is one of A to Z. *)
Fixpoint has_upper (s : string) : bool :=
  match s with
  | EmptyString => false
  | String c s' => is_upper c || has_upper s'
  end.

Definition sample_fs : FileSystem :=
  <["data/objects" :=
      Directory ["cat.png"; "DOG.PNG"; "notes.txt"; "bird.Png"; "png"]]>
  (<["config.yaml" := RegularFile]> ∅).

(** *** compose_images.generate_random_filename

    [digits] is a number of digits, zero or more.  For a negative one
    [10 ** digits] is a float in Python and [random.randint] rejects it;
    that call is left out here. *)

(** The digit [d] of [0 .. 9] as a character. *)
Definition digit_char (d : Z) : Ascii.ascii :=
  Ascii.ascii_of_nat (48 + Z.to_nat d).

(** [str(n)] for an int [n >= 0].  The digits are produced from the last
    one on; the number of binary digits of [n] bounds the number of
    rounds. *)
Fixpoint decimal_go (fuel : nat) (n : Z) (acc : string) : string :=
  match fuel with
  | O => acc
  | S fuel' =>
      let acc' := String (digit_char (n mod 10)) acc in
      if n / 10 =? 0 then acc' else decimal_go fuel' (n / 10) acc'
  end.

Definition decimal (n : Z) : string :=
  decimal_go (S (Z.to_nat (Z.log2 n))) n "".

Fixpoint zeros (k : nat) : string :=
  match k with
  | O => ""
  | S k' => String (digit_char 0) (zeros k')
  end.

(** The format [0{width}d] on an int [n >= 0]: the decimal digits,
    filled with zeros on the left up to the width. *)
Definition format_0d (width : nat) (n : Z) : string :=
  let s := decimal n in zeros (width - String.length s) +:+ s.

Definition generate_random_filename
    (prefix : string) (digits : nat) (st : RandomState)
    : result (string * RandomState) :=
  let max_num := 10 ^ Z.of_nat digits - 1 in
  '(random_num, st') ← randint 0 max_num st;
  Ok (prefix +:+ "-" +:+ format_0d digits random_num, st').

(** Reading a string of digits back, as [int] does. *)
Definition digit_value (c : Ascii.ascii) : Z :=
  Z.of_nat (Ascii.nat_of_ascii c) - 48.

Fixpoint int_of_digits (s : string) (acc : Z) : Z :=
  match s with
  | EmptyString => acc
  | String c s' => int_of_digits s' (10 * acc + digit_value c)
  end.

Definition is_digit (c : Ascii.ascii) : bool :=
  let n := Ascii.nat_of_ascii c in (48 <=? n)%nat && (n <=? 57)%nat.

Fixpoint all_digits (s : string) : bool :=
  match s with
  | EmptyString => true
  | String c s' => is_digit c && all_digits s'
  end.

(** *** compose_images.image_to_base64 and create_labelme_json

    The encoders of Pillow and of the base64 module are parameters: the
    bytes [Image.save] writes for a format and a quality, and the text
    [b64encode] makes of them. *)

Definition is_lower (c : Ascii.ascii) : bool :=
  let n := Ascii.nat_of_ascii c in (97 <=? n)%nat && (n <=? 122)%nat.

Definition upper_char (c : Ascii.ascii) : Ascii.ascii :=
  if is_lower c then Ascii.ascii_of_nat (Ascii.nat_of_ascii c - 32) else c.

(** [str.upper] *)
Fixpoint upper (s : string) : string :=
  match s with
  | EmptyString => EmptyString
  | String c s' => String (upper_char c) (upper s')
  end.

Record Shape : Type := mkShape {
  shape_label : string;
  shape_points : list (list spec_float);
  shape_group_id : option Z;
  shape_description : string;
  shape_type : string;
  shape_flags : list (string * bool);
  shape_mask : option string
}.

Record Labelme : Type := mkLabelme {
  labelme_version : string;
  labelme_flags : list (string * bool);
  labelme_shapes : list Shape;
  imagePath : string;
  imageData : string;
  imageHeight : Z;
  imageWidth : Z
}.

(** What one round of the loop of [main] hands to the file system: the
    composite under its file name and the annotation. *)
Record Output : Type := mkOutput {
  out_generated : Generated;
  out_image_filename : string;
  out_labelme : Labelme
}.

(** [random.choices(population, k=k)]: [k] independent picks; a raw draw
    [d] picks the entry of index [d mod len(population)]. *)
Fixpoint choices (population : list nat) (k : nat) (st : RandomState)
    : result (list nat * RandomState) :=
  match k with
  | O => Ok ([], st)
  | S k' =>
      let d := rs_stream st (rs_pos st) in
      let i := Z.to_nat (d mod Z.of_nat (length population)) in
      picked ← index population i;
      '(rest, st') ← choices population k'
                       (mkRandom (rs_stream st) (S (rs_pos st)));
      Ok (picked :: rest, st')
  end.

Section Annotation.

Variable lanczos : Image -> Z -> Z -> Z -> Z -> Pixel.
Variable save_bytes : Image -> string -> option Z -> string.
Variable b64encode : string -> string.

Definition image_to_base64 (image : Image) (format : string) (quality : Z)
    : string :=
  let buffer :=
    if String.eqb (upper format) "JPEG"
    then save_bytes image "JPEG" (Some quality)
    else save_bytes image format None in
  b64encode buffer.

Definition create_labelme_json
    (image : Image) (image_filename label : string)
    (bbox_left bbox_top bbox_right bbox_bottom : spec_float)
    (image_format : string) (jpg_quality : Z) : Labelme :=
  mkLabelme "5.5.0" []
    [mkShape label [[bbox_left; bbox_top]; [bbox_right; bbox_bottom]]
       None "" "rectangle" [] None]
    image_filename
    (image_to_base64 image image_format jpg_quality)
    (height (pixels image))
    (width (pixels image)).

(** *** compose_images.main: the loop over the selected objects

    One round: the composite and its box ([generate_one]), the random
    file name, and the annotation.  Writing the two files is left out. *)
Definition loop_body
    (config : Config) (min_height max_height : Z)
    (label output_prefix image_ext pil_format : string) (jpg_quality : Z)
    (background obj_image : nat) : Prog Output :=
  g ← generate_one lanczos config min_height max_height
        background obj_image;
  output_name ← with_random (generate_random_filename output_prefix 8);
  let output_image_filename := output_name +:+ image_ext in
  result ← load (gen_result g);
  let relative_image_path := "../images/" +:+ output_image_filename in
  '(l, t, r, b) ← lift (bbox_to_float (gen_bbox g));
  mret (mkOutput g output_image_filename
          (create_labelme_json result relative_image_path label l t r b
             pil_format jpg_quality)).

Fixpoint process_objects
    (config : Config) (min_height max_height : Z)
    (label output_prefix image_ext pil_format : string) (jpg_quality : Z)
    (background : nat) (selected_objects : list nat)
    : Prog (list Output) :=
  match selected_objects with
  | [] => mret []
  | obj_image :: rest =>
      out ← loop_body config min_height max_height label output_prefix
              image_ext pil_format jpg_quality background obj_image;
      outs ← process_objects config min_height max_height label
               output_prefix image_ext pil_format jpg_quality
               background rest;
      mret (out :: outs)
  end.

(** *** compose_images.main: one background

    The opened background is brought to the target size, the objects are
    chosen, and the loop runs on them.  The object files are pictures of
    the store; opening one again gives the same picture. *)
Definition process_background
    (config : Config) (duplicate_count min_height max_height : Z)
    (target_width target_height : Z)
    (label output_prefix image_ext pil_format : string) (jpg_quality : Z)
    (opened : nat) (object_files : list nat) : Prog (nat * list Output) :=
  image ← load opened;
  prepared ← lift (crop_and_resize_to_target lanczos image
                     target_width target_height);
  background ← alloc prepared;
  selected_objects ←
    with_random (choices object_files (Z.to_nat duplicate_count));
  outs ← process_objects config min_height max_height label output_prefix
           image_ext pil_format jpg_quality background selected_objects;
  mret (background, outs).

(** *** compose_images.main: the loop over the backgrounds

    The outputs of all backgrounds, in order; their number is what [main]
    counts in [total_generated]. *)
Fixpoint process_backgrounds
    (config : Config) (duplicate_count min_height max_height : Z)
    (target_width target_height : Z)
    (label output_prefix image_ext pil_format : string) (jpg_quality : Z)
    (background_files object_files : list nat) : Prog (list Output) :=
  match background_files with
  | [] => mret []
  | opened :: rest =>
      '(_, outs) ← process_background config duplicate_count min_height
                     max_height target_width target_height label
                     output_prefix image_ext pil_format jpg_quality
                     opened object_files;
      more ← process_backgrounds config duplicate_count min_height
               max_height target_width target_height label output_prefix
               image_ext pil_format jpg_quality rest object_files;
      mret (outs ++ more)
  end.

End Annotation.

(** Encoders to run the functions with. *)
Definition plain_bytes (image : Image) (format : string) (quality : option Z)
    : string := format.

(** The picture of an output: a composite in the store, an RGB image of
    the size of the background. *)
Definition picture_of (w : World) (bg : Image) (out : Output) : Prop :=
  exists composite,
    heap w !! gen_result (out_generated out) = Some composite /\
    size composite = size bg /\ mode composite = RGB.

(** The annotation of an output agrees with its picture: it carries the
    size of the composite, the path of the image file, and one rectangle
    with the label, whose corners read back as the recorded box, which
    has the size of the resized object. *)
Definition annotation_agrees (w : World) (label : string) (out : Output)
    : Prop :=
  exists composite resized x0 y0 x1 y1 l t r b,
    heap w !! gen_result (out_generated out) = Some composite /\
    heap w !! gen_obj_resized (out_generated out) = Some resized /\
    gen_bbox (out_generated out) = (x0, y0, x1, y1) /\
    x1 - x0 = width (pixels resized) /\
    y1 - y0 = height (pixels resized) /\
    imageWidth (out_labelme out) = width (pixels composite) /\
    imageHeight (out_labelme out) = height (pixels composite) /\
    labelme_shapes (out_labelme out)
      = [mkShape label [[l; t]; [r; b]] None "" "rectangle" [] None] /\
    int_of_float l = Ok x0 /\ int_of_float t = Ok y0 /\
    int_of_float r = Ok x1 /\ int_of_float b = Ok y1 /\
    imagePath (out_labelme out) = "../images/" +:+ out_image_filename out.

(** An output of the target size: the composite is an RGB image of that
    size and the annotation records it. *)
Definition output_of_size (w : World) (target_width target_height : Z)
    (out : Output) : Prop :=
  exists composite,
    heap w !! gen_result (out_generated out) = Some composite /\
    size composite = (target_width, target_height) /\
    mode composite = RGB /\
    imageWidth (out_labelme out) = target_width /\
    imageHeight (out_labelme out) = target_height.

(** The file name of an output: the prefix, a dash, eight digits and the
    extension. *)
Definition file_name_of (output_prefix image_ext : string) (out : Output)
    : Prop :=
  exists number,
    out_image_filename out = (output_prefix +:+ "-" +:+ number) +:+ image_ext /\
    String.length number = 8%nat /\ all_digits number = true.

(** The placement limits of a configuration are below 2^51 in absolute
    value. *)
Definition limits_bounded (x_min x_max y_max : Z) : Prop :=
  - 2 ^ 51 < x_min < 2 ^ 51 /\ - 2 ^ 51 < x_max < 2 ^ 51 /\
  - 2 ^ 51 < y_max < 2 ^ 51.

(** *** crop_objects.main: the loop over the object files

    The pictures on disk are a table from paths to images: [Image.open]
    reads an entry, and [save] as PNG, which loses nothing of an RGBA
    image, writes one.  The directory the results go to exists when the
    loop starts, so saving raises nothing. *)

Abbreviation Pictures := (gmap string Image).

Inductive script_exn : Type :=
  | OsError (e : os_exn)
  | PythonError (e : exn).

Definition slash : Ascii.ascii := Ascii.ascii_of_nat 47.

(** The components of a path between its slashes; [cur] is the component
    being read. *)
Fixpoint components_go (p : string) (cur : string) : list string :=
  match p with
  | EmptyString => [cur]
  | String c p' =>
      if Ascii.eqb c slash then cur :: components_go p' ""
      else components_go p' (cur +:+ String c "")
  end.

(** [Path(p).name]: the last component that is neither empty nor a dot,
    or the empty string. *)
Definition path_name (p : string) : string :=
  default ""
    (last (filter (fun x => x <> "" /\ x <> ".") (components_go p ""))).

Record Report : Type := mkReport {
  report_filename : string;
  report_original_size : Z * Z;
  report_new_size : Z * Z;
  report_reduction : spec_float
}.

(** [(1 - new_pixels / original_pixels) * 100 if original_pixels > 0
    else 0]; the [0] of the last branch is given as the float it is
    printed as. *)
Definition reduction_percent (original_pixels new_pixels : Z)
    : result spec_float :=
  if 0 <? original_pixels then
    q ← int_truediv new_pixels original_pixels;
    one ← float_of_int 1;
    hundred ← float_of_int 100;
    Ok (float_mul (float_sub one q) hundred)
  else Ok (S754_zero false).

(** One round of the loop: the file is opened, cropped and saved under
    its own name in the output directory. *)
Definition crop_file
    (output_dir : string) (padding : Z) (pictures : Pictures)
    (obj_path : string) : script_exn + (Pictures * Report) :=
  let filename := path_name obj_path in
  match pictures !! obj_path with
  | None => inl (OsError (FileNotFoundError obj_path))
  | Some image =>
      let original_size := size image in
      match crop_to_content image padding with
      | Raise e => inl (PythonError e)
      | Ok (cropped, _) =>
          let new_size := size cropped in
          let original_pixels := fst original_size * snd original_size in
          let new_pixels := fst new_size * snd new_size in
          match reduction_percent original_pixels new_pixels with
          | Raise e => inl (PythonError e)
          | Ok reduction =>
              let output_path := join output_dir filename in
              inr (<[output_path := cropped]> pictures,
                   mkReport filename original_size new_size reduction)
          end
      end
  end.

Fixpoint crop_loop
    (output_dir : string) (padding : Z) (pictures : Pictures)
    (object_files : list string) : script_exn + (Pictures * list Report) :=
  match object_files with
  | [] => inr (pictures, [])
  | obj_path :: rest =>
      match crop_file output_dir padding pictures obj_path with
      | inl e => inl e
      | inr (pictures', report) =>
          match crop_loop output_dir padding pictures' rest with
          | inl e => inl e
          | inr (pictures'', reports) => inr (pictures'', report :: reports)
          end
      end
  end.

Fixpoint has_slash (s : string) : bool :=
  match s with
  | EmptyString => false
  | String c s' => Ascii.eqb c slash || has_slash s'
  end.

(** A name [os.listdir] can return: not empty, not a dot, without a
    slash. *)
Definition file_name (f : string) : Prop :=
  f <> "" /\ f <> "." /\ has_slash f = false.

(** A picture [main] can report on: well formed, with fewer than 2^53
    pixels. *)
Definition croppable (image : Image) : Prop :=
  image_wf image /\
  width (pixels image) * height (pixels image) < 2 ^ 53.

Definition sample_pictures : Pictures :=
  <["data/objects/cat.png" := sample_cutout]>
  (<["data/objects/DOG.PNG" := sample_transparent]>
  (<["data/objects/bird.Png" := sample_object]>
  (<["data/objects/notes.txt" := sample_background]> ∅))).

(** * Properties *)

(** ** The error monad *)

Lemma bind_Ok {A B : Type} (a : A) (k : A -> result B) :
  (Ok a ≫= k) = k a.
Proof. reflexivity. Qed.

Lemma bind_inv {A B : Type} (r : result A) (k : A -> result B) (b : B) :
  (r ≫= k) = Ok b -> exists a, r = Ok a /\ k a = Ok b.
Proof. destruct r as [a|e]; simpl; [eauto | discriminate]. Qed.

(** ** random.randint *)

Lemma randint_range (a b : Z) (st : RandomState) :
  a <= b ->
  exists v st', randint a b st = Ok (v, st') /\ a <= v <= b.
Proof.
  intros Hab. unfold randint.
  destruct (Z.ltb_spec b a) as [Hlt|_]; [lia|].
  eexists _, _. split; [reflexivity|].
  pose proof (Z.mod_pos_bound (rs_stream st (rs_pos st)) (b - a + 1)). lia.
Qed.

Lemma randint_any (a b v : Z) :
  a <= v <= b ->
  exists st', randint a b (constant_random (v - a)) = Ok (v, st').
Proof.
  intros Hv. unfold randint, constant_random; simpl.
  destruct (Z.ltb_spec b a) as [Hlt|_]; [lia|].
  eexists. rewrite Z.mod_small by lia. do 2 f_equal. lia.
Qed.

(** ** calculate_valid_position *)

Lemma getitem_Some (config : Config) (key : string) (v : Z) :
  config !! key = Some v -> getitem config key = Ok v.
Proof. intros H. unfold getitem. by rewrite H. Qed.

Lemma placement_config_has (ow oh x_min x_max y_max : Z) :
  has_placement (placement_config ow oh x_min x_max y_max)
    ow oh x_min x_max y_max.
Proof. repeat split; reflexivity. Qed.

Lemma calculate_valid_position_unfold
    (objW objH : Z) (config : Config) (ow oh x_min x_max y_max : Z)
    (st : RandomState) :
  has_placement config ow oh x_min x_max y_max ->
  calculate_valid_position objW objH config st =
    if (Z.min x_max (ow - objW / 2) <? Z.max x_min (objW / 2)) ||
       (Z.min y_max (oh - objH / 2) <? objH / 2)
    then Ok (((x_min + x_max) / 2, y_max / 2), st)
    else
      '(center_x, st1) ←
        randint (Z.max x_min (objW / 2)) (Z.min x_max (ow - objW / 2)) st;
      '(center_y, st2) ←
        randint (objH / 2) (Z.min y_max (oh - objH / 2)) st1;
      Ok ((center_x, center_y), st2).
Proof.
  intros (H1 & H2 & H3 & H4 & H5). unfold calculate_valid_position.
  rewrite (getitem_Some _ _ _ H1), (getitem_Some _ _ _ H2),
    (getitem_Some _ _ _ H3), (getitem_Some _ _ _ H4), (getitem_Some _ _ _ H5).
  reflexivity.
Qed.

(** With both ranges in order the centre is drawn inside them. *)
Lemma calculate_valid_position_in_range
    (objW objH : Z) (config : Config) (ow oh x_min x_max y_max : Z)
    (st : RandomState) :
  has_placement config ow oh x_min x_max y_max ->
  Z.max x_min (objW / 2) <= Z.min x_max (ow - objW / 2) ->
  objH / 2 <= Z.min y_max (oh - objH / 2) ->
  exists cx cy st',
    calculate_valid_position objW objH config st = Ok ((cx, cy), st') /\
    Z.max x_min (objW / 2) <= cx <= Z.min x_max (ow - objW / 2) /\
    objH / 2 <= cy <= Z.min y_max (oh - objH / 2).
Proof.
  intros Hc Hx Hy.
  rewrite (calculate_valid_position_unfold _ _ _ _ _ _ _ _ _ Hc).
  destruct (Z.ltb_spec (Z.min x_max (ow - objW / 2)) (Z.max x_min (objW / 2)));
    [lia|].
  destruct (Z.ltb_spec (Z.min y_max (oh - objH / 2)) (objH / 2)); [lia|].
  simpl.
  destruct (randint_range _ _ st Hx) as (cx & st1 & -> & Hcx).
  destruct (randint_range _ _ st1 Hy) as (cy & st2 & E2 & Hcy).
  simpl. rewrite E2. simpl. eauto 10.
Qed.

(** What the ranges do give: the centre is at least half a side, rounded
    down, away from every edge of the canvas. *)
Lemma calculate_valid_position_half_fits
    (objW objH : Z) (config : Config) (ow oh x_min x_max y_max : Z)
    (st : RandomState) :
  has_placement config ow oh x_min x_max y_max ->
  Z.max x_min (objW / 2) <= Z.min x_max (ow - objW / 2) ->
  objH / 2 <= Z.min y_max (oh - objH / 2) ->
  exists cx cy st',
    calculate_valid_position objW objH config st = Ok ((cx, cy), st') /\
    0 <= cx - objW / 2 /\ cx + objW / 2 <= ow /\
    0 <= cy - objH / 2 /\ cy + objH / 2 <= oh.
Proof.
  intros Hc Hx Hy.
  destruct (calculate_valid_position_in_range _ _ _ _ _ _ _ _ st Hc Hx Hy)
    as (cx & cy & st' & E & Hcx & Hcy).
  exists cx, cy, st'. split; [exact E|]. lia.
Qed.

(** For sides of even length the pasted rectangle lies on the canvas. *)
Lemma calculate_valid_position_even_fits
    (objW objH : Z) (config : Config) (ow oh x_min x_max y_max : Z)
    (st : RandomState) :
  has_placement config ow oh x_min x_max y_max ->
  objW mod 2 = 0 -> objH mod 2 = 0 ->
  Z.max x_min (objW / 2) <= Z.min x_max (ow - objW / 2) ->
  objH / 2 <= Z.min y_max (oh - objH / 2) ->
  exists cx cy st' x0 y0 x1 y1,
    calculate_valid_position objW objH config st = Ok ((cx, cy), st') /\
    bounding_box objW objH cx cy = (x0, y0, x1, y1) /\
    0 <= x0 /\ x1 <= ow /\ 0 <= y0 /\ y1 <= oh.
Proof.
  intros Hc Hw Hh Hx Hy.
  destruct (calculate_valid_position_in_range _ _ _ _ _ _ _ _ st Hc Hx Hy)
    as (cx & cy & st' & E & Hcx & Hcy).
  exists cx, cy, st'. do 4 eexists. split; [exact E|].
  split; [reflexivity|].
  pose proof (Z.div_mod objW 2). pose proof (Z.div_mod objH 2). lia.
Qed.

(** C1 (evaluation at the failing input).  On the 1280x720 canvas with
    x in [320, 960] and y_max = 360, both ranges of a 641x100 object are in
    order, and the draw 640 places its centre at (960, 68).  The centre is
    not half a width away from the right edge, 960 + 641/2 > 1280, and the
    rectangle pasted for it is (640, 18, 1281, 118): its right edge lies one
    pixel beyond the canvas, so the object does not fit. *)
Theorem calculate_valid_position_odd_width_leaves_canvas :
  let config := placement_config 1280 720 320 960 360 in
  Z.max 320 (641 / 2) <= Z.min 960 (1280 - 641 / 2) /\
  100 / 2 <= Z.min 360 (720 - 100 / 2) /\
  calculate_valid_position 641 100 config (constant_random 640)
    = Ok ((960, 68), mkRandom (fun _ => 640) 2) /\
  2 * 1280 < 2 * 960 + 641 /\
  bounding_box 641 100 960 68 = (640, 18, 1281, 118) /\
  1280 < 1281.
Proof. cbv zeta. repeat split; try reflexivity; vm_compute; congruence. Qed.

(** C2.  When either derived range is inverted, [calculate_valid_position]
    raises nothing, draws nothing, and returns the midpoint of the
    configured x range with half of y_max. *)
Theorem calculate_valid_position_fallback
    (objW objH : Z) (config : Config) (ow oh x_min x_max y_max : Z)
    (st : RandomState) :
  has_placement config ow oh x_min x_max y_max ->
  Z.min x_max (ow - objW / 2) < Z.max x_min (objW / 2) \/
  Z.min y_max (oh - objH / 2) < objH / 2 ->
  calculate_valid_position objW objH config st
    = Ok (((x_min + x_max) / 2, y_max / 2), st).
Proof.
  intros Hc Hinv.
  rewrite (calculate_valid_position_unfold _ _ _ _ _ _ _ _ _ Hc).
  destruct (Z.ltb_spec (Z.min x_max (ow - objW / 2)) (Z.max x_min (objW / 2)));
    [reflexivity|].
  destruct (Z.ltb_spec (Z.min y_max (oh - objH / 2)) (objH / 2));
    [reflexivity|]. lia.
Qed.

(** The scenario of the specification: an 800x800 object with x in
    [320, 960] and y_max = 360 on a 1280x720 canvas is placed at (640, 180). *)
Lemma calculate_valid_position_fallback_witness :
  has_placement (placement_config 1280 720 320 960 360) 1280 720 320 960 360 /\
  (Z.min 960 (1280 - 800 / 2) < Z.max 320 (800 / 2) \/
   Z.min 360 (720 - 800 / 2) < 800 / 2) /\
  calculate_valid_position 800 800 (placement_config 1280 720 320 960 360)
      (constant_random 0)
    = Ok ((640, 180), constant_random 0).
Proof.
  assert (H1 : has_placement (placement_config 1280 720 320 960 360)
                 1280 720 320 960 360) by (repeat split; reflexivity).
  assert (H2 : Z.min 960 (1280 - 800 / 2) < Z.max 320 (800 / 2) \/
               Z.min 360 (720 - 800 / 2) < 800 / 2)
    by (right; reflexivity).
  split; [exact H1|]. split; [exact H2|].
  exact (calculate_valid_position_fallback 800 800 _ _ _ _ _ _
           (constant_random 0) H1 H2).
Defined.

(** ** The object store *)

Lemma Prog_bind_unfold {A B : Type} (m : Prog A) (k : A -> Prog B) (w : World) :
  (m ≫= k) w = match m w with Ok (a, w') => k a w' | Raise e => Raise e end.
Proof. reflexivity. Qed.

Lemma load_Some (r : nat) (image : Image) (w : World) :
  heap w !! r = Some image -> load r w = Ok (image, w).
Proof. intros H. unfold load. by rewrite H. Qed.

Lemma alloc_fresh (image : Image) (w : World) :
  exists r,
    alloc image w = Ok (r, mkWorld (<[r := image]> (heap w)) (random w)) /\
    heap w !! r = None.
Proof.
  eexists. split; [reflexivity|].
  apply not_elem_of_dom. apply is_fresh.
Qed.

Lemma extends_refl (w : World) : extends w w.
Proof. split; auto. Qed.

Lemma extends_trans (w1 w2 w3 : World) :
  extends w1 w2 -> extends w2 w3 -> extends w1 w3.
Proof. intros [H1 R1] [H2 R2]. split; [auto | congruence]. Qed.

Lemma extends_insert (w : World) (r : nat) (image : Image) :
  heap w !! r = None ->
  extends w (mkWorld (<[r := image]> (heap w)) (random w)).
Proof.
  intros Hr. split; [|reflexivity]. intros r' image' H. simpl.
  rewrite lookup_insert_ne; [exact H | congruence].
Qed.

(** [composite_images] as a function of the images behind its arguments:
    the result is a new object, and every object that existed before the
    call is left as it was. *)
Lemma composite_images_spec
    (background obj_image : nat) (center_x center_y : Z)
    (bg ob : Image) (w : World) :
  heap w !! background = Some bg ->
  heap w !! obj_image = Some ob ->
  exists result w',
    composite_images background obj_image center_x center_y w
      = Ok (result, w') /\
    heap w !! result = None /\
    heap w' !! result = Some (composite_value bg ob center_x center_y) /\
    extends w w'.
Proof.
  intros Hbg Hob. unfold composite_images, composite_value.
  rewrite Prog_bind_unfold, (load_Some _ _ _ Hbg).
  (* the background, coerced *)
  set (bg' := if bool_decide (mode bg ≠ RGBA) then convert_RGBA bg else bg).
  assert (exists b1 w1,
    (if bool_decide (mode bg ≠ RGBA) then alloc (convert_RGBA bg)
     else mret background) w = Ok (b1, w1) /\
    heap w1 !! b1 = Some bg' /\ extends w w1) as (b1 & w1 & E1 & Hb1 & X1).
  { subst bg'. destruct (bool_decide (mode bg ≠ RGBA)).
    - destruct (alloc_fresh (convert_RGBA bg) w) as (r & E & Hr).
      eexists _, _. split; [exact E|]. split.
      + simpl. apply lookup_insert_eq.
      + by apply extends_insert.
    - exists background, w. repeat split; auto. }
  rewrite Prog_bind_unfold, E1.
  assert (Hob1 : heap w1 !! obj_image = Some ob) by (by apply X1).
  rewrite Prog_bind_unfold, (load_Some _ _ _ Hob1).
  (* the object, coerced *)
  set (ob' := if bool_decide (mode ob ≠ RGBA) then convert_RGBA ob else ob).
  assert (exists o2 w2,
    (if bool_decide (mode ob ≠ RGBA) then alloc (convert_RGBA ob)
     else mret obj_image) w1 = Ok (o2, w2) /\
    heap w2 !! o2 = Some ob' /\ extends w1 w2) as (o2 & w2 & E2 & Ho2 & X2).
  { subst ob'. destruct (bool_decide (mode ob ≠ RGBA)).
    - destruct (alloc_fresh (convert_RGBA ob) w1) as (r & E & Hr).
      eexists _, _. split; [exact E|]. split.
      + simpl. apply lookup_insert_eq.
      + by apply extends_insert.
    - exists obj_image, w1. repeat split; auto. }
  rewrite Prog_bind_unfold, E2.
  rewrite Prog_bind_unfold, (load_Some _ _ _ Ho2).
  destruct (size ob') as [obj_width obj_height] eqn:Hsize.
  assert (Hb2 : heap w2 !! b1 = Some bg') by (by apply X2).
  rewrite Prog_bind_unfold, (load_Some _ _ _ Hb2).
  (* the copy that is pasted onto *)
  destruct (alloc_fresh (copy bg') w2) as (r3 & E3 & Hr3).
  rewrite Prog_bind_unfold, E3.
  set (w3 := mkWorld (<[r3 := copy bg']> (heap w2)) (random w2)).
  assert (X3 : extends w2 w3) by (by apply extends_insert).
  assert (Hd3 : heap w3 !! r3 = Some bg') by apply lookup_insert_eq.
  rewrite Prog_bind_unfold, (load_Some _ _ _ Hd3).
  assert (Ho3 : heap w3 !! o2 = Some ob') by (by apply X3).
  rewrite Prog_bind_unfold, (load_Some _ _ _ Ho3).
  rewrite Prog_bind_unfold. unfold lift, paste.
  rewrite bool_decide_eq_true_2 by reflexivity.
  rewrite Prog_bind_unfold. unfold store.
  set (pasted := mkImage (mode bg') _).
  set (w4 := mkWorld (<[r3 := pasted]> (heap w3)) (random w3)).
  assert (Hd4 : heap w4 !! r3 = Some pasted) by apply lookup_insert_eq.
  rewrite Prog_bind_unfold, (load_Some _ _ _ Hd4).
  destruct (alloc_fresh (convert_RGB pasted) w4) as (r5 & E5 & Hr5).
  rewrite E5.
  assert (Hne : r5 <> r3).
  { intros ->. rewrite Hd4 in Hr5. discriminate. }
  assert (X : forall r image, heap w !! r = Some image -> r <> r3).
  { intros r image H ->. apply X1, X2 in H. rewrite Hr3 in H. discriminate. }
  assert (H35 : heap w3 !! r5 = None).
  { rewrite <- Hr5. symmetry. apply lookup_insert_ne. congruence. }
  assert (X5 : forall r image, heap w !! r = Some image -> r <> r5).
  { intros r image H ->. apply X1, X2, X3 in H. congruence. }
  eexists _, _. split; [reflexivity|]. split; [|split].
  - destruct (heap w !! r5) as [image|] eqn:H5; [|reflexivity].
    exfalso. by apply (X5 _ _ H5).
  - simpl. apply lookup_insert_eq.
  - split; [|simpl; destruct X1, X2; congruence].
    intros r image H. simpl.
    pose proof (X _ _ H). pose proof (X5 _ _ H).
    rewrite !lookup_insert_ne by congruence.
    by apply X2, X1.
Qed.

(** ** Rasters *)

Lemma raster_get_make {A : Type} (d : A) (w h : Z) (f : Z -> Z -> A) (x y : Z) :
  0 <= x < w -> 0 <= y < h ->
  raster_get d (raster_make w h f) x y = f x y.
Proof.
  intros Hx Hy. unfold raster_get, raster_make; simpl.
  destruct (Z.leb_spec 0 x); [|lia]. destruct (Z.leb_spec 0 y); [|lia].
  simpl. rewrite list_lookup_fmap, lookup_seqZ_lt by lia. simpl.
  rewrite list_lookup_fmap, lookup_seqZ_lt by lia. simpl.
  f_equal; lia.
Qed.

Lemma raster_get_outside {A : Type} (d : A) (r : Raster A) (x y : Z) :
  raster_wf r ->
  ~ (0 <= x < width r /\ 0 <= y < height r) ->
  raster_get d r x y = d.
Proof.
  intros (Hw & Hh & Hlen & Hrows) Hout. unfold raster_get.
  destruct (Z.leb_spec 0 x); [|reflexivity].
  destruct (Z.leb_spec 0 y); [|reflexivity]. simpl.
  destruct (rows r !! Z.to_nat y) as [row|] eqn:Hrow; [|reflexivity].
  pose proof (lookup_lt_Some _ _ _ Hrow) as Hy.
  rewrite Forall_forall in Hrows.
  assert (Hl : length row = Z.to_nat (width r)).
  { apply Hrows. eapply list_elem_of_lookup_2; eauto. }
  rewrite lookup_ge_None_2; [reflexivity|]. lia.
Qed.

Lemma raster_make_wf {A : Type} (w h : Z) (f : Z -> Z -> A) :
  0 <= w -> 0 <= h -> raster_wf (raster_make w h f).
Proof.
  intros Hw Hh. unfold raster_wf, raster_make; simpl.
  repeat split; try lia.
  - by rewrite length_map, length_seqZ.
  - apply Forall_forall. intros row Hin.
    apply list_elem_of_fmap in Hin as (y & -> & _).
    by rewrite length_map, length_seqZ.
Qed.

Lemma raster_make_ext {A : Type} (w h : Z) (f g : Z -> Z -> A) :
  (forall x y, 0 <= x < w -> 0 <= y < h -> f x y = g x y) ->
  raster_make w h f = raster_make w h g.
Proof.
  intros H. unfold raster_make. f_equal.
  apply map_ext_in. intros y Hy. apply map_ext_in. intros x Hx.
  apply list_elem_of_In, elem_of_seqZ in Hx, Hy. apply H; lia.
Qed.

Lemma raster_map_make {A B : Type} (g : A -> B) (w h : Z) (f : Z -> Z -> A) :
  raster_map g (raster_make w h f) = raster_make w h (fun x y => g (f x y)).
Proof.
  unfold raster_map, raster_make; simpl. f_equal.
  rewrite map_map. apply map_ext. intros y. by rewrite map_map.
Qed.

(** A well-formed raster is the table of its samples. *)
Lemma raster_make_get {A : Type} (d : A) (r : Raster A) :
  raster_wf r ->
  raster_make (width r) (height r) (raster_get d r) = r.
Proof.
  destruct r as [w h rs]. intros (Hw & Hh & Hlen & Hrows); simpl in *.
  unfold raster_make. f_equal.
  apply list_eq. intros i. rewrite list_lookup_fmap.
  destruct (decide (i < Z.to_nat h)%nat) as [Hi|Hi].
  - rewrite lookup_seqZ_lt by lia. simpl.
    destruct (lookup_lt_is_Some_2 rs i) as [row Hrow]; [lia|].
    rewrite Hrow. f_equal.
    assert (Hl : length row = Z.to_nat w).
    { rewrite Forall_forall in Hrows. apply Hrows.
      eapply list_elem_of_lookup_2; eauto. }
    apply list_eq. intros j. rewrite list_lookup_fmap.
    destruct (decide (j < Z.to_nat w)%nat) as [Hj|Hj].
    + rewrite lookup_seqZ_lt by lia. simpl.
      unfold raster_get; simpl.
      destruct (Z.leb_spec 0 (0 + Z.of_nat j)); [|lia].
      destruct (Z.leb_spec 0 (0 + Z.of_nat i)); [|lia]. simpl.
      replace (Z.to_nat (0 + Z.of_nat i)) with i by lia.
      replace (Z.to_nat (0 + Z.of_nat j)) with j by lia.
      rewrite Hrow.
      destruct (lookup_lt_is_Some_2 row j) as [a Ha]; [lia|].
      by rewrite Ha.
    + rewrite lookup_seqZ_ge by lia. simpl.
      symmetry. apply lookup_ge_None_2. lia.
  - rewrite lookup_seqZ_ge by lia. simpl.
    symmetry. apply lookup_ge_None_2. lia.
Qed.

Lemma raster_get_map {A B : Type} (d : A) (e : B) (g : A -> B)
    (r : Raster A) (x y : Z) :
  raster_wf r -> 0 <= x < width r -> 0 <= y < height r ->
  raster_get e (raster_map g r) x y = g (raster_get d r x y).
Proof.
  intros Hwf Hx Hy. rewrite <- (raster_make_get d r Hwf) at 1.
  rewrite raster_map_make. by rewrite raster_get_make.
Qed.

Lemma raster_map_wf {A B : Type} (g : A -> B) (r : Raster A) :
  raster_wf r -> raster_wf (raster_map g r).
Proof.
  intros (Hw & Hh & Hlen & Hrows). unfold raster_wf, raster_map; simpl.
  repeat split; try lia.
  - by rewrite length_map.
  - apply Forall_fmap. eapply Forall_impl; [exact Hrows|].
    intros row Hrow. simpl. by rewrite length_map.
Qed.

(** ** composite_images *)

Lemma convert_RGBA_size (image : Image) :
  size (convert_RGBA image) = size image.
Proof. reflexivity. Qed.

Lemma coerced_getpixel (bg : Image) (x y : Z) :
  image_wf bg ->
  0 <= x < width (pixels bg) -> 0 <= y < height (pixels bg) ->
  getpixel (if bool_decide (mode bg ≠ RGBA) then convert_RGBA bg else bg) x y
    = to_rgba (mode bg) (getpixel bg x y).
Proof.
  intros Hwf Hx Hy. case_bool_decide as Hm.
  - unfold getpixel, convert_RGBA; simpl.
    by apply raster_get_map.
  - destruct (mode bg) eqn:E; try congruence. reflexivity.
Qed.

Lemma composite_value_size (bg ob : Image) (center_x center_y : Z) :
  size (composite_value bg ob center_x center_y) = size bg /\
  mode (composite_value bg ob center_x center_y) = RGB.
Proof.
  unfold composite_value.
  destruct (size (if bool_decide (mode ob ≠ RGBA) then _ else _)).
  split; [|reflexivity].
  unfold size; simpl. by case_bool_decide.
Qed.

(** Outside the rectangle that starts at the paste origin and has the size
    of the object, the composite shows the background. *)
Lemma composite_value_outside (bg ob : Image) (center_x center_y x y : Z) :
  image_wf bg ->
  0 <= x < width (pixels bg) -> 0 <= y < height (pixels bg) ->
  let '(x0, y0) :=
    paste_origin (width (pixels ob)) (height (pixels ob)) center_x center_y in
  ~ (x0 <= x < x0 + width (pixels ob) /\ y0 <= y < y0 + height (pixels ob)) ->
  getpixel (composite_value bg ob center_x center_y) x y
    = to_rgb (mode bg) (getpixel bg x y).
Proof.
  intros Hwf Hx Hy. unfold paste_origin. intros Hout.
  unfold composite_value.
  set (bg' := if bool_decide (mode bg ≠ RGBA) then convert_RGBA bg else bg).
  set (ob' := if bool_decide (mode ob ≠ RGBA) then convert_RGBA ob else ob).
  assert (Hsz : size ob' = size ob) by (subst ob'; by case_bool_decide).
  assert (Hbsz : size bg' = size bg) by (subst bg'; by case_bool_decide).
  destruct (size ob') as [obj_width obj_height] eqn:Hsize.
  unfold size in Hsz, Hsize, Hbsz.
  injection Hsz as Hw Hh. injection Hsize as Hw' Hh'.
  injection Hbsz as Hbw Hbh.
  assert (Hg : to_rgb (mode bg') (getpixel bg' x y)
               = to_rgb (mode bg) (getpixel bg x y)).
  { subst bg'. rewrite coerced_getpixel by assumption.
    destruct bg as [m r]; simpl. by destruct m. }
  clearbody bg' ob'.
  unfold getpixel at 1, convert_RGB. cbn [pixels mode].
  rewrite raster_map_make, raster_get_make by lia.
  unfold paste_pixel, paste_origin. cbn [fst snd].
  rewrite Hw', Hh'.
  assert (Hc : (0 <=? x - (center_x - obj_width / 2)) &&
               (x - (center_x - obj_width / 2) <? obj_width) &&
               (0 <=? y - (center_y - obj_height / 2)) &&
               (y - (center_y - obj_height / 2) <? obj_height) = false).
  { apply not_true_is_false. intros Ht.
    apply andb_prop in Ht as [Ht H4]. apply andb_prop in Ht as [Ht H3].
    apply andb_prop in Ht as [H1 H2].
    apply Z.leb_le in H1, H3. apply Z.ltb_lt in H2, H4.
    rewrite Hw in H1, H2. rewrite Hh in H3, H4. apply Hout. lia. }
  rewrite Hc. exact Hg.
Qed.

Lemma coerced_mode (image : Image) : mode (coerced image) = RGBA.
Proof.
  unfold coerced. case_bool_decide as Hm; [reflexivity|].
  by destruct (mode image).
Qed.

(** What is shown inside the rectangle. *)

Lemma blend8_transparent (d s : N) : (d <= 255)%N -> blend8 0 d s = d.
Proof.
  intros H. unfold blend8. change (255 - 0)%N with 255%N.
  rewrite N.mul_0_r, N.add_0_r. zify. Z.div_mod_to_equations. lia.
Qed.

Lemma blend8_opaque (d s : N) : (s <= 255)%N -> blend8 255 d s = s.
Proof.
  intros H. unfold blend8. change (255 - 255)%N with 0%N.
  rewrite N.mul_0_r, N.add_0_l. zify. Z.div_mod_to_equations. lia.
Qed.

Lemma sample_object_wf : image_wf sample_object.
Proof.
  unfold image_wf, raster_wf; simpl.
  repeat split; try lia. repeat constructor.
Qed.

(** Inside the rectangle every colour channel of the composite is the
    blend of the background's and the object's by the object's alpha. *)
Lemma composite_value_inside (bg ob : Image) (center_x center_y x y : Z) :
  image_wf bg -> image_wf ob ->
  0 <= x < width (pixels bg) -> 0 <= y < height (pixels bg) ->
  let x0 := center_x - width (pixels ob) / 2 in
  let y0 := center_y - height (pixels ob) / 2 in
  x0 <= x < x0 + width (pixels ob) -> y0 <= y < y0 + height (pixels ob) ->
  let d := to_rgba (mode bg) (getpixel bg x y) in
  let s := to_rgba (mode ob) (getpixel ob (x - x0) (y - y0)) in
  getpixel (composite_value bg ob center_x center_y) x y
    = mkPixel (blend8 (alpha s) (red d) (red s))
              (blend8 (alpha s) (green d) (green s))
              (blend8 (alpha s) (blue d) (blue s)) 255.
Proof.
  intros Hwf Hwfo Hx Hy x0 y0 Hix Hiy d s.
  unfold composite_value.
  pose proof (coerced_getpixel bg x y Hwf Hx Hy) as Hd.
  assert (Hsx : 0 <= x - x0 < width (pixels ob)) by lia.
  assert (Hsy : 0 <= y - y0 < height (pixels ob)) by lia.
  pose proof (coerced_getpixel ob (x - x0) (y - y0) Hwfo Hsx Hsy) as Hs.
  pose proof (coerced_mode bg) as Hm. unfold coerced in Hm.
  set (bg' := if bool_decide (mode bg ≠ RGBA) then convert_RGBA bg else bg)
    in *.
  set (ob' := if bool_decide (mode ob ≠ RGBA) then convert_RGBA ob else ob)
    in *.
  assert (Hsz : size ob' = size ob) by (subst ob'; by case_bool_decide).
  assert (Hbsz : size bg' = size bg) by (subst bg'; by case_bool_decide).
  destruct (size ob') as [obj_width obj_height] eqn:Hsize.
  unfold size in Hsz, Hsize, Hbsz.
  injection Hsz as Hw Hh. injection Hsize as Hw' Hh'.
  injection Hbsz as Hbw Hbh.
  clearbody bg' ob'.
  unfold getpixel at 1, convert_RGB. cbn [pixels mode].
  rewrite raster_map_make, raster_get_make by lia.
  unfold paste_pixel, paste_origin. cbn [fst snd].
  rewrite Hw', Hh', Hw, Hh. fold x0 y0.
  assert (Hc : (0 <=? x - x0) && (x - x0 <? width (pixels ob)) &&
               (0 <=? y - y0) && (y - y0 <? height (pixels ob)) = true).
  { repeat (apply andb_true_intro; split);
      first [apply Z.leb_le | apply Z.ltb_lt]; lia. }
  rewrite Hc, Hd, Hs, Hm. reflexivity.
Qed.

(** C9.  [composite_images] returns a new object and leaves the object
    behind its background argument as it was: the same image, hence the same
    mode, size and pixels, is stored there after the call. *)
Theorem composite_images_keeps_background
    (background obj_image : nat) (center_x center_y : Z)
    (bg ob : Image) (w : World) :
  heap w !! background = Some bg ->
  heap w !! obj_image = Some ob ->
  exists result w',
    composite_images background obj_image center_x center_y w
      = Ok (result, w') /\
    result <> background /\
    heap w' !! background = Some bg.
Proof.
  intros Hbg Hob.
  destruct (composite_images_spec _ _ center_x center_y _ _ _ Hbg Hob)
    as (result & w' & E & Hfresh & _ & Hext).
  exists result, w'. split; [exact E|]. split.
  - intros ->. congruence.
  - by apply Hext.
Qed.

Lemma composite_images_keeps_background_witness :
  heap sample_world !! 0%nat = Some sample_background /\
  heap sample_world !! 1%nat = Some sample_object /\
  exists result w',
    composite_images 0 1 2 1 sample_world = Ok (result, w') /\
    result <> 0%nat /\
    heap w' !! 0%nat = Some sample_background.
Proof.
  assert (H0 : heap sample_world !! 0%nat = Some sample_background)
    by reflexivity.
  assert (H1 : heap sample_world !! 1%nat = Some sample_object)
    by reflexivity.
  split; [exact H0|]. split; [exact H1|].
  exact (composite_images_keeps_background 0 1 2 1 _ _ _ H0 H1).
Defined.

(** C8.  The bounding box computed in [main] for an object of size
    (objW, objH) composited at (centerX, centerY) is
    (centerX - objW//2, centerY - objH//2, left + objW, top + objH); its
    corner is the origin [composite_images] pastes at, and it is the exact
    rectangle of the paste, whatever the alpha of the object is: when the
    four coordinates are C ints, as [Image.paste] needs them, the composite
    shows the background at every pixel of the canvas outside the box, and
    at the pixel (x, y) inside it the blend of the background with the pixel
    (x - left, y - top) of the object by the object's alpha, which is that
    pixel of the object where it is opaque. *)
Theorem bounding_box_is_paste_rectangle
    (background obj_image : nat) (center_x center_y : Z)
    (bg ob : Image) (w : World) :
  heap w !! background = Some bg ->
  heap w !! obj_image = Some ob ->
  image_wf bg -> image_wf ob ->
  let objW := width (pixels ob) in
  let objH := height (pixels ob) in
  let x0 := center_x - objW / 2 in
  let y0 := center_y - objH / 2 in
  c_int x0 -> c_int y0 -> c_int (x0 + objW) -> c_int (y0 + objH) ->
  bounding_box objW objH center_x center_y = (x0, y0, x0 + objW, y0 + objH) /\
  paste_origin objW objH center_x center_y = (x0, y0) /\
  exists result w' composite,
    composite_images background obj_image center_x center_y w
      = Ok (result, w') /\
    heap w' !! result = Some composite /\
    size composite = size bg /\
    forall x y,
      0 <= x < width (pixels bg) -> 0 <= y < height (pixels bg) ->
      (~ (x0 <= x < x0 + objW /\ y0 <= y < y0 + objH) ->
       getpixel composite x y = to_rgb (mode bg) (getpixel bg x y)) /\
      (x0 <= x < x0 + objW /\ y0 <= y < y0 + objH ->
       let d := to_rgba (mode bg) (getpixel bg x y) in
       let s := to_rgba (mode ob) (getpixel ob (x - x0) (y - y0)) in
       getpixel composite x y
         = mkPixel (blend8 (alpha s) (red d) (red s))
                   (blend8 (alpha s) (green d) (green s))
                   (blend8 (alpha s) (blue d) (blue s)) 255 /\
       (eight_bit s -> alpha s = 255%N ->
        getpixel composite x y
          = to_rgb (mode ob) (getpixel ob (x - x0) (y - y0)))).
Proof.
  intros Hbg Hob Hwf Hwfo objW objH x0 y0 _ _ _ _.
  split; [reflexivity|]. split; [reflexivity|].
  destruct (composite_images_spec _ _ center_x center_y _ _ _ Hbg Hob)
    as (result & w' & E & _ & Hres & _).
  exists result, w', (composite_value bg ob center_x center_y).
  split; [exact E|]. split; [exact Hres|].
  split; [apply composite_value_size|].
  intros x y Hx Hy. split.
  - intros Hout.
    by apply (composite_value_outside bg ob center_x center_y x y Hwf Hx Hy).
  - intros [Hix Hiy] d s.
    pose proof (composite_value_inside bg ob center_x center_y x y
                  Hwf Hwfo Hx Hy Hix Hiy) as Hin.
    cbv zeta in Hin. fold objW objH in Hin. fold x0 y0 in Hin.
    fold d s in Hin.
    split; [exact Hin|].
    intros (Hs1 & Hs2 & Hs3 & _) Ha. rewrite Hin, Ha.
    rewrite !blend8_opaque by assumption.
    subst s. unfold to_rgb. reflexivity.
Qed.

Lemma sample_background_wf : image_wf sample_background.
Proof. apply raster_make_wf; lia. Qed.

Lemma bounding_box_is_paste_rectangle_witness :
  heap sample_world !! 0%nat = Some sample_background /\
  heap sample_world !! 1%nat = Some sample_object /\
  image_wf sample_background /\ image_wf sample_object /\
  c_int (2 - width (pixels sample_object) / 2) /\
  c_int (1 - height (pixels sample_object) / 2) /\
  c_int (2 - width (pixels sample_object) / 2
         + width (pixels sample_object)) /\
  c_int (1 - height (pixels sample_object) / 2
         + height (pixels sample_object)) /\
  bounding_box 2 2 2 1 = (1, 0, 3, 2) /\
  paste_origin 2 2 2 1 = (1, 0) /\
  exists result w' composite,
    composite_images 0 1 2 1 sample_world = Ok (result, w') /\
    heap w' !! result = Some composite /\
    size composite = (4, 3) /\
    getpixel composite 0 0 = mkPixel 10 20 30 255 /\
    getpixel composite 1 0 = mkPixel 200 0 0 255 /\
    getpixel composite 2 1 = mkPixel 9 9 9 255.
Proof.
  assert (H0 : heap sample_world !! 0%nat = Some sample_background)
    by reflexivity.
  assert (H1 : heap sample_world !! 1%nat = Some sample_object)
    by reflexivity.
  assert (Hc1 : c_int (2 - width (pixels sample_object) / 2))
    by (vm_compute; split; [discriminate | reflexivity]).
  assert (Hc2 : c_int (1 - height (pixels sample_object) / 2))
    by (vm_compute; split; [discriminate | reflexivity]).
  assert (Hc3 : c_int (2 - width (pixels sample_object) / 2
                       + width (pixels sample_object)))
    by (vm_compute; split; [discriminate | reflexivity]).
  assert (Hc4 : c_int (1 - height (pixels sample_object) / 2
                       + height (pixels sample_object)))
    by (vm_compute; split; [discriminate | reflexivity]).
  split; [exact H0|]. split; [exact H1|].
  split; [exact sample_background_wf|]. split; [exact sample_object_wf|].
  split; [exact Hc1|]. split; [exact Hc2|].
  split; [exact Hc3|]. split; [exact Hc4|].
  destruct (bounding_box_is_paste_rectangle 0 1 2 1 _ _ _ H0 H1
              sample_background_wf sample_object_wf Hc1 Hc2 Hc3 Hc4)
    as (Hbox & Horigin & result & w' & composite & E & Hres & Hsize & Hpix).
  split; [exact Hbox|]. split; [exact Horigin|].
  exists result, w', composite.
  split; [exact E|]. split; [exact Hres|]. split; [exact Hsize|].
  assert (Hx0 : 0 <= 0 < width (pixels sample_background)) by (simpl; lia).
  assert (Hx1 : 0 <= 1 < width (pixels sample_background)) by (simpl; lia).
  assert (Hx2 : 0 <= 2 < width (pixels sample_background)) by (simpl; lia).
  assert (Hy0 : 0 <= 0 < height (pixels sample_background)) by (simpl; lia).
  assert (Hy1 : 0 <= 1 < height (pixels sample_background)) by (simpl; lia).
  split; [|split].
  - apply (proj1 (Hpix 0 0 Hx0 Hy0)).
    change (~ (1 <= 0 < 3 /\ 0 <= 0 < 2)). lia.
  - assert (Hin : 1 <= 1 < 3 /\ 0 <= 0 < 2) by lia.
    exact (proj1 (proj2 (Hpix 1 0 Hx1 Hy0) Hin)).
  - assert (Hin : 1 <= 2 < 3 /\ 0 <= 1 < 2) by lia.
    apply (proj2 (proj2 (Hpix 2 1 Hx2 Hy1) Hin)).
    + vm_compute. repeat split; discriminate.
    + reflexivity.
Defined.

(** ** Image.getbbox *)

Section Extent.
Context (P : Z -> Prop) `{!forall x, Decision (P x)}.

Lemma seqZ_split (n x : Z) (l1 l2 : list Z) :
  seqZ 0 n = l1 ++ x :: l2 ->
  0 <= x < n /\
  (forall z, 0 <= z < x -> z ∈ l1) /\
  (forall z, x < z < n -> z ∈ l2).
Proof.
  intros E.
  assert (Hx : seqZ 0 n !! length l1 = Some x).
  { rewrite E. by rewrite list_lookup_middle. }
  apply lookup_seqZ in Hx as [-> Hlt].
  split; [lia|]. split.
  - intros z Hz.
    assert (Hl : seqZ 0 n !! Z.to_nat z = Some z).
    { rewrite lookup_seqZ_lt by lia. f_equal; lia. }
    rewrite E, lookup_app_l in Hl by lia.
    eapply list_elem_of_lookup_2; eauto.
  - intros z Hz.
    assert (Hl : seqZ 0 n !! Z.to_nat z = Some z).
    { rewrite lookup_seqZ_lt by lia. f_equal; lia. }
    rewrite E, lookup_app_r in Hl by lia.
    destruct (Z.to_nat z - length l1)%nat as [|k] eqn:Hk; [lia|].
    simpl in Hl. eapply list_elem_of_lookup_2; eauto.
Qed.

Lemma head_filter_seqZ (n x : Z) :
  head (filter P (seqZ 0 n)) = Some x ->
  P x /\ 0 <= x < n /\ forall z, 0 <= z < x -> ~ P z.
Proof.
  intros Hh.
  assert (Hin : x ∈ filter P (seqZ 0 n)) by (by apply head_Some_elem_of).
  apply list_elem_of_filter in Hin as [HP Hin].
  apply head_filter_Some in Hh as (l1 & l2 & E & Hl1).
  destruct (seqZ_split _ _ _ _ E) as (Hx & Hlow & _).
  split; [exact HP|]. split; [exact Hx|].
  intros z Hz. rewrite Forall_forall in Hl1. by apply Hl1, Hlow.
Qed.

Lemma last_filter_seqZ (n x : Z) :
  last (filter P (seqZ 0 n)) = Some x ->
  P x /\ 0 <= x < n /\ forall z, x < z < n -> ~ P z.
Proof.
  intros Hh.
  assert (Hin : x ∈ filter P (seqZ 0 n)) by (by apply last_Some_elem_of).
  apply list_elem_of_filter in Hin as [HP Hin].
  apply last_filter_Some in Hh as (l1 & l2 & E & Hl2).
  destruct (seqZ_split _ _ _ _ E) as (Hx & _ & Hhigh).
  split; [exact HP|]. split; [exact Hx|].
  intros z Hz. rewrite Forall_forall in Hl2. by apply Hl2, Hhigh.
Qed.

Lemma filter_seqZ_nonempty (n z : Z) :
  0 <= z < n -> P z ->
  exists lo hi,
    head (filter P (seqZ 0 n)) = Some lo /\
    last (filter P (seqZ 0 n)) = Some hi.
Proof.
  intros Hz HP.
  assert (Hin : z ∈ filter P (seqZ 0 n)).
  { apply list_elem_of_filter. split; [exact HP|].
    apply elem_of_seqZ. lia. }
  destruct (filter P (seqZ 0 n)) as [|a l] eqn:E.
  - by apply not_elem_of_nil in Hin.
  - exists a. destruct (last (a :: l)) as [hi|] eqn:Hl; [eauto|].
    by apply last_None in Hl.
Qed.

Lemma filter_seqZ_empty (n : Z) :
  head (filter P (seqZ 0 n)) = None ->
  forall z, 0 <= z < n -> ~ P z.
Proof.
  intros Hh z Hz HP.
  destruct (filter_seqZ_nonempty n z Hz HP) as (lo & _ & E & _).
  congruence.
Qed.

(** The first and the last element kept by the filter are the extent of
    [P], and nothing else is. *)
Lemma filter_seqZ_extent (n lo hi : Z) :
  head (filter P (seqZ 0 n)) = Some lo /\
  last (filter P (seqZ 0 n)) = Some hi <->
  extent P n lo hi.
Proof.
  split.
  - intros [Hh Hl].
    apply head_filter_seqZ in Hh as (Plo & Hlo & Hmin).
    apply last_filter_seqZ in Hl as (Phi & Hhi & Hmax).
    assert (Hall : forall z, 0 <= z < n -> P z -> lo <= z <= hi).
    { intros z Hz Pz. split.
      - destruct (Z.lt_ge_cases z lo); [|done].
        exfalso. apply (Hmin z); [lia | done].
      - destruct (Z.lt_ge_cases hi z); [|lia].
        exfalso. apply (Hmax z); [lia | done]. }
    pose proof (Hall lo Hlo Plo).
    repeat split; try assumption; try lia; by apply Hall.
  - intros (Plo & Phi & Hlo & Hhi & Hall).
    destruct (filter_seqZ_nonempty n lo ltac:(lia) Plo)
      as (lo' & hi' & Hh & Hl).
    pose proof (head_filter_seqZ _ _ Hh) as (Plo' & Hlo' & Hmin).
    pose proof (last_filter_seqZ _ _ Hl) as (Phi' & Hhi' & Hmax).
    pose proof (Hall lo' Hlo' Plo'). pose proof (Hall hi' Hhi' Phi').
    assert (lo' = lo).
    { destruct (Z.lt_ge_cases lo lo'); [|lia].
      exfalso. apply (Hmin lo); [lia | done]. }
    assert (hi' = hi).
    { destruct (Z.lt_ge_cases hi' hi); [|lia].
      exfalso. apply (Hmax hi); [lia | done]. }
    subst. by split.
Qed.

End Extent.

Lemma column_has_data_spec (band : Raster N) (x : Z) :
  column_has_data band x = true <->
  exists y, 0 <= y < height band /\ raster_get 0%N band x y <> 0%N.
Proof.
  unfold column_has_data. rewrite existsb_exists. split.
  - intros (y & Hin & Hy). exists y.
    apply list_elem_of_In, elem_of_seqZ in Hin.
    apply negb_true_iff, N.eqb_neq in Hy. split; [clear -Hin; lia | done].
  - intros (y & Hy & Hne). exists y. split.
    + apply list_elem_of_In, elem_of_seqZ. clear -Hy. lia.
    + by apply negb_true_iff, N.eqb_neq.
Qed.

Lemma row_has_data_spec (band : Raster N) (y : Z) :
  row_has_data band y = true <->
  exists x, 0 <= x < width band /\ raster_get 0%N band x y <> 0%N.
Proof.
  unfold row_has_data. rewrite existsb_exists. split.
  - intros (x & Hin & Hx). exists x.
    apply list_elem_of_In, elem_of_seqZ in Hin.
    apply negb_true_iff, N.eqb_neq in Hx. split; [clear -Hin; lia | done].
  - intros (x & Hx & Hne). exists x. split.
    + apply list_elem_of_In, elem_of_seqZ. clear -Hx. lia.
    + by apply negb_true_iff, N.eqb_neq.
Qed.

(** [getbbox] returns a box exactly when its columns and its rows are the
    extent of the columns and of the rows that hold a non-zero sample. *)
Lemma getbbox_Some (band : Raster N) (x0 y0 x1 y1 : Z) :
  getbbox band = Some (x0, y0, x1, y1) <->
  extent (fun x => column_has_data band x = true) (width band) x0 (x1 - 1) /\
  extent (fun y => row_has_data band y = true) (height band) y0 (y1 - 1).
Proof.
  unfold getbbox. split.
  - intros H.
    destruct (head (filter _ (seqZ 0 (width band)))) as [a|] eqn:Ha; [|done].
    destruct (last (filter _ (seqZ 0 (width band)))) as [b|] eqn:Hb; [|done].
    destruct (head (filter _ (seqZ 0 (height band)))) as [c|] eqn:Hc; [|done].
    destruct (last (filter _ (seqZ 0 (height band)))) as [d|] eqn:Hd; [|done].
    injection H as -> -> <- <-.
    replace (b + 1 - 1) with b by lia. replace (d + 1 - 1) with d by lia.
    split; eapply filter_seqZ_extent; split; eassumption.
  - intros [Hx Hy].
    eapply filter_seqZ_extent in Hx as [-> ->].
    eapply filter_seqZ_extent in Hy as [-> ->].
    do 3 f_equal; lia.
Qed.

Lemma getbbox_None (band : Raster N) :
  getbbox band = None <->
  forall x y, 0 <= x < width band -> 0 <= y < height band ->
    raster_get 0%N band x y = 0%N.
Proof.
  split.
  - intros H x y Hx Hy.
    destruct (N.eq_dec (raster_get 0%N band x y) 0%N) as [|Hne]; [done|].
    exfalso.
    assert (Hc : column_has_data band x = true)
      by (apply column_has_data_spec; eauto).
    assert (Hr : row_has_data band y = true)
      by (apply row_has_data_spec; eauto).
    destruct (filter_seqZ_nonempty
                (fun x => column_has_data band x = true) _ x Hx Hc)
      as (a & b & Ha & Hb).
    destruct (filter_seqZ_nonempty
                (fun y => row_has_data band y = true) _ y Hy Hr)
      as (c & d & Hc' & Hd).
    unfold getbbox in H. rewrite Ha, Hb, Hc', Hd in H. discriminate.
  - intros H. unfold getbbox.
    destruct (head (filter _ (seqZ 0 (width band)))) as [a|] eqn:Ha; [|done].
    exfalso. apply head_filter_seqZ in Ha as (Hc & Hx & _).
    apply column_has_data_spec in Hc as (y & Hy & Hne).
    by apply Hne, H.
Qed.

Lemma getbbox_inside (band : Raster N) (x0 y0 x1 y1 : Z) :
  getbbox band = Some (x0, y0, x1, y1) ->
  0 <= x0 < x1 /\ x1 <= width band /\ 0 <= y0 < y1 /\ y1 <= height band.
Proof.
  intros H. apply getbbox_Some in H as [(_ & _ & ? & ? & _) (_ & _ & ? & ? & _)].
  lia.
Qed.

(** ** crop_to_content *)

Lemma coerced_size (image : Image) : size (coerced image) = size image.
Proof. unfold coerced. by case_bool_decide. Qed.

Lemma coerced_wf (image : Image) : image_wf image -> image_wf (coerced image).
Proof.
  intros Hwf. unfold coerced. case_bool_decide; [|done].
  by apply raster_map_wf.
Qed.

Lemma coerced_RGBA (image : Image) : mode image = RGBA -> coerced image = image.
Proof.
  intros Hm. unfold coerced. rewrite bool_decide_eq_false_2; [done|].
  intros Hne. by apply Hne.
Qed.

Lemma coerced_opacity (image : Image) (x y : Z) :
  image_wf image ->
  0 <= x < width (pixels image) -> 0 <= y < height (pixels image) ->
  raster_get 0%N (alpha_band (coerced image)) x y = opacity image x y.
Proof.
  intros Hwf Hx Hy. unfold alpha_band, opacity.
  pose proof (coerced_size image) as Hs. unfold size in Hs.
  injection Hs as Hw Hh.
  rewrite (raster_get_map transparent_black) by
    (try apply coerced_wf; try done; lia).
  f_equal. by apply coerced_getpixel.
Qed.

Lemma content_bbox_eq (image : Image) (padding : Z) :
  content_bbox image padding
    = Ok (coerced image,
          add_padding (coerced image) padding
            <$> getbbox (alpha_band (coerced image))).
Proof.
  unfold content_bbox. fold (coerced image).
  unfold split. rewrite coerced_mode. simpl.
  fold (alpha_band (coerced image)).
  by destruct (getbbox (alpha_band (coerced image))).
Qed.

Lemma crop_full (image : Image) :
  image_wf image ->
  crop image (0, 0, width (pixels image), height (pixels image)) = Ok image.
Proof.
  intros Hwf. pose proof Hwf as (Hw & Hh & _).
  unfold crop, raster_crop.
  destruct (Z.ltb_spec (width (pixels image)) 0); [lia|].
  destruct (Z.ltb_spec (height (pixels image)) 0); [lia|].
  simpl. rewrite !Z.sub_0_r.
  rewrite (raster_make_ext _ _ _ (raster_get transparent_black (pixels image))).
  - rewrite raster_make_get by done. by destruct image.
  - intros x y _ _. by rewrite !Z.add_0_r.
Qed.

Lemma crop_Ok (image : Image) (x0 y0 x1 y1 : Z) :
  x0 <= x1 -> y0 <= y1 ->
  crop image (x0, y0, x1, y1)
    = Ok (mkImage (mode image)
            (raster_make (x1 - x0) (y1 - y0)
               (fun x y => getpixel image (x + x0) (y + y0)))).
Proof.
  intros Hx Hy. unfold crop, raster_crop.
  destruct (Z.ltb_spec x1 x0); [lia|]. destruct (Z.ltb_spec y1 y0); [lia|].
  reflexivity.
Qed.

Lemma crop_to_content_eq (image : Image) (padding : Z) :
  crop_to_content image padding =
    match getbbox (alpha_band (coerced image)) with
    | None => Ok (coerced image, ["  Warning: Image is fully transparent"])
    | Some bbox =>
        cropped ← crop (coerced image)
                     (add_padding (coerced image) padding bbox);
        Ok (cropped, [])
    end.
Proof.
  unfold crop_to_content. rewrite content_bbox_eq.
  by destruct (getbbox (alpha_band (coerced image))).
Qed.

Lemma add_padding_zero (image : Image) (bbox : Box) :
  add_padding image 0 bbox = bbox.
Proof. reflexivity. Qed.

Lemma add_padding_inside (image : Image) (padding x0 y0 x1 y1 : Z) :
  0 <= padding ->
  0 <= x0 < x1 -> x1 <= width (pixels image) ->
  0 <= y0 < y1 -> y1 <= height (pixels image) ->
  exists a b c d,
    add_padding image padding (x0, y0, x1, y1) = (a, b, c, d) /\
    0 <= a < c /\ c <= width (pixels image) /\
    0 <= b < d /\ d <= height (pixels image).
Proof.
  intros Hp Hx0 Hx1 Hy0 Hy1. unfold add_padding, size.
  destruct (Z.ltb_spec 0 padding).
  - do 4 eexists. split; [reflexivity|]. lia.
  - do 4 eexists. split; [reflexivity|]. lia.
Qed.

(** An image with a pixel of non-zero alpha has a bounding box. *)
Lemma getbbox_opaque (image : Image) (x y : Z) :
  image_wf image ->
  0 <= x < width (pixels image) -> 0 <= y < height (pixels image) ->
  (0 < opacity image x y)%N ->
  exists x0 y0 x1 y1,
    getbbox (alpha_band (coerced image)) = Some (x0, y0, x1, y1).
Proof.
  intros Hwf Hx Hy Hop.
  destruct (getbbox (alpha_band (coerced image)))
    as [[[[x0 y0] x1] y1]|] eqn:E; [eauto|].
  exfalso. rewrite getbbox_None in E.
  pose proof (coerced_size image) as Hs. unfold size in Hs.
  injection Hs as Hw Hh.
  specialize (E x y). unfold alpha_band in E at 1 2. simpl in E.
  rewrite Hw, Hh in E. specialize (E Hx Hy).
  rewrite coerced_opacity in E by done.
  rewrite E in Hop. by apply N.lt_irrefl in Hop.
Qed.

(** C5.  For an image with a pixel of alpha above zero and a padding of
    zero or more, the box [crop_to_content] crops to lies within
    [0, width] x [0, height] of the image, and the crop to it succeeds. *)
Theorem crop_to_content_box_inside (image : Image) (padding x y : Z) :
  image_wf image ->
  0 <= padding ->
  0 <= x < width (pixels image) -> 0 <= y < height (pixels image) ->
  (0 < opacity image x y)%N ->
  exists img x0 y0 x1 y1 cropped,
    content_bbox image padding = Ok (img, Some (x0, y0, x1, y1)) /\
    size img = size image /\
    0 <= x0 <= x1 /\ x1 <= width (pixels image) /\
    0 <= y0 <= y1 /\ y1 <= height (pixels image) /\
    crop_to_content image padding = Ok (cropped, []) /\
    size cropped = (x1 - x0, y1 - y0).
Proof.
  intros Hwf Hp Hx Hy Hop.
  destruct (getbbox_opaque image x y Hwf Hx Hy Hop) as (a & b & c & d & E).
  pose proof (getbbox_inside _ _ _ _ _ E) as (Ha & Hc & Hb & Hd).
  pose proof (coerced_size image) as Hs. unfold size in Hs.
  injection Hs as Hw Hh.
  unfold alpha_band in Hc, Hd; simpl in Hc, Hd.
  destruct (add_padding_inside (coerced image) padding a b c d)
    as (x0 & y0 & x1 & y1 & Ep & Hx0 & Hx1 & Hy0 & Hy1); try done.
  exists (coerced image), x0, y0, x1, y1. eexists.
  split; [rewrite content_bbox_eq, E; simpl; by rewrite Ep|].
  split; [apply coerced_size|].
  rewrite crop_to_content_eq, E, Ep, crop_Ok by lia.
  repeat split; lia.
Qed.

(** C7, as amended.  For an image without any pixel of alpha above zero
    [crop_to_content] raises nothing, prints the warning and returns the
    image it works on, which is its argument converted to RGBA and not
    always the argument itself: an image of mode RGBA and of the same size,
    each pixel of which is the conversion to RGBA of the input's pixel at
    the same place.  Only when the input is already RGBA is the image
    returned the input, unchanged. *)
Theorem crop_to_content_fully_transparent (image : Image) (padding : Z) :
  image_wf image ->
  (forall x y,
     0 <= x < width (pixels image) -> 0 <= y < height (pixels image) ->
     opacity image x y = 0%N) ->
  exists img,
    crop_to_content image padding
      = Ok (img, ["  Warning: Image is fully transparent"]) /\
    mode img = RGBA /\
    size img = size image /\
    (forall x y,
       0 <= x < width (pixels image) -> 0 <= y < height (pixels image) ->
       getpixel img x y = to_rgba (mode image) (getpixel image x y)) /\
    (mode image = RGBA -> img = image).
Proof.
  intros Hwf Hall.
  assert (E : getbbox (alpha_band (coerced image)) = None).
  { apply getbbox_None. intros x y Hx Hy.
    pose proof (coerced_size image) as Hs. unfold size in Hs.
    injection Hs as Hw Hh.
    unfold alpha_band in Hx, Hy; simpl in Hx, Hy.
    rewrite coerced_opacity by (try done; lia). apply Hall; lia. }
  exists (coerced image). rewrite crop_to_content_eq, E.
  split; [reflexivity|]. split; [apply coerced_mode|].
  split; [apply coerced_size|].
  split; [|apply coerced_RGBA].
  intros x y Hx Hy. by apply coerced_getpixel.
Qed.

(** C6.  Cropping an image that has a pixel of alpha above zero to its
    content with padding 0 gives an image whose content box is its full
    extent, so cropping it to its content again returns it unchanged. *)
Theorem crop_to_content_idempotent (image : Image) (x y : Z) :
  image_wf image ->
  0 <= x < width (pixels image) -> 0 <= y < height (pixels image) ->
  (0 < opacity image x y)%N ->
  exists cropped,
    crop_to_content image 0 = Ok (cropped, []) /\
    content_bbox cropped 0
      = Ok (cropped,
            Some (0, 0, width (pixels cropped), height (pixels cropped))) /\
    crop_to_content cropped 0 = Ok (cropped, []).
Proof.
  intros Hwf Hx Hy Hop.
  destruct (getbbox_opaque image x y Hwf Hx Hy Hop)
    as (x0 & y0 & x1 & y1 & E).
  pose proof (getbbox_inside _ _ _ _ _ E) as (Hx0 & Hx1 & Hy0 & Hy1).
  pose proof (coerced_wf image Hwf) as Hcwf.
  set (img := coerced image) in *.
  assert (Hband : forall u v,
            0 <= u < width (pixels img) -> 0 <= v < height (pixels img) ->
            raster_get 0%N (alpha_band img) u v = alpha (getpixel img u v)).
  { intros u v Hu Hv. unfold alpha_band.
    by rewrite (raster_get_map transparent_black). }
  unfold alpha_band in Hx1, Hy1; simpl in Hx1, Hy1.
  set (f := fun u v => getpixel img (u + x0) (v + y0)).
  set (cropped := mkImage RGBA (raster_make (x1 - x0) (y1 - y0) f)).
  assert (E1 : crop_to_content image 0 = Ok (cropped, [])).
  { rewrite crop_to_content_eq. fold img. rewrite E, add_padding_zero.
    rewrite crop_Ok by lia. simpl.
    subst cropped img. by rewrite coerced_mode. }
  assert (Hwfc : image_wf cropped) by (apply raster_make_wf; lia).
  assert (Hb' : forall u v, 0 <= u < x1 - x0 -> 0 <= v < y1 - y0 ->
            raster_get 0%N (alpha_band cropped) u v
              = raster_get 0%N (alpha_band img) (u + x0) (v + y0)).
  { intros u v Hu Hv. rewrite Hband by lia.
    unfold alpha_band, cropped; simpl.
    rewrite raster_map_make. by rewrite raster_get_make. }
  apply getbbox_Some in E as [Ecol Erow].
  destruct Ecol as (Cl & Ch & _ & _ & Call).
  destruct Erow as (Rl & Rh & _ & _ & Rall).
  assert (Hrow_in : forall u v,
            0 <= u < width (pixels img) -> 0 <= v < height (pixels img) ->
            raster_get 0%N (alpha_band img) u v <> 0%N ->
            x0 <= u < x1 /\ y0 <= v < y1).
  { intros u v Hu Hv Hne.
    assert (x0 <= u <= x1 - 1).
    { apply Call; [done|]. apply column_has_data_spec. eauto. }
    assert (y0 <= v <= y1 - 1).
    { apply Rall; [done|]. apply row_has_data_spec. eauto. }
    lia. }
  assert (Ecrop : getbbox (alpha_band cropped)
                  = Some (0, 0, x1 - x0, y1 - y0)).
  { apply getbbox_Some. unfold alpha_band at 2 4; simpl.
    split.
    - repeat split; try lia.
      + apply column_has_data_spec in Cl as (v & Hv & Hne).
        simpl in Hv.
        destruct (Hrow_in x0 v ltac:(lia) Hv Hne) as [_ Hvr].
        apply column_has_data_spec. exists (v - y0). split; [simpl; lia|].
        rewrite Hb' by lia. by replace (v - y0 + y0) with v by lia.
      + apply column_has_data_spec in Ch as (v & Hv & Hne).
        simpl in Hv.
        destruct (Hrow_in (x1 - 1) v ltac:(lia) Hv Hne) as [_ Hvr].
        apply column_has_data_spec. exists (v - y0). split; [simpl; lia|].
        rewrite Hb' by lia.
        replace (v - y0 + y0) with v by lia.
        by replace (x1 - x0 - 1 + x0) with (x1 - 1) by lia.
    - repeat split; try lia.
      + apply row_has_data_spec in Rl as (u & Hu & Hne).
        simpl in Hu.
        destruct (Hrow_in u y0 Hu ltac:(lia) Hne) as [Hur _].
        apply row_has_data_spec. exists (u - x0). split; [simpl; lia|].
        rewrite Hb' by lia. by replace (u - x0 + x0) with u by lia.
      + apply row_has_data_spec in Rh as (u & Hu & Hne).
        simpl in Hu.
        destruct (Hrow_in u (y1 - 1) Hu ltac:(lia) Hne) as [Hur _].
        apply row_has_data_spec. exists (u - x0). split; [simpl; lia|].
        rewrite Hb' by lia.
        replace (u - x0 + x0) with u by lia.
        by replace (y1 - y0 - 1 + y0) with (y1 - 1) by lia. }
  assert (Hcc : coerced cropped = cropped) by (by apply coerced_RGBA).
  exists cropped. split; [exact E1|]. split.
  - rewrite content_bbox_eq, Hcc, Ecrop. reflexivity.
  - rewrite crop_to_content_eq, Hcc, Ecrop, add_padding_zero.
    change (x1 - x0) with (width (pixels cropped)).
    change (y1 - y0) with (height (pixels cropped)).
    by rewrite crop_full.
Qed.

Lemma sample_cutout_wf : image_wf sample_cutout.
Proof.
  unfold image_wf, raster_wf; simpl.
  repeat split; try lia. repeat constructor.
Qed.

Lemma sample_transparent_wf : image_wf sample_transparent.
Proof.
  unfold image_wf, raster_wf; simpl.
  repeat split; try lia. repeat constructor.
Qed.

Lemma sample_transparent_opacity (x y : Z) :
  0 <= x < width (pixels sample_transparent) ->
  0 <= y < height (pixels sample_transparent) ->
  opacity sample_transparent x y = 0%N.
Proof.
  simpl. intros Hx Hy.
  assert (Hx' : x = 0 \/ x = 1) by lia.
  assert (Hy' : y = 0 \/ y = 1) by lia.
  destruct Hx' as [-> | ->], Hy' as [-> | ->]; reflexivity.
Qed.

Lemma crop_to_content_box_inside_witness :
  image_wf sample_cutout /\
  0 <= 1 /\
  0 <= 1 < width (pixels sample_cutout) /\
  0 <= 1 < height (pixels sample_cutout) /\
  (0 < opacity sample_cutout 1 1)%N /\
  exists img x0 y0 x1 y1 cropped,
    content_bbox sample_cutout 1 = Ok (img, Some (x0, y0, x1, y1)) /\
    size img = size sample_cutout /\
    0 <= x0 <= x1 /\ x1 <= width (pixels sample_cutout) /\
    0 <= y0 <= y1 /\ y1 <= height (pixels sample_cutout) /\
    crop_to_content sample_cutout 1 = Ok (cropped, []) /\
    size cropped = (x1 - x0, y1 - y0).
Proof.
  assert (Hp : 0 <= 1) by lia.
  assert (Hx : 0 <= 1 < width (pixels sample_cutout)) by (simpl; lia).
  assert (Hy : 0 <= 1 < height (pixels sample_cutout)) by (simpl; lia).
  assert (Ho : (0 < opacity sample_cutout 1 1)%N) by reflexivity.
  split; [exact sample_cutout_wf|]. split; [exact Hp|].
  split; [exact Hx|]. split; [exact Hy|]. split; [exact Ho|].
  exact (crop_to_content_box_inside sample_cutout 1 1 1
           sample_cutout_wf Hp Hx Hy Ho).
Defined.

Lemma crop_to_content_idempotent_witness :
  image_wf sample_cutout /\
  0 <= 1 < width (pixels sample_cutout) /\
  0 <= 1 < height (pixels sample_cutout) /\
  (0 < opacity sample_cutout 1 1)%N /\
  exists cropped,
    crop_to_content sample_cutout 0 = Ok (cropped, []) /\
    content_bbox cropped 0
      = Ok (cropped,
            Some (0, 0, width (pixels cropped), height (pixels cropped))) /\
    crop_to_content cropped 0 = Ok (cropped, []).
Proof.
  assert (Hx : 0 <= 1 < width (pixels sample_cutout)) by (simpl; lia).
  assert (Hy : 0 <= 1 < height (pixels sample_cutout)) by (simpl; lia).
  assert (Ho : (0 < opacity sample_cutout 1 1)%N) by reflexivity.
  split; [exact sample_cutout_wf|].
  split; [exact Hx|]. split; [exact Hy|]. split; [exact Ho|].
  exact (crop_to_content_idempotent sample_cutout 1 1
           sample_cutout_wf Hx Hy Ho).
Defined.

Lemma crop_to_content_fully_transparent_witness :
  image_wf sample_transparent /\
  (forall x y,
     0 <= x < width (pixels sample_transparent) ->
     0 <= y < height (pixels sample_transparent) ->
     opacity sample_transparent x y = 0%N) /\
  exists img,
    crop_to_content sample_transparent 3
      = Ok (img, ["  Warning: Image is fully transparent"]) /\
    mode img = RGBA /\
    size img = size sample_transparent /\
    (forall x y,
       0 <= x < width (pixels sample_transparent) ->
       0 <= y < height (pixels sample_transparent) ->
       getpixel img x y
         = to_rgba (mode sample_transparent)
             (getpixel sample_transparent x y)) /\
    (mode sample_transparent = RGBA -> img = sample_transparent).
Proof.
  split; [exact sample_transparent_wf|].
  split; [exact sample_transparent_opacity|].
  exact (crop_to_content_fully_transparent sample_transparent 3
           sample_transparent_wf sample_transparent_opacity).
Defined.

(** C7, the counterexample.  A fully transparent image of mode LA is not
    returned unchanged: [crop_to_content] warns and returns its conversion
    to RGBA, an image of another mode whose pixels have the grey level in
    each of the three colour channels. *)
Lemma crop_to_content_fully_transparent_converts :
  image_wf sample_transparent /\
  (forall x y,
     0 <= x < width (pixels sample_transparent) ->
     0 <= y < height (pixels sample_transparent) ->
     opacity sample_transparent x y = 0%N) /\
  exists img,
    crop_to_content sample_transparent 3
      = Ok (img, ["  Warning: Image is fully transparent"]) /\
    img <> sample_transparent /\
    mode sample_transparent = LA /\ mode img = RGBA /\
    getpixel sample_transparent 0 0 = mkPixel 7 0 0 0 /\
    getpixel img 0 0 = mkPixel 7 7 7 0.
Proof.
  split; [exact sample_transparent_wf|].
  split; [exact sample_transparent_opacity|].
  exists (convert_RGBA sample_transparent).
  split; [reflexivity|]. split; [discriminate|].
  repeat split; reflexivity.
Qed.

(** ** Binary64 arithmetic *)

Lemma digits2_pos_size (p : positive) : digits2_pos p = Pos.size p.
Proof. induction p; simpl; congruence. Qed.

Lemma Zdigits2_log2 (p : positive) :
  Zdigits2 (Zpos p) = Z.succ (Z.log2 (Zpos p)).
Proof.
  simpl. rewrite digits2_pos_size. destruct p; simpl; try reflexivity.
  - by rewrite Pos2Z.inj_succ.
  - by rewrite Pos2Z.inj_succ.
Qed.

Lemma Zdigits2_bounds (z : Z) :
  0 < z -> 2 ^ (Zdigits2 z - 1) <= z < 2 ^ Zdigits2 z.
Proof.
  intros Hz. destruct z as [|p|p]; try lia.
  rewrite Zdigits2_log2.
  replace (Z.succ (Z.log2 (Z.pos p)) - 1) with (Z.log2 (Z.pos p)) by lia.
  apply Z.log2_spec. lia.
Qed.

Lemma Zdigits2_unique (z d : Z) :
  2 ^ (d - 1) <= z < 2 ^ d -> 0 < z -> Zdigits2 z = d.
Proof.
  intros Hd Hz. destruct z as [|p|p]; try lia.
  rewrite Zdigits2_log2.
  assert (0 < d).
  { destruct (Z.lt_ge_cases 0 d); [done|].
    assert (2 ^ d <= 2 ^ 0) by (apply Z.pow_le_mono_r; lia). 
    change (2 ^ 0) with 1 in *. lia. }
  rewrite (Z.log2_unique (Z.pos p) (d - 1)); [lia|lia|].
  replace (Z.succ (d - 1)) with d by lia. done.
Qed.

Lemma shr_1_m (mrs : shr_record) :
  0 <= shr_m mrs -> shr_m (shr_1 mrs) = shr_m mrs / 2.
Proof.
  destruct mrs as [m r s]; simpl. intros Hm.
  destruct m as [|p|p]; try lia; [reflexivity|].
  destruct p; simpl.
  - rewrite Pos2Z.inj_xI. apply Z.div_unique with 1; lia.
  - rewrite Pos2Z.inj_xO. apply Z.div_unique with 0; lia.
  - reflexivity.
Qed.

Lemma pow2_xO (p : positive) : 2 ^ Zpos p~0 = 2 ^ Zpos p * 2 ^ Zpos p.
Proof.
  replace (Zpos p~0) with (Zpos p + Zpos p) by lia.
  apply Z.pow_add_r; lia.
Qed.

Lemma pow2_xI (p : positive) : 2 ^ Zpos p~1 = 2 * (2 ^ Zpos p * 2 ^ Zpos p).
Proof.
  replace (Zpos p~1) with (1 + (Zpos p + Zpos p)) by lia.
  rewrite !Z.pow_add_r by lia. reflexivity.
Qed.

Lemma iter_shr_1_m (p : positive) (mrs : shr_record) :
  0 <= shr_m mrs ->
  shr_m (SpecFloat.iter_pos shr_1 p mrs) = shr_m mrs / 2 ^ Zpos p.
Proof.
  revert mrs. induction p as [p IH|p IH|]; intros mrs Hm; simpl SpecFloat.iter_pos.
  - assert (H1 : 0 <= shr_m (shr_1 mrs)).
    { rewrite shr_1_m by done. apply Z.div_pos; lia. }
    assert (H2 : 0 <= shr_m (SpecFloat.iter_pos shr_1 p (shr_1 mrs))).
    { rewrite IH by done. apply Z.div_pos; lia. }
    rewrite IH, IH, shr_1_m by done.
    rewrite !Z.div_div by lia. by rewrite pow2_xI.
  - assert (H2 : 0 <= shr_m (SpecFloat.iter_pos shr_1 p mrs)).
    { rewrite IH by done. apply Z.div_pos; lia. }
    rewrite IH, IH by done.
    rewrite !Z.div_div by lia. by rewrite pow2_xO.
  - rewrite shr_1_m by done. reflexivity.
Qed.

Lemma shr_spec (mrs : shr_record) (e n : Z) :
  0 <= shr_m mrs -> 0 <= n ->
  shr_m (fst (shr mrs e n)) = shr_m mrs / 2 ^ n /\ snd (shr mrs e n) = e + n.
Proof.
  intros Hm Hn. unfold shr. destruct n as [|p|p]; try lia; simpl fst; simpl snd.
  - change (2 ^ 0) with 1. rewrite Z.div_1_r. lia.
  - split; [by apply iter_shr_1_m | reflexivity].
Qed.

Lemma shr_m_of_loc (m : Z) (l : location) : shr_m (shr_record_of_loc m l) = m.
Proof. by destruct l as [|[]]. Qed.

Lemma fexp_normal (e : Z) : -1074 <= e - 53 -> fexp prec emax e = e - 53.
Proof. intros H. unfold fexp, emin, prec, emax. lia. Qed.

Lemma shr_fexp_spec (m e : Z) (l : location) :
  0 < m -> 53 <= Zdigits2 m -> -1074 <= Zdigits2 m + e - 53 ->
  shr_m (fst (shr_fexp prec emax m e l)) = m / 2 ^ (Zdigits2 m - 53) /\
  snd (shr_fexp prec emax m e l) = e + (Zdigits2 m - 53).
Proof.
  intros Hm Hd He. unfold shr_fexp. rewrite fexp_normal by lia.
  replace (Zdigits2 m + e - 53 - e) with (Zdigits2 m - 53) by lia.
  rewrite <- (shr_m_of_loc m l) at 3.
  apply shr_spec; [rewrite shr_m_of_loc; lia | lia].
Qed.

Lemma round_nearest_even_cases (m : Z) (l : location) :
  round_nearest_even m l = m \/ round_nearest_even m l = m + 1.
Proof.
  unfold round_nearest_even. destruct l as [|[]]; auto.
  destruct (Z.even m); auto.
Qed.

Lemma div_pow2_digits (m d : Z) :
  0 < m -> Zdigits2 m = d -> 53 <= d ->
  2 ^ 52 <= m / 2 ^ (d - 53) < 2 ^ 53.
Proof.
  intros Hm Hd H53. pose proof (Zdigits2_bounds m Hm) as [Hlo Hhi].
  rewrite Hd in Hlo, Hhi.
  assert (Hp : 0 < 2 ^ (d - 53)) by (apply Z.pow_pos_nonneg; lia).
  split.
  - apply Z.div_le_lower_bound; [done|].
    rewrite <- Z.pow_add_r by lia. by replace (d - 53 + 52) with (d - 1) by lia.
  - apply Z.div_lt_upper_bound; [done|].
    rewrite <- Z.pow_add_r by lia. by replace (d - 53 + 53) with d by lia.
Qed.

(** Rounding a positive mantissa of at least 53 digits, away from the ends
    of the exponent range. *)
Lemma binary_round_aux_cases (mx ex : Z) (lx : location) :
  0 < mx -> 53 <= Zdigits2 mx ->
  -1074 <= Zdigits2 mx + ex - 53 -> Zdigits2 mx + ex <= 1023 ->
  let n := Zdigits2 mx - 53 in
  let M := mx / 2 ^ n in
  exists m e,
    binary_round_aux prec emax false mx ex lx = S754_finite false m e /\
    2 ^ 52 <= Zpos m < 2 ^ 53 /\
    ((Zpos m = M /\ e = ex + n) \/
     (Zpos m = M + 1 /\ e = ex + n) \/
     (Zpos m = 2 ^ 52 /\ M + 1 = 2 ^ 53 /\ e = ex + n + 1)).
Proof.
  intros Hmx Hd Hlo Hhi n M.
  pose proof (div_pow2_digits mx _ Hmx eq_refl Hd) as HM. fold n M in HM.
  unfold binary_round_aux.
  pose proof (shr_fexp_spec mx ex lx Hmx Hd Hlo) as [H1 H2].
  destruct (shr_fexp prec emax mx ex lx) as [mrs' e'].
  simpl in H1, H2. fold n M in H1, H2. rewrite H1. subst e'.
  set (m1 := round_nearest_even M (loc_of_shr_record mrs')).
  assert (Hm1 : m1 = M \/ m1 = M + 1) by apply round_nearest_even_cases.
  assert (Hcase : m1 < 2 ^ 53 \/ m1 = 2 ^ 53) by lia.
  destruct Hcase as [Hlt | Heq].
  - assert (Hd1 : Zdigits2 m1 = 53) by (apply Zdigits2_unique; lia).
    pose proof (shr_fexp_spec m1 (ex + n) loc_Exact) as [H3 H4]; try lia.
    destruct (shr_fexp prec emax m1 (ex + n) loc_Exact) as [mrs'' e''].
    simpl in H3, H4. rewrite Hd1 in H3, H4.
    change (2 ^ (53 - 53)) with 1 in H3. rewrite Z.div_1_r in H3.
    rewrite H3. destruct m1 as [|p|p] eqn:E; try lia.
    assert (He : (e'' <=? emax - prec) = true).
    { apply Z.leb_le. unfold emax, prec. subst n. lia. }
    rewrite He. exists p, e''. split; [reflexivity|]. split; [lia|].
    subst e''. destruct Hm1; [left | right; left]; lia.
  - assert (Hd1 : Zdigits2 m1 = 54) by (apply Zdigits2_unique; lia).
    pose proof (shr_fexp_spec m1 (ex + n) loc_Exact) as [H3 H4]; try lia.
    destruct (shr_fexp prec emax m1 (ex + n) loc_Exact) as [mrs'' e''].
    simpl in H3, H4. rewrite Hd1 in H3, H4.
    change (2 ^ (54 - 53)) with 2 in H3.
    rewrite H3, Heq. change (2 ^ 53 / 2) with (Zpos (Z.to_pos (2 ^ 52))).
    assert (He : (e'' <=? emax - prec) = true).
    { apply Z.leb_le. unfold emax, prec. subst n. lia. }
    rewrite He. eexists _, e''. split; [reflexivity|].
    split; [done|]. right; right. subst e''. lia.
Qed.

(** *** Real values *)

Lemma bpow_pos (e : Z) : (0 < bpow e)%R.
Proof. apply powerRZ_lt. lra. Qed.

Lemma bpow_add (a b : Z) : bpow (a + b) = (bpow a * bpow b)%R.
Proof. apply powerRZ_add. lra. Qed.

Lemma bpow_IZR (n : Z) : 0 <= n -> bpow n = IZR (2 ^ n).
Proof.
  intros Hn. unfold bpow. rewrite <- (Z2Nat.id n Hn) at 1 2.
  rewrite <- pow_powerRZ. by rewrite pow_IZR.
Qed.

Lemma bpow_le (a b : Z) : a <= b -> (bpow a <= bpow b)%R.
Proof.
  intros H. replace b with (a + (b - a)) by lia. rewrite bpow_add.
  rewrite (bpow_IZR (b - a)) by lia.
  assert (1 <= 2 ^ (b - a)) by (apply (Z.pow_le_mono_r 2 0); lia).
  pose proof (bpow_pos a). apply IZR_le in H0.
  nra.
Qed.

(** A value between two neighbours [M * 2^E] and [(M + 1) * 2^E] with at
    least 53 significant digits is close to both. *)
Lemma neighbours_close (M E : Z) (x v : R) :
  2 ^ 52 <= M ->
  (IZR M * bpow E <= x <= (IZR M + 1) * bpow E)%R ->
  v = (IZR M * bpow E)%R \/ v = ((IZR M + 1) * bpow E)%R ->
  close x v.
Proof.
  intros HM Hx Hv. unfold close.
  pose proof (bpow_pos E) as Ht.
  apply IZR_le in HM. rewrite <- bpow_IZR in HM by lia.
  assert (Hu : (bpow 52 * bpow (-52) = 1)%R).
  { rewrite <- bpow_add. reflexivity. }
  pose proof (bpow_pos (-52)) as Hu'. pose proof (bpow_pos 52) as Hu''.
  assert (Hulp : (bpow E <= x * bpow (-52))%R).
  { assert (bpow 52 * bpow E <= x)%R by nra.
    assert (bpow 52 * bpow E * bpow (-52) <= x * bpow (-52))%R by nra.
    nra. }
  destruct Hv as [-> | ->]; lra.
Qed.

Lemma binary_round_aux_close (mx ex : Z) (lx : location) (x : R) :
  0 < mx -> 53 <= Zdigits2 mx ->
  -1074 <= Zdigits2 mx + ex - 53 -> Zdigits2 mx + ex <= 1023 ->
  (IZR mx * bpow ex <= x <= (IZR mx + 1) * bpow ex)%R ->
  exists m e,
    binary_round_aux prec emax false mx ex lx = S754_finite false m e /\
    2 ^ 52 <= Zpos m < 2 ^ 53 /\
    Zdigits2 mx + ex - 53 <= e <= Zdigits2 mx + ex - 52 /\
    close x (IZR (Zpos m) * bpow e).
Proof.
  intros Hmx Hd Hlo Hhi Hx.
  destruct (binary_round_aux_cases mx ex lx Hmx Hd Hlo Hhi)
    as (m & e & E & Hm & Hcases).
  set (n := Zdigits2 mx - 53) in *. set (M := mx / 2 ^ n) in *.
  exists m, e. split; [exact E|]. split; [exact Hm|].
  split; [lia|].
  pose proof (div_pow2_digits mx _ Hmx eq_refl Hd) as HM. fold n M in HM.
  assert (Hp : 0 < 2 ^ n) by (apply Z.pow_pos_nonneg; lia).
  assert (Hdiv : M * 2 ^ n <= mx < (M + 1) * 2 ^ n).
  { pose proof (Z.div_mod mx (2 ^ n) ltac:(lia)).
    pose proof (Z.mod_pos_bound mx (2 ^ n) Hp). fold M in H. lia. }
  assert (HxM : (IZR M * bpow (ex + n) <= x <= (IZR M + 1) * bpow (ex + n))%R).
  { rewrite (Z.add_comm ex n), bpow_add, (bpow_IZR n) by lia.
    destruct Hdiv as [Hd1 Hd2].
    apply IZR_le in Hd1. assert (Hd3 : mx + 1 <= (M + 1) * 2 ^ n) by lia.
    apply IZR_le in Hd3.
    rewrite mult_IZR in Hd1. rewrite mult_IZR, !plus_IZR in Hd3.
    pose proof (bpow_pos ex). split; nra. }
  apply (neighbours_close M (ex + n)); [lia | exact HxM |].
  destruct Hcases as [[-> ->] | [[-> ->] | (-> & HM1 & ->)]].
  - by left.
  - right. by rewrite plus_IZR.
  - right. replace (ex + n + 1) with (1 + (ex + n)) by lia.
    rewrite bpow_add. replace (IZR M + 1)%R with (IZR (M + 1)) by apply plus_IZR.
    rewrite HM1. replace (bpow 1) with 2%R by (unfold bpow; simpl; lra).
    replace (2 ^ 53) with (2 ^ 52 * 2) by reflexivity.
    rewrite mult_IZR. lra.
Qed.

Lemma Zdigits2_between (z lo hi : Z) :
  0 <= lo -> 2 ^ lo <= z < 2 ^ hi -> lo < Zdigits2 z <= hi.
Proof.
  intros Hlo [H1 H2].
  assert (Hz : 0 < z) by (pose proof (Z.pow_pos_nonneg 2 lo); lia).
  pose proof (Zdigits2_bounds z Hz) as [H3 H4].
  assert (Hd : 0 < Zdigits2 z) by (destruct z; simpl; lia).
  split.
  - apply (Z.pow_lt_mono_r_iff 2); lia.
  - assert (Zdigits2 z - 1 < hi); [|lia].
    apply (Z.pow_lt_mono_r_iff 2); try lia.
    destruct (Z.lt_ge_cases hi 0); [|done].
    rewrite Z.pow_neg_r in H2 by done. lia.
Qed.

(** The product of two positive normal numbers. *)
Lemma SFmul_close (m1 m2 : positive) (e1 e2 : Z) :
  2 ^ 52 <= Zpos m1 < 2 ^ 53 -> 2 ^ 52 <= Zpos m2 < 2 ^ 53 ->
  -1000 <= e1 + e2 <= 900 ->
  exists m e,
    SFmul prec emax (S754_finite false m1 e1) (S754_finite false m2 e2)
      = S754_finite false m e /\
    2 ^ 52 <= Zpos m < 2 ^ 53 /\
    e1 + e2 + 52 <= e <= e1 + e2 + 54 /\
    close (IZR (Zpos m1) * bpow e1 * (IZR (Zpos m2) * bpow e2))
          (IZR (Zpos m) * bpow e).
Proof.
  intros H1 H2 He. unfold SFmul. simpl xorb.
  assert (HP : 2 ^ 104 <= Zpos (m1 * m2) < 2 ^ 106).
  { rewrite Pos2Z.inj_mul.
    change (2 ^ 104) with (2 ^ 52 * 2 ^ 52).
    change (2 ^ 106) with (2 ^ 53 * 2 ^ 53). nia. }
  pose proof (Zdigits2_between _ 104 106 ltac:(lia) HP) as Hd.
  destruct (binary_round_aux_close (Zpos (m1 * m2)) (e1 + e2) loc_Exact
              (IZR (Zpos m1) * bpow e1 * (IZR (Zpos m2) * bpow e2)))
    as (m & e & Eq' & Hm & He' & Hc); try lia.
  - rewrite bpow_add, Pos2Z.inj_mul, mult_IZR.
    pose proof (bpow_pos e1). pose proof (bpow_pos e2).
    assert (0 < bpow e1 * bpow e2)%R by nra. split; nra.
  - exists m, e. split; [exact Eq'|]. split; [exact Hm|]. split; [lia | exact Hc].
Qed.

(** The quotient of two positive numbers whose mantissas need not be
    normalised. *)
Lemma SFdiv_close (m1 m2 : positive) (e1 e2 : Z) :
  let d1 := Zdigits2 (Zpos m1) in
  let d2 := Zdigits2 (Zpos m2) in
  let E := d1 + e1 - (d2 + e2) in
  d1 <= d2 + 53 -> -1000 <= E <= 1000 ->
  exists m e,
    SFdiv prec emax (S754_finite false m1 e1) (S754_finite false m2 e2)
      = S754_finite false m e /\
    2 ^ 52 <= Zpos m < 2 ^ 53 /\
    E - 53 <= e <= E - 51 /\
    close (IZR (Zpos m1) * bpow e1 / (IZR (Zpos m2) * bpow e2))
          (IZR (Zpos m) * bpow e).
Proof.
  intros d1 d2 E Hd HE. unfold SFdiv, SFdiv_core_binary. simpl xorb.
  fold d1 d2. fold E.
  rewrite fexp_normal by lia.
  replace (Z.min (E - 53) (e1 - e2)) with (E - 53) by lia.
  set (s := e1 - e2 - (E - 53)).
  assert (Hs : s = 53 - d1 + d2) by lia.
  assert (Hs0 : 0 <= s) by lia.
  set (m' := match s with
             | 0 => Z.pos m1
             | Z.pos _ => Z.shiftl (Z.pos m1) s
             | Z.neg _ => 0
             end).
  assert (Hm' : m' = Zpos m1 * 2 ^ s).
  { subst m'. destruct s as [|p|p] eqn:Es; try lia.
    by rewrite Z.shiftl_mul_pow2. }
  clearbody m'.
  pose proof (Z.div_eucl_eq m' (Zpos m2) ltac:(lia)) as Hqr.
  pose proof (Z.mod_pos_bound m' (Zpos m2) ltac:(lia)) as Hr.
  unfold Z.modulo in Hr.
  destruct (Z.div_eucl m' (Z.pos m2)) as [q r].
  pose proof (Zdigits2_bounds (Zpos m1) ltac:(lia)) as [B1 B1'].
  pose proof (Zdigits2_bounds (Zpos m2) ltac:(lia)) as [B2 B2'].
  fold d1 in B1, B1'. fold d2 in B2, B2'.
  assert (Hd1 : 0 < d1) by (subst d1; simpl; lia).
  assert (Hd2 : 0 < d2) by (subst d2; simpl; lia).
  assert (Hp : 0 < 2 ^ s) by (apply Z.pow_pos_nonneg; lia).
  assert (Hq : 2 ^ 52 <= q < 2 ^ 54).
  { assert (Hlow : 2 ^ (d1 - 1) * 2 ^ s = 2 ^ 52 * 2 ^ d2).
    { rewrite <- !Z.pow_add_r by lia. f_equal. lia. }
    assert (Hup : 2 ^ d1 * 2 ^ s = 2 ^ 54 * 2 ^ (d2 - 1)).
    { rewrite <- !Z.pow_add_r by lia. f_equal. lia. }
    assert (0 < 2 ^ (d2 - 1)) by (apply Z.pow_pos_nonneg; lia).
    split; nia. }
  pose proof (Zdigits2_between q 52 54 ltac:(lia) Hq) as Hdq.
  destruct (binary_round_aux_close q (E - 53) (new_location (Z.pos m2) r)
              (IZR (Zpos m1) * bpow e1 / (IZR (Zpos m2) * bpow e2)))
    as (m & e & Eq' & Hm & He' & Hc); try lia.
  - (* the exact quotient lies between q and q + 1 units *)
    assert (He12 : e1 = s + (E - 53) + e2) by lia.
    rewrite He12 at 1 2. rewrite !bpow_add.
    pose proof (bpow_pos (E - 53)). pose proof (bpow_pos e2).
    rewrite (bpow_IZR s) by lia.
    assert (Hm2 : (0 < IZR (Zpos m2))%R) by (apply IZR_lt; lia).
    replace (IZR (Z.pos m1) * (IZR (2 ^ s) * bpow (E - 53) * bpow e2)
             / (IZR (Z.pos m2) * bpow e2))%R
      with (IZR (Zpos m1 * 2 ^ s) / IZR (Zpos m2) * bpow (E - 53))%R
      by (rewrite mult_IZR; field; lra).
    rewrite <- Hm', Hqr.
    rewrite plus_IZR, mult_IZR.
    destruct Hr as [Hr1 Hr2]. apply IZR_le in Hr1. apply IZR_lt in Hr2.
    replace ((IZR (Z.pos m2) * IZR q + IZR r) / IZR (Z.pos m2))%R
      with (IZR q + IZR r / IZR (Zpos m2))%R by (field; lra).
    assert (0 <= IZR r / IZR (Z.pos m2) < 1)%R.
    { split.
      - apply Rmult_le_pos; [done|]. left. by apply Rinv_0_lt_compat.
      - apply (Rmult_lt_reg_r (IZR (Zpos m2))); [done|].
        unfold Rdiv. rewrite Rmult_assoc, Rinv_l by lra. lra. }
    split; nra.
  - exists m, e. split; [exact Eq'|]. split; [exact Hm|]. split; [lia | exact Hc].
Qed.

Lemma binary_round_aux_exact (m : positive) (e : Z) :
  2 ^ 52 <= Zpos m < 2 ^ 53 -> -1074 <= e <= 971 ->
  binary_round_aux prec emax false (Zpos m) e loc_Exact
    = S754_finite false m e.
Proof.
  intros Hm He.
  assert (Hd : Zdigits2 (Zpos m) = 53) by (apply Zdigits2_unique; lia).
  unfold binary_round_aux, shr_fexp. rewrite Hd, fexp_normal by lia.
  replace (53 + e - 53 - e) with 0 by lia.
  cbn [shr shr_record_of_loc loc_of_shr_record round_nearest_even shr_m].
  rewrite Hd, fexp_normal by lia. replace (53 + e - 53 - e) with 0 by lia.
  cbn [shr shr_record_of_loc shr_m]. assert (Hle : (e <=? emax - prec) = true).
  { apply Z.leb_le. unfold emax, prec. lia. }
  by rewrite Hle.
Qed.

Lemma iter_xO (m k : positive) :
  Zpos (Pos.iter xO m k) = Zpos m * 2 ^ Zpos k.
Proof.
  induction k as [|k IH] using Pos.peano_ind.
  - simpl. lia.
  - rewrite Pos.iter_succ, Pos2Z.inj_xO, IH, Pos2Z.inj_succ.
    rewrite Z.pow_succ_r by lia. lia.
Qed.

(** An integer below 2^53 converts to a float of the same value. *)
Lemma float_of_int_spec (z : Z) :
  0 < z < 2 ^ 53 ->
  exists m e,
    float_of_int z = Ok (S754_finite false m e) /\
    2 ^ 52 <= Zpos m < 2 ^ 53 /\ -52 <= e <= 0 /\
    (IZR (Zpos m) * bpow e)%R = IZR z.
Proof.
  intros Hz. destruct z as [|p|p]; try lia.
  unfold float_of_int, binary_normalize, binary_round.
  set (d := Zdigits2 (Zpos p)).
  pose proof (Zdigits2_bounds (Zpos p) ltac:(lia)) as [B1 B2]. fold d in B1, B2.
  pose proof (Zdigits2_between (Zpos p) 0 53 ltac:(lia)) as Hd.
  fold d in Hd. specialize (Hd ltac:(simpl; lia)).
  change (Z.pos (digits2_pos p)) with d. clearbody d.
  rewrite Z.add_0_r, fexp_normal by lia.
  unfold shl_align. replace (d - 53 - 0) with (d - 53) by lia.
  assert (Hcase : d = 53 \/ d < 53) by lia.
  destruct Hcase as [E | Hlt].
  - subst d. change (53 - 1) with 52 in B1. simpl.
    rewrite binary_round_aux_exact by lia.
    exists p, 0. split; [reflexivity|]. split; [lia|]. split; [lia|].
    unfold bpow; simpl. lra.
  - destruct (d - 53) as [|k|k] eqn:Ek; try lia.
    assert (Hk : Zpos k = 53 - d) by lia.
    assert (Hm : 2 ^ 52 <= Zpos (Pos.iter xO p k) < 2 ^ 53).
    { rewrite iter_xO, Hk.
      assert (H52 : 2 ^ (d - 1) * 2 ^ (53 - d) = 2 ^ 52).
      { rewrite <- Z.pow_add_r by lia. f_equal. lia. }
      assert (H53 : 2 ^ d * 2 ^ (53 - d) = 2 ^ 53).
      { rewrite <- Z.pow_add_r by lia. f_equal. lia. }
      assert (0 < 2 ^ (53 - d)) by (apply Z.pow_pos_nonneg; lia).
      nia. }
    rewrite binary_round_aux_exact by lia.
    exists (Pos.iter xO p k), (Z.neg k).
    split; [reflexivity|]. split; [exact Hm|]. split; [lia|].
    rewrite iter_xO, mult_IZR, <- bpow_IZR by lia.
    rewrite Rmult_assoc, <- bpow_add.
    replace (Z.pos k + Z.neg k) with 0 by lia.
    unfold bpow; simpl. lra.
Qed.

(** The quotient of two positive integers below 2^53. *)
Lemma int_truediv_spec (a b : Z) :
  0 < a < 2 ^ 53 -> 0 < b < 2 ^ 53 ->
  exists m e,
    int_truediv a b = Ok (S754_finite false m e) /\
    2 ^ 52 <= Zpos m < 2 ^ 53 /\ -106 <= e <= 2 /\
    close (IZR a / IZR b) (IZR (Zpos m) * bpow e).
Proof.
  intros Ha Hb. destruct a as [|p|p]; try lia. destruct b as [|q|q]; try lia.
  unfold int_truediv. simpl exact_int.
  destruct (Z.eqb_spec (Zpos q) 0) as [|_]; [lia|].
  pose proof (Zdigits2_between (Zpos p) 0 53 ltac:(lia) ltac:(simpl; lia)).
  pose proof (Zdigits2_between (Zpos q) 0 53 ltac:(lia) ltac:(simpl; lia)).
  destruct (SFdiv_close p q 0 0) as (m & e & E & Hm & He & Hc); try lia.
  rewrite E. exists m, e. split; [reflexivity|]. split; [exact Hm|].
  split; [lia|].
  replace (IZR (Zpos p) / IZR (Zpos q))%R
    with (IZR (Z.pos p) * bpow 0 / (IZR (Z.pos q) * bpow 0))%R; [exact Hc|].
  unfold bpow; simpl. by rewrite !Rmult_1_r.
Qed.

(** [int] of a positive float is the integer part of its value. *)
Lemma int_of_float_spec (m : positive) (e : Z) :
  exists z,
    int_of_float (S754_finite false m e) = Ok z /\
    0 <= z /\ (IZR z <= IZR (Zpos m) * bpow e < IZR z + 1)%R.
Proof.
  unfold int_of_float. destruct e as [|k|k].
  - exists (Zpos m). split; [reflexivity|]. split; [lia|].
    unfold bpow; simpl. lra.
  - exists (Zpos m * 2 ^ Zpos k). split; [reflexivity|].
    split; [apply Z.mul_nonneg_nonneg; [lia | apply Z.pow_nonneg; lia]|].
    rewrite mult_IZR, <- bpow_IZR by lia. lra.
  - exists (Zpos m / 2 ^ Zpos k). split; [reflexivity|].
    assert (Hp : 0 < 2 ^ Zpos k) by (apply Z.pow_pos_nonneg; lia).
    split; [apply Z.div_pos; lia|].
    pose proof (Z.div_mod (Zpos m) (2 ^ Zpos k) ltac:(lia)) as Hdm.
    pose proof (Z.mod_pos_bound (Zpos m) (2 ^ Zpos k) Hp) as Hr.
    set (z := Zpos m / 2 ^ Zpos k) in *.
    set (r := Zpos m mod 2 ^ Zpos k) in *.
    assert (Hb : (bpow (Zpos k) * bpow (Zneg k) = 1)%R).
    { rewrite <- bpow_add. replace (Zpos k + Zneg k) with 0 by lia.
      reflexivity. }
    pose proof (bpow_pos (Zneg k)) as Hpos.
    rewrite Hdm, plus_IZR, mult_IZR, <- bpow_IZR by lia.
    destruct Hr as [Hr1 Hr2]. apply IZR_le in Hr1. apply IZR_lt in Hr2.
    rewrite <- bpow_IZR in Hr2 by lia.
    assert (0 <= IZR r * bpow (Zneg k) < 1)%R.
    { split; [apply Rmult_le_pos; lra|].
      rewrite <- Hb. apply Rmult_lt_compat_r; lra. }
    replace ((bpow (Z.pos k) * IZR z + IZR r) * bpow (Z.neg k))%R
      with (bpow (Z.pos k) * bpow (Z.neg k) * IZR z
            + IZR r * bpow (Z.neg k))%R by ring.
    rewrite Hb. lra.
Qed.

(** The width [resize_object_with_height] computes: the exact quotient
    rounded down, or one less when the quotient is an integer. *)
Lemma new_width_of_spec (w h H : Z) :
  0 < w -> 0 < H -> 0 < h < 2 ^ 53 -> w * H <= 2 ^ 50 ->
  exists z,
    new_width_of w h H = Ok z /\
    (z = w * H / h \/ (z = w * H / h - 1 /\ (w * H) mod h = 0)).
Proof.
  intros Hw HH Hh HwH.
  assert (Hw' : w < 2 ^ 53) by nia. assert (HH' : H < 2 ^ 53) by nia.
  unfold new_width_of.
  destruct (int_truediv_spec H h) as (m1 & e1 & E1 & Hm1 & He1 & Hc1);
    try lia.
  destruct (float_of_int_spec w) as (mw & ew & Ew & Hmw & Hew & Hvw);
    try lia.
  destruct (SFmul_close mw m1 ew e1) as (m2 & e2 & E2 & Hm2 & He2 & Hc2);
    try lia.
  destruct (int_of_float_spec m2 e2) as (z & Ez & Hz0 & Hz).
  rewrite E1, bind_Ok, Ew, bind_Ok. unfold float_mul. rewrite E2, Ez.
  exists z. split; [reflexivity|].
  (* the computed product is within one h-th of the exact quotient *)
  set (v1 := (IZR (Zpos m1) * bpow e1)%R) in *.
  set (v2 := (IZR (Zpos m2) * bpow e2)%R) in *.
  rewrite Hvw in Hc2. unfold close in Hc1, Hc2.
  set (u := bpow (-52)) in *.
  assert (Hu : (0 < u)%R) by apply bpow_pos.
  assert (Hu52 : (IZR (2 ^ 52) * u = 1)%R).
  { rewrite <- bpow_IZR by lia. unfold u. rewrite <- bpow_add. reflexivity. }
  assert (Rw : (0 < IZR w)%R) by (by apply IZR_lt).
  assert (RH : (0 < IZR H)%R) by (by apply IZR_lt).
  assert (Rh : (0 < IZR h)%R) by (apply IZR_lt; lia).
  apply IZR_le in HwH. rewrite mult_IZR in HwH.
  set (q := (IZR H / IZR h)%R) in *.
  assert (Hq : (q * IZR h = IZR H)%R) by (unfold q; field; lra).
  assert (Hq0 : (0 < q)%R) by (apply Rdiv_lt_0_compat; lra).
  (* scaled by h: h * v2 lies strictly within one of w * H *)
  assert (Hup : (IZR h * v2 < IZR w * IZR H + 1)%R).
  { assert (v1 <= q * (1 + u))%R by lra.
    assert (v2 <= IZR w * v1 * (1 + u))%R by lra.
    assert (IZR w * v1 <= IZR w * (q * (1 + u)))%R by nra.
    assert (v2 <= IZR w * q * ((1 + u) * (1 + u)))%R by nra.
    assert (IZR h * v2 <= IZR w * IZR H * ((1 + u) * (1 + u)))%R.
    { replace (IZR w * IZR H)%R with (IZR h * (IZR w * q))%R
        by (rewrite <- Hq; ring). nra. }
    assert (IZR (2 ^ 50) * u = / 4)%R.
    { replace (2 ^ 52) with (2 ^ 50 * 4) in Hu52 by reflexivity.
      rewrite mult_IZR in Hu52. lra. }
    assert (u < 1)%R by (change (2 ^ 52) with 4503599627370496 in Hu52; nra).
    nra. }
  assert (Hdown : (IZR w * IZR H - 1 < IZR h * v2)%R).
  { assert (q * (1 - u) <= v1)%R by lra.
    assert (IZR w * v1 * (1 - u) <= v2)%R by lra.
    assert (u < 1)%R by (change (2 ^ 52) with 4503599627370496 in Hu52; nra).
    assert (IZR w * (q * (1 - u)) <= IZR w * v1)%R by nra.
    assert (IZR w * q * ((1 - u) * (1 - u)) <= v2)%R by nra.
    assert (IZR w * IZR H * ((1 - u) * (1 - u)) <= IZR h * v2)%R.
    { replace (IZR w * IZR H)%R with (IZR h * (IZR w * q))%R
        by (rewrite <- Hq; ring). nra. }
    assert (IZR (2 ^ 50) * u = / 4)%R.
    { replace (2 ^ 52) with (2 ^ 50 * 4) in Hu52 by reflexivity.
      rewrite mult_IZR in Hu52. lra. }
    nra. }
  (* back to the integers *)
  assert (H1 : h * z <= w * H).
  { assert (h * z < w * H + 1); [|lia].
    apply lt_IZR. rewrite plus_IZR, !mult_IZR. nra. }
  assert (H2 : w * H <= h * (z + 1)).
  { assert (w * H - 1 < h * (z + 1)); [|lia].
    apply lt_IZR. rewrite minus_IZR, !mult_IZR, plus_IZR. nra. }
  pose proof (Z.div_mod (w * H) h ltac:(lia)) as Hdm.
  pose proof (Z.mod_pos_bound (w * H) h ltac:(lia)) as Hr.
  set (n := w * H / h) in *. set (r := (w * H) mod h) in *.
  assert (z <= n) by nia. assert (n - 1 <= z) by nia.
  assert (Hcases : r = 0 \/ 0 < r) by lia.
  destruct Hcases as [Hr0 | Hrpos].
  - assert (z = n \/ z = n - 1) by lia. tauto.
  - left. nia.
Qed.

(** The quotient of two positive normal floats. *)
Lemma float_truediv_spec (m1 m2 : positive) (e1 e2 : Z) :
  2 ^ 52 <= Zpos m1 < 2 ^ 53 -> 2 ^ 52 <= Zpos m2 < 2 ^ 53 ->
  -500 <= e1 <= 500 -> -500 <= e2 <= 500 ->
  exists m e,
    float_truediv (S754_finite false m1 e1) (S754_finite false m2 e2)
      = Ok (S754_finite false m e) /\
    2 ^ 52 <= Zpos m < 2 ^ 53 /\
    close (IZR (Zpos m1) * bpow e1 / (IZR (Zpos m2) * bpow e2))
          (IZR (Zpos m) * bpow e).
Proof.
  intros H1 H2 He1 He2. unfold float_truediv. simpl float_is_zero.
  assert (Hd1 : Zdigits2 (Zpos m1) = 53) by (apply Zdigits2_unique; lia).
  assert (Hd2 : Zdigits2 (Zpos m2) = 53) by (apply Zdigits2_unique; lia).
  destruct (SFdiv_close m1 m2 e1 e2) as (m & e & E & Hm & He & Hc);
    try (rewrite Hd1, Hd2; lia).
  rewrite E. eauto.
Qed.

(** ** resize_object_with_height and crop_and_resize_to_target *)

Section Resize.
Variable lanczos : Image -> Z -> Z -> Z -> Z -> Pixel.

Lemma pillow_size_sides (w h : Z) :
  pillow_size w h -> 0 < w < 2 ^ 27 /\ 0 < h < 2 ^ 27.
Proof. unfold pillow_size, max_image_pixels. nia. Qed.

Lemma resize_Ok (image : Image) (w h : Z) :
  1 <= w -> 1 <= h ->
  resize lanczos image (w, h)
    = Ok (mkImage (mode image) (raster_make w h (lanczos image w h))).
Proof.
  intros Hw Hh. unfold resize.
  destruct (Z.ltb_spec w 1); [lia|]. destruct (Z.ltb_spec h 1); [lia|].
  reflexivity.
Qed.

Lemma resize_object_with_height_eq (obj_image : Image) (target_height : Z) :
  resize_object_with_height lanczos obj_image target_height =
    new_width ← new_width_of (width (pixels obj_image))
                   (height (pixels obj_image)) target_height;
    resize lanczos obj_image (new_width, target_height).
Proof. reflexivity. Qed.


(** C10.  When the width of the object times the target height is below
    its height, the computed width is 0, and the function asks [resize] for
    a zero-width image, which raises; no minimum of one pixel is enforced. *)
Theorem resize_object_with_height_zero_width
    (obj_image : Image) (target_height : Z) :
  let objW := width (pixels obj_image) in
  let objH := height (pixels obj_image) in
  0 < objW -> 0 < target_height ->
  objW * target_height < objH -> objH <= 2 ^ 50 ->
  new_width_of objW objH target_height = Ok 0 /\
  resize_object_with_height lanczos obj_image target_height
    = resize lanczos obj_image (0, target_height) /\
  resize lanczos obj_image (0, target_height)
    = Raise (ValueError "height and width must be > 0").
Proof.
  intros objW objH HW Ht Hlt Hmax.
  destruct (new_width_of_spec objW objH target_height)
    as (z & Ez & Hz); try lia.
  assert (Hdiv : objW * target_height / objH = 0)
    by (apply Z.div_small; nia).
  assert (Hmod : (objW * target_height) mod objH = objW * target_height)
    by (apply Z.mod_small; nia).
  assert (z = 0) by nia. subst z.
  split; [exact Ez|]. split; [|reflexivity].
  rewrite resize_object_with_height_eq. fold objW objH. by rewrite Ez.
Qed.


End Resize.



(** The example of the claim: a 1x100 image scaled to height 50. *)
Lemma resize_object_with_height_zero_width_witness :
  0 < width (pixels sample_thin) /\
  0 < 50 /\
  width (pixels sample_thin) * 50 < height (pixels sample_thin) /\
  height (pixels sample_thin) <= 2 ^ 50 /\
  new_width_of (width (pixels sample_thin)) (height (pixels sample_thin)) 50
    = Ok 0 /\
  resize_object_with_height nearest sample_thin 50
    = resize nearest sample_thin (0, 50) /\
  resize nearest sample_thin (0, 50)
    = Raise (ValueError "height and width must be > 0").
Proof.
  assert (H1 : 0 < width (pixels sample_thin)) by (simpl; lia).
  assert (H2 : 0 < 50) by lia.
  assert (H3 : width (pixels sample_thin) * 50 < height (pixels sample_thin))
    by (simpl; lia).
  assert (H4 : height (pixels sample_thin) <= 2 ^ 50) by (simpl; lia).
  split; [exact H1|]. split; [exact H2|]. split; [exact H3|].
  split; [exact H4|].
  exact (resize_object_with_height_zero_width nearest sample_thin 50
           H1 H2 H3 H4).
Defined.



(** ** The body of the loop in main

    Whenever one round succeeds, the bounding box it records is
    [bounding_box] at the size of the resized object and the centre drawn
    for it, the composite is [composite_images] of the background and that
    object at that centre, and the background object is as it was. *)
Lemma generate_one_spec
    (lanczos : Image -> Z -> Z -> Z -> Z -> Pixel)
    (config : Config) (min_height max_height : Z)
    (background obj_image : nat) (bg ob : Image)
    (w w' : World) (g : Generated) :
  heap w !! background = Some bg ->
  heap w !! obj_image = Some ob ->
  generate_one lanczos config min_height max_height background obj_image w
    = Ok (g, w') ->
  exists resized,
    heap w' !! gen_obj_resized g = Some resized /\
    gen_bbox g
      = bounding_box (width (pixels resized)) (height (pixels resized))
          (fst (gen_center g)) (snd (gen_center g)) /\
    heap w' !! gen_result g
      = Some (composite_value bg resized
                (fst (gen_center g)) (snd (gen_center g))) /\
    heap w' !! background = Some bg.
Proof.
  intros Hbg Hob. unfold generate_one.
  rewrite Prog_bind_unfold. unfold with_random at 1.
  destruct (randint min_height max_height (random w)) as [[t st1]|];
    [|discriminate].
  set (w1 := mkWorld (heap w) st1).
  rewrite Prog_bind_unfold, (load_Some obj_image ob w1) by exact Hob.
  rewrite Prog_bind_unfold. unfold lift.
  destruct (resize_object_with_height lanczos ob t) as [resized|];
    [|discriminate].
  destruct (alloc_fresh resized w1) as (r & Er & Hr).
  rewrite Prog_bind_unfold, Er.
  set (w2 := mkWorld (<[r := resized]> (heap w1)) (random w1)).
  rewrite Prog_bind_unfold. unfold with_random.
  destruct (calculate_valid_position _ _ config (random w2))
    as [[[cx cy] st2]|]; [|discriminate].
  set (w3 := mkWorld (heap w2) st2).
  assert (Hrb : r <> background).
  { intros ->. simpl in Hr. congruence. }
  assert (Hbg3 : heap w3 !! background = Some bg).
  { simpl. by rewrite lookup_insert_ne. }
  rewrite Prog_bind_unfold, (load_Some background bg w3) by exact Hbg3.
  destruct (alloc_fresh (copy bg) w3) as (c & Ec & Hc).
  rewrite Prog_bind_unfold, Ec.
  set (w4 := mkWorld (<[c := copy bg]> (heap w3)) (random w3)).
  assert (Hcr : c <> r).
  { intros ->. simpl in Hc. by rewrite lookup_insert_eq in Hc. }
  assert (Hc4 : heap w4 !! c = Some bg) by apply lookup_insert_eq.
  assert (Hr4 : heap w4 !! r = Some resized).
  { simpl. rewrite lookup_insert_ne by done. apply lookup_insert_eq. }
  destruct (composite_images_spec c r cx cy bg resized w4 Hc4 Hr4)
    as (res & w5 & E5 & _ & Hres & Hext).
  rewrite Prog_bind_unfold, E5. cbn [size].
  intros Heq. injection Heq as <- <-. cbn [gen_obj_resized gen_bbox
    gen_center gen_result fst snd].
  exists resized. split; [by apply Hext|]. split; [reflexivity|].
  split; [exact Hres|].
  apply Hext. simpl. rewrite !lookup_insert_ne; [exact Hbg| done |].
  intros ->. simpl in Hc. rewrite lookup_insert_ne in Hc by done. congruence.
Qed.

(** ** The scenarios of the specification *)

(** [0.001] is a normal float, and no float is nearer to 1/1000: its
    distance to it is below half a unit in the last place. *)
Lemma float_0_001_nearest :
  exists m e,
    float_0_001 = S754_finite false m e /\
    2 ^ 52 <= Zpos m < 2 ^ 53 /\
    2 * Z.abs (1000 * Zpos m - 2 ^ (- e)) <= 1000.
Proof. do 2 eexists. split; [reflexivity|]. vm_compute. by repeat split. Qed.

(** A 1920x1080 background has the ratio of the 1280x720 target and is
    resized directly. *)
Lemma crop_and_resize_same_ratio :
  crop_and_resize_to_target nearest sample_hd 1280 720
    = resize nearest sample_hd (1280, 720).
Proof.
  unfold crop_and_resize_to_target.
  set (t := int_truediv 1280 720). vm_compute in t. subst t.
  rewrite bind_Ok. cbn [size sample_hd pixels raster_make width height].
  set (t := int_truediv 1920 1080). vm_compute in t. subst t.
  rewrite bind_Ok.
  set (b := float_lt _ _). vm_compute in b. subst b.
  reflexivity.
Qed.

(** A 1000x1000 background is narrower than the 1280x720 target: it is
    cropped to the rows 219 to 781, 562 of them, and then resized. *)
Lemma crop_and_resize_taller :
  crop_and_resize_to_target nearest sample_1000 1280 720
    = (image ← crop sample_1000 (0, 219, 1000, 781);
       resize nearest image (1280, 720)).
Proof.
  unfold crop_and_resize_to_target.
  set (t := int_truediv 1280 720). vm_compute in t. subst t.
  rewrite bind_Ok. cbn [size sample_1000 pixels raster_make width height].
  set (t := int_truediv 1000 1000). vm_compute in t. subst t.
  rewrite bind_Ok.
  set (b := float_lt _ float_0_001). vm_compute in b. subst b. cbv iota.
  set (b := float_lt _ _). vm_compute in b. subst b. cbv iota.
  set (t := float_of_int 1000). vm_compute in t. subst t.
  rewrite bind_Ok.
  set (t := float_truediv _ _). vm_compute in t. subst t.
  rewrite bind_Ok.
  set (t := int_of_float _). vm_compute in t. subst t.
  rewrite bind_Ok. reflexivity.
Qed.

(** * Further properties *)

(** ** calculate_valid_position: keys, reachable centres, overhang *)

(** X1.  [calculate_valid_position] raises exactly when one of its five
    keys is missing from the configuration, and what it raises is the
    [KeyError] of a missing key; with the five keys present it returns a
    centre, whatever the sizes and the bounds are. *)
Theorem calculate_valid_position_raises_iff_key_missing
    (objW objH : Z) (config : Config) (st : RandomState) :
  match calculate_valid_position objW objH config st with
  | Ok _ => forall key, key ∈ placement_keys -> is_Some (config !! key)
  | Raise e =>
      exists key,
        key ∈ placement_keys /\ config !! key = None /\ e = KeyError key
  end.
Proof.
  unfold placement_keys.
  destruct (config !! "output_width") as [ow|] eqn:E1.
  2:{ unfold calculate_valid_position, getitem. rewrite E1. simpl.
      exists "output_width". repeat split; [set_solver | done]. }
  destruct (config !! "output_height") as [oh|] eqn:E2.
  2:{ unfold calculate_valid_position, getitem. rewrite E1, E2. simpl.
      exists "output_height". repeat split; [set_solver | done]. }
  destruct (config !! "object_x_min") as [x_min|] eqn:E3.
  2:{ unfold calculate_valid_position, getitem. rewrite E1, E2, E3. simpl.
      exists "object_x_min". repeat split; [set_solver | done]. }
  destruct (config !! "object_x_max") as [x_max|] eqn:E4.
  2:{ unfold calculate_valid_position, getitem. rewrite E1, E2, E3, E4. simpl.
      exists "object_x_max". repeat split; [set_solver | done]. }
  destruct (config !! "object_y_max") as [y_max|] eqn:E5.
  2:{ unfold calculate_valid_position, getitem.
      rewrite E1, E2, E3, E4, E5. simpl.
      exists "object_y_max". repeat split; [set_solver | done]. }
  assert (Hc : has_placement config ow oh x_min x_max y_max)
    by (by repeat split).
  assert (Hall : forall key,
            key ∈ ["output_width"; "output_height"; "object_x_min";
                   "object_x_max"; "object_y_max"] ->
            is_Some (config !! key)).
  { intros key Hin.
    repeat (apply elem_of_cons in Hin as [-> | Hin]; [eauto|]).
    by apply not_elem_of_nil in Hin. }
  rewrite (calculate_valid_position_unfold _ _ _ _ _ _ _ _ _ Hc).
  destruct (Z.ltb_spec (Z.min x_max (ow - objW / 2)) (Z.max x_min (objW / 2)))
    as [Hx | Hx]; [exact Hall|].
  destruct (Z.ltb_spec (Z.min y_max (oh - objH / 2)) (objH / 2))
    as [Hy | Hy]; [exact Hall|].
  cbn [orb].
  destruct (randint_range _ _ st Hx) as (cx & st1 & -> & _).
  rewrite bind_Ok.
  destruct (randint_range _ _ st1 Hy) as (cy & st2 & -> & _).
  exact Hall.
Qed.

Lemma randint_of_list (a b v : Z) (draws : list Z) (n : nat) :
  a <= v <= b -> draws !! n = Some (v - a) ->
  randint a b (mkRandom (fun i => nth i draws 0) n)
    = Ok (v, mkRandom (fun i => nth i draws 0) (S n)).
Proof.
  intros Hv Hn. unfold randint. cbn [rs_stream rs_pos].
  destruct (Z.ltb_spec b a) as [Hlt|_]; [lia|].
  rewrite (nth_lookup_Some _ _ _ _ Hn).
  rewrite Z.mod_small by lia. do 2 f_equal. lia.
Qed.

(** X2.  With both ranges in order, the centres [calculate_valid_position]
    can return are exactly the points of the rectangle the two ranges
    span: every run lands in it, and every point of it is returned for
    some state of the generator. *)
Theorem calculate_valid_position_reaches_exactly_valid_range
    (objW objH : Z) (config : Config) (ow oh x_min x_max y_max : Z)
    (cx cy : Z) :
  has_placement config ow oh x_min x_max y_max ->
  Z.max x_min (objW / 2) <= Z.min x_max (ow - objW / 2) ->
  objH / 2 <= Z.min y_max (oh - objH / 2) ->
  (exists st st',
     calculate_valid_position objW objH config st = Ok ((cx, cy), st')) <->
  Z.max x_min (objW / 2) <= cx <= Z.min x_max (ow - objW / 2) /\
  objH / 2 <= cy <= Z.min y_max (oh - objH / 2).
Proof.
  intros Hc Hx Hy. split.
  - intros (st & st' & E).
    destruct (calculate_valid_position_in_range _ _ _ _ _ _ _ _ st Hc Hx Hy)
      as (cx' & cy' & st'' & E' & Hcx & Hcy).
    rewrite E in E'. injection E' as -> -> _. split; assumption.
  - intros [Hcx Hcy].
    exists (random_of_list [cx - Z.max x_min (objW / 2); cy - objH / 2]).
    eexists.
    rewrite (calculate_valid_position_unfold _ _ _ _ _ _ _ _ _ Hc).
    destruct (Z.ltb_spec (Z.min x_max (ow - objW / 2))
                (Z.max x_min (objW / 2))); [lia|].
    destruct (Z.ltb_spec (Z.min y_max (oh - objH / 2)) (objH / 2)); [lia|].
    cbn [orb]. unfold random_of_list.
    rewrite (randint_of_list _ _ cx
               [cx - Z.max x_min (objW / 2); cy - objH / 2] 0 Hcx eq_refl).
    rewrite bind_Ok.
    rewrite (randint_of_list _ _ cy
               [cx - Z.max x_min (objW / 2); cy - objH / 2] 1 Hcy eq_refl).
    rewrite bind_Ok. reflexivity.
Qed.

Lemma calculate_valid_position_reaches_exactly_valid_range_witness :
  has_placement (placement_config 1280 720 320 960 360) 1280 720 320 960 360 /\
  Z.max 320 (641 / 2) <= Z.min 960 (1280 - 641 / 2) /\
  100 / 2 <= Z.min 360 (720 - 100 / 2) /\
  ((exists st st',
      calculate_valid_position 641 100 (placement_config 1280 720 320 960 360)
        st = Ok ((960, 68), st')) <->
   Z.max 320 (641 / 2) <= 960 <= Z.min 960 (1280 - 641 / 2) /\
   100 / 2 <= 68 <= Z.min 360 (720 - 100 / 2)).
Proof.
  assert (H1 : has_placement (placement_config 1280 720 320 960 360)
                 1280 720 320 960 360) by (repeat split; reflexivity).
  assert (H2 : Z.max 320 (641 / 2) <= Z.min 960 (1280 - 641 / 2))
    by (vm_compute; discriminate).
  assert (H3 : 100 / 2 <= Z.min 360 (720 - 100 / 2))
    by (vm_compute; discriminate).
  split; [exact H1|]. split; [exact H2|]. split; [exact H3|].
  exact (calculate_valid_position_reaches_exactly_valid_range
           641 100 _ _ _ _ _ _ 960 68 H1 H2 H3).
Defined.

(** X3.  For a configuration with [x_min <= x_max] and [0 <= y_max] the
    centre that is returned respects the configured limits in both
    branches, the random one and the fallback, for every object size:
    [x_min <= center_x <= x_max] and [center_y <= y_max]. *)
Theorem calculate_valid_position_respects_limits
    (objW objH : Z) (config : Config) (ow oh x_min x_max y_max : Z)
    (st : RandomState) :
  has_placement config ow oh x_min x_max y_max ->
  x_min <= x_max -> 0 <= y_max ->
  exists cx cy st',
    calculate_valid_position objW objH config st = Ok ((cx, cy), st') /\
    x_min <= cx <= x_max /\ cy <= y_max.
Proof.
  intros Hc Hx0 Hy0.
  destruct (Z.lt_ge_cases (Z.min x_max (ow - objW / 2))
              (Z.max x_min (objW / 2))) as [Hx | Hx];
    [|destruct (Z.lt_ge_cases (Z.min y_max (oh - objH / 2)) (objH / 2))
        as [Hy | Hy]].
  3:{ destruct (calculate_valid_position_in_range _ _ _ _ _ _ _ _ st Hc Hx Hy)
        as (cx & cy & st' & E & Hcx & Hcy).
      exists cx, cy, st'. split; [exact E|]. lia. }
  all: rewrite (calculate_valid_position_unfold _ _ _ _ _ _ _ _ _ Hc).
  all: exists ((x_min + x_max) / 2), (y_max / 2), st.
  all: split;
    [| pose proof (Z.div_mod (x_min + x_max) 2);
       pose proof (Z.mod_pos_bound (x_min + x_max) 2);
       pose proof (Z.div_mod y_max 2);
       pose proof (Z.mod_pos_bound y_max 2); lia].
  - destruct (Z.ltb_spec (Z.min x_max (ow - objW / 2))
                (Z.max x_min (objW / 2))); [reflexivity | lia].
  - destruct (Z.ltb_spec (Z.min y_max (oh - objH / 2)) (objH / 2));
      [by rewrite orb_true_r | lia].
Qed.

Lemma calculate_valid_position_respects_limits_witness :
  has_placement (placement_config 1280 720 320 960 360) 1280 720 320 960 360 /\
  320 <= 960 /\ 0 <= 360 /\
  exists cx cy st',
    calculate_valid_position 800 800 (placement_config 1280 720 320 960 360)
      (constant_random 7) = Ok ((cx, cy), st') /\
    320 <= cx <= 960 /\ cy <= 360.
Proof.
  assert (H1 : has_placement (placement_config 1280 720 320 960 360)
                 1280 720 320 960 360) by (repeat split; reflexivity).
  assert (H2 : 320 <= 960) by lia.
  assert (H3 : 0 <= 360) by lia.
  split; [exact H1|]. split; [exact H2|]. split; [exact H3|].
  exact (calculate_valid_position_respects_limits
           800 800 _ _ _ _ _ _ (constant_random 7) H1 H2 H3).
Defined.

(** X4.  With both ranges in order the rectangle pasted for the returned
    centre never starts left of or above the canvas, and it ends at most
    one pixel beyond the right and the lower edge: by [obj_width mod 2]
    and [obj_height mod 2], the pixel the halving drops. *)
Theorem calculate_valid_position_overhang_at_most_one
    (objW objH : Z) (config : Config) (ow oh x_min x_max y_max : Z)
    (st : RandomState) :
  has_placement config ow oh x_min x_max y_max ->
  Z.max x_min (objW / 2) <= Z.min x_max (ow - objW / 2) ->
  objH / 2 <= Z.min y_max (oh - objH / 2) ->
  exists cx cy st' x0 y0 x1 y1,
    calculate_valid_position objW objH config st = Ok ((cx, cy), st') /\
    bounding_box objW objH cx cy = (x0, y0, x1, y1) /\
    0 <= x0 /\ 0 <= y0 /\
    x1 <= ow + objW mod 2 /\ y1 <= oh + objH mod 2 /\
    objW mod 2 <= 1 /\ objH mod 2 <= 1.
Proof.
  intros Hc Hx Hy.
  destruct (calculate_valid_position_in_range _ _ _ _ _ _ _ _ st Hc Hx Hy)
    as (cx & cy & st' & E & Hcx & Hcy).
  exists cx, cy, st'. do 4 eexists. split; [exact E|].
  split; [reflexivity|].
  pose proof (Z.div_mod objW 2). pose proof (Z.div_mod objH 2).
  pose proof (Z.mod_pos_bound objW 2). pose proof (Z.mod_pos_bound objH 2).
  lia.
Qed.

Lemma calculate_valid_position_overhang_at_most_one_witness :
  has_placement (placement_config 1280 720 320 960 360) 1280 720 320 960 360 /\
  Z.max 320 (641 / 2) <= Z.min 960 (1280 - 641 / 2) /\
  101 / 2 <= Z.min 360 (720 - 101 / 2) /\
  exists cx cy st' x0 y0 x1 y1,
    calculate_valid_position 641 101 (placement_config 1280 720 320 960 360)
      (constant_random 640) = Ok ((cx, cy), st') /\
    bounding_box 641 101 cx cy = (x0, y0, x1, y1) /\
    0 <= x0 /\ 0 <= y0 /\
    x1 <= 1280 + 641 mod 2 /\ y1 <= 720 + 101 mod 2 /\
    641 mod 2 <= 1 /\ 101 mod 2 <= 1.
Proof.
  assert (H1 : has_placement (placement_config 1280 720 320 960 360)
                 1280 720 320 960 360) by (repeat split; reflexivity).
  assert (H2 : Z.max 320 (641 / 2) <= Z.min 960 (1280 - 641 / 2))
    by (vm_compute; discriminate).
  assert (H3 : 101 / 2 <= Z.min 360 (720 - 101 / 2))
    by (vm_compute; discriminate).
  split; [exact H1|]. split; [exact H2|]. split; [exact H3|].
  exact (calculate_valid_position_overhang_at_most_one
           641 101 _ _ _ _ _ _ (constant_random 640) H1 H2 H3).
Defined.

(** ** composite_images: what is shown inside the rectangle *)

(** X5.  On the canvas and inside the paste rectangle, [composite_images]
    blends every colour channel of the background with the object's by the
    object's own alpha and returns an opaque pixel.  For 8-bit channels a
    fully transparent object pixel leaves the background visible and a
    fully opaque one replaces it. *)
Theorem composite_images_blends_inside
    (background obj_image : nat) (center_x center_y : Z)
    (bg ob : Image) (w : World) (x y : Z) :
  heap w !! background = Some bg ->
  heap w !! obj_image = Some ob ->
  image_wf bg -> image_wf ob ->
  let x0 := center_x - width (pixels ob) / 2 in
  let y0 := center_y - height (pixels ob) / 2 in
  0 <= x < width (pixels bg) -> 0 <= y < height (pixels bg) ->
  x0 <= x < x0 + width (pixels ob) -> y0 <= y < y0 + height (pixels ob) ->
  let d := to_rgba (mode bg) (getpixel bg x y) in
  let s := to_rgba (mode ob) (getpixel ob (x - x0) (y - y0)) in
  eight_bit d -> eight_bit s ->
  exists result w' composite,
    composite_images background obj_image center_x center_y w
      = Ok (result, w') /\
    heap w' !! result = Some composite /\
    getpixel composite x y
      = mkPixel (blend8 (alpha s) (red d) (red s))
                (blend8 (alpha s) (green d) (green s))
                (blend8 (alpha s) (blue d) (blue s)) 255 /\
    (alpha s = 0%N ->
     getpixel composite x y = to_rgb (mode bg) (getpixel bg x y)) /\
    (alpha s = 255%N ->
     getpixel composite x y = to_rgb (mode ob) (getpixel ob (x - x0) (y - y0))).
Proof.
  intros Hbg Hob Hwf Hwfo x0 y0 Hx Hy Hix Hiy d s Hd Hs.
  destruct (composite_images_spec _ _ center_x center_y _ _ _ Hbg Hob)
    as (result & w' & E & _ & Hres & _).
  exists result, w', (composite_value bg ob center_x center_y).
  split; [exact E|]. split; [exact Hres|].
  pose proof (composite_value_inside bg ob center_x center_y x y
                Hwf Hwfo Hx Hy Hix Hiy) as Hin.
  cbv zeta in Hin. fold x0 y0 in Hin. fold d s in Hin.
  split; [exact Hin|].
  destruct Hd as (Hd1 & Hd2 & Hd3 & _), Hs as (Hs1 & Hs2 & Hs3 & _).
  split; intros Ha; rewrite Hin, Ha.
  - rewrite !blend8_transparent by assumption.
    subst d. unfold to_rgb. reflexivity.
  - rewrite !blend8_opaque by assumption.
    subst s. unfold to_rgb. reflexivity.
Qed.

Lemma composite_images_blends_inside_witness :
  heap sample_world !! 0%nat = Some sample_background /\
  heap sample_world !! 1%nat = Some sample_object /\
  image_wf sample_background /\ image_wf sample_object /\
  0 <= 1 < width (pixels sample_background) /\
  0 <= 0 < height (pixels sample_background) /\
  2 - width (pixels sample_object) / 2 <= 1
    < 2 - width (pixels sample_object) / 2 + width (pixels sample_object) /\
  1 - height (pixels sample_object) / 2 <= 0
    < 1 - height (pixels sample_object) / 2 + height (pixels sample_object) /\
  eight_bit (to_rgba RGB (getpixel sample_background 1 0)) /\
  eight_bit (to_rgba RGBA (getpixel sample_object 0 0)) /\
  exists result w' composite,
    composite_images 0 1 2 1 sample_world = Ok (result, w') /\
    heap w' !! result = Some composite /\
    getpixel composite 1 0 = mkPixel 200 0 0 255.
Proof.
  assert (H0 : heap sample_world !! 0%nat = Some sample_background)
    by reflexivity.
  assert (H1 : heap sample_world !! 1%nat = Some sample_object)
    by reflexivity.
  assert (Hx : 0 <= 1 < width (pixels sample_background)) by (simpl; lia).
  assert (Hy : 0 <= 0 < height (pixels sample_background)) by (simpl; lia).
  assert (Hix : 2 - width (pixels sample_object) / 2 <= 1
                < 2 - width (pixels sample_object) / 2
                  + width (pixels sample_object)) by (vm_compute; done).
  assert (Hiy : 1 - height (pixels sample_object) / 2 <= 0
                < 1 - height (pixels sample_object) / 2
                  + height (pixels sample_object)) by (vm_compute; done).
  assert (Hd : eight_bit (to_rgba RGB (getpixel sample_background 1 0)))
    by (vm_compute; repeat split; discriminate).
  assert (Hs : eight_bit (to_rgba RGBA (getpixel sample_object 0 0)))
    by (vm_compute; repeat split; discriminate).
  split; [exact H0|]. split; [exact H1|].
  split; [exact sample_background_wf|]. split; [exact sample_object_wf|].
  split; [exact Hx|]. split; [exact Hy|].
  split; [exact Hix|]. split; [exact Hiy|].
  split; [exact Hd|]. split; [exact Hs|].
  destruct (composite_images_blends_inside 0 1 2 1 _ _ _ 1 0 H0 H1
              sample_background_wf sample_object_wf Hx Hy Hix Hiy Hd Hs)
    as (result & w' & composite & E & Hres & Hpix & _).
  exists result, w', composite.
  split; [exact E|]. split; [exact Hres|]. exact Hpix.
Defined.

(** X6.  [composite_images] works on copies only: the reference it returns
    is new, every object that existed before the call, the object image
    included, is unchanged after it, and the random generator is not
    touched. *)
Theorem composite_images_frame
    (background obj_image : nat) (center_x center_y : Z)
    (bg ob : Image) (w : World) :
  heap w !! background = Some bg ->
  heap w !! obj_image = Some ob ->
  exists result w',
    composite_images background obj_image center_x center_y w
      = Ok (result, w') /\
    heap w !! result = None /\
    heap w' !! obj_image = Some ob /\
    (forall r image, heap w !! r = Some image -> heap w' !! r = Some image) /\
    random w' = random w.
Proof.
  intros Hbg Hob.
  destruct (composite_images_spec _ _ center_x center_y _ _ _ Hbg Hob)
    as (result & w' & E & Hfresh & _ & Hext & Hrnd).
  exists result, w'. split; [exact E|]. split; [exact Hfresh|].
  split; [by apply Hext|]. split; [exact Hext | exact Hrnd].
Qed.

Lemma composite_images_frame_witness :
  heap sample_world !! 0%nat = Some sample_background /\
  heap sample_world !! 1%nat = Some sample_object /\
  exists result w',
    composite_images 0 1 2 1 sample_world = Ok (result, w') /\
    heap sample_world !! result = None /\
    heap w' !! 1%nat = Some sample_object /\
    (forall r image,
       heap sample_world !! r = Some image -> heap w' !! r = Some image) /\
    random w' = random sample_world.
Proof.
  assert (H0 : heap sample_world !! 0%nat = Some sample_background)
    by reflexivity.
  assert (H1 : heap sample_world !! 1%nat = Some sample_object)
    by reflexivity.
  split; [exact H0|]. split; [exact H1|].
  exact (composite_images_frame 0 1 2 1 _ _ _ H0 H1).
Defined.

(** ** crop_to_content: what the crop keeps *)

(** The padded box contains the content box and stays on the image, for
    every padding; a padding of zero or less changes nothing. *)
Lemma add_padding_bounds (image : Image) (padding x0 y0 x1 y1 : Z) :
  0 <= x0 < x1 -> x1 <= width (pixels image) ->
  0 <= y0 < y1 -> y1 <= height (pixels image) ->
  exists a b c d,
    add_padding image padding (x0, y0, x1, y1) = (a, b, c, d) /\
    0 <= a <= x0 /\ x1 <= c <= width (pixels image) /\
    0 <= b <= y0 /\ y1 <= d <= height (pixels image) /\
    (a = Z.max 0 (x0 - Z.max 0 padding)) /\
    (b = Z.max 0 (y0 - Z.max 0 padding)) /\
    (c = Z.min (width (pixels image)) (x1 + Z.max 0 padding)) /\
    (d = Z.min (height (pixels image)) (y1 + Z.max 0 padding)).
Proof.
  intros Hx0 Hx1 Hy0 Hy1. unfold add_padding, size.
  destruct (Z.ltb_spec 0 padding).
  - do 4 eexists. split; [reflexivity|]. lia.
  - do 4 eexists. split; [reflexivity|]. lia.
Qed.

(** The content box of an image in terms of its opacity. *)
Lemma getbbox_content (image : Image) (x0 y0 x1 y1 : Z) :
  image_wf image ->
  getbbox (alpha_band (coerced image)) = Some (x0, y0, x1, y1) ->
  (forall u v,
     0 <= u < width (pixels image) -> 0 <= v < height (pixels image) ->
     (0 < opacity image u v)%N -> x0 <= u < x1 /\ y0 <= v < y1) /\
  (exists v, 0 <= v < height (pixels image) /\ (0 < opacity image x0 v)%N) /\
  (exists v, 0 <= v < height (pixels image) /\
             (0 < opacity image (x1 - 1) v)%N) /\
  (exists u, 0 <= u < width (pixels image) /\ (0 < opacity image u y0)%N) /\
  (exists u, 0 <= u < width (pixels image) /\
             (0 < opacity image u (y1 - 1))%N).
Proof.
  intros Hwf E.
  pose proof (getbbox_inside _ _ _ _ _ E) as (Hx0 & Hx1 & Hy0 & Hy1).
  pose proof (coerced_size image) as Hs. unfold size in Hs.
  injection Hs as Hw Hh.
  unfold alpha_band in Hx1, Hy1; simpl in Hx1, Hy1.
  rewrite Hw in Hx1. rewrite Hh in Hy1.
  apply getbbox_Some in E as [Ecol Erow].
  destruct Ecol as (Cl & Ch & _ & _ & Call).
  destruct Erow as (Rl & Rh & _ & _ & Rall).
  assert (Hwb : width (alpha_band (coerced image)) = width (pixels image))
    by exact Hw.
  assert (Hhb : height (alpha_band (coerced image)) = height (pixels image))
    by exact Hh.
  rewrite Hwb in Call. rewrite Hhb in Rall.
  assert (Hnz : forall u v,
            0 <= u < width (pixels image) -> 0 <= v < height (pixels image) ->
            raster_get 0%N (alpha_band (coerced image)) u v <> 0%N <->
            (0 < opacity image u v)%N).
  { intros u v Hu Hv. rewrite coerced_opacity by done.
    split; intros Ho; [by apply N.neq_0_lt_0 | by apply N.neq_0_lt_0]. }
  split; [|repeat split].
  - intros u v Hu Hv Ho.
    assert (x0 <= u <= x1 - 1).
    { apply Call; [done|]. apply column_has_data_spec.
      exists v. rewrite Hhb. split; [done|]. by apply Hnz. }
    assert (y0 <= v <= y1 - 1).
    { apply Rall; [done|]. apply row_has_data_spec.
      exists u. rewrite Hwb. split; [done|]. by apply Hnz. }
    lia.
  - apply column_has_data_spec in Cl as (v & Hv & Hne). rewrite Hhb in Hv.
    exists v. split; [done|]. apply Hnz; [lia | done | done].
  - apply column_has_data_spec in Ch as (v & Hv & Hne). rewrite Hhb in Hv.
    exists v. split; [done|]. apply Hnz; [lia | done | done].
  - apply row_has_data_spec in Rl as (u & Hu & Hne). rewrite Hwb in Hu.
    exists u. split; [done|]. apply Hnz; [done | lia | done].
  - apply row_has_data_spec in Rh as (u & Hu & Hne). rewrite Hwb in Hu.
    exists u. split; [done|]. apply Hnz; [done | lia | done].
Qed.

(** X7.  [crop_to_content] loses no content, for any padding, negative
    ones included: every pixel of non-zero alpha lies in the box it crops
    to, and the cropped image is RGBA and shows, at every position, the
    pixel of the input at that position shifted by the corner of the box. *)
Theorem crop_to_content_keeps_content (image : Image) (padding x y : Z) :
  image_wf image ->
  0 <= x < width (pixels image) -> 0 <= y < height (pixels image) ->
  (0 < opacity image x y)%N ->
  exists x0 y0 x1 y1 cropped,
    content_bbox image padding
      = Ok (coerced image, Some (x0, y0, x1, y1)) /\
    crop_to_content image padding = Ok (cropped, []) /\
    mode cropped = RGBA /\
    size cropped = (x1 - x0, y1 - y0) /\
    (forall u v,
       0 <= u < width (pixels image) -> 0 <= v < height (pixels image) ->
       (0 < opacity image u v)%N -> x0 <= u < x1 /\ y0 <= v < y1) /\
    (forall u v,
       x0 <= u < x1 -> y0 <= v < y1 ->
       getpixel cropped (u - x0) (v - y0)
         = to_rgba (mode image) (getpixel image u v)).
Proof.
  intros Hwf Hx Hy Hop.
  destruct (getbbox_opaque image x y Hwf Hx Hy Hop) as (a & b & c & d & E).
  pose proof (getbbox_inside _ _ _ _ _ E) as (Ha & Hc & Hb & Hd).
  pose proof (getbbox_content image a b c d Hwf E) as (Hall & _).
  pose proof (coerced_size image) as Hs. unfold size in Hs.
  injection Hs as Hw Hh.
  unfold alpha_band in Hc, Hd; simpl in Hc, Hd.
  destruct (add_padding_bounds (coerced image) padding a b c d)
    as (x0 & y0 & x1 & y1 & Ep & Hx0 & Hx1 & Hy0 & Hy1 & _); try done.
  exists x0, y0, x1, y1. eexists.
  split; [rewrite content_bbox_eq, E; simpl; by rewrite Ep|].
  rewrite crop_to_content_eq, E, Ep, crop_Ok by lia.
  rewrite bind_Ok. split; [reflexivity|].
  split; [apply coerced_mode|]. split; [reflexivity|]. split.
  - intros u v Hu Hv Ho. specialize (Hall u v Hu Hv Ho). lia.
  - intros u v Hu Hv. unfold getpixel at 1. cbn [pixels].
    rewrite raster_get_make by lia.
    replace (u - x0 + x0) with u by lia.
    replace (v - y0 + y0) with v by lia.
    apply coerced_getpixel; [done | lia | lia].
Qed.

Lemma crop_to_content_keeps_content_witness :
  image_wf sample_cutout /\
  0 <= 1 < width (pixels sample_cutout) /\
  0 <= 1 < height (pixels sample_cutout) /\
  (0 < opacity sample_cutout 1 1)%N /\
  exists x0 y0 x1 y1 cropped,
    content_bbox sample_cutout (-3)
      = Ok (coerced sample_cutout, Some (x0, y0, x1, y1)) /\
    crop_to_content sample_cutout (-3) = Ok (cropped, []) /\
    mode cropped = RGBA /\
    size cropped = (x1 - x0, y1 - y0) /\
    (forall u v,
       0 <= u < width (pixels sample_cutout) ->
       0 <= v < height (pixels sample_cutout) ->
       (0 < opacity sample_cutout u v)%N -> x0 <= u < x1 /\ y0 <= v < y1) /\
    (forall u v,
       x0 <= u < x1 -> y0 <= v < y1 ->
       getpixel cropped (u - x0) (v - y0)
         = to_rgba (mode sample_cutout) (getpixel sample_cutout u v)).
Proof.
  assert (Hx : 0 <= 1 < width (pixels sample_cutout)) by (simpl; lia).
  assert (Hy : 0 <= 1 < height (pixels sample_cutout)) by (simpl; lia).
  assert (Ho : (0 < opacity sample_cutout 1 1)%N) by reflexivity.
  split; [exact sample_cutout_wf|].
  split; [exact Hx|]. split; [exact Hy|]. split; [exact Ho|].
  exact (crop_to_content_keeps_content sample_cutout (-3) 1 1
           sample_cutout_wf Hx Hy Ho).
Defined.

(** X8.  With padding 0 the box [crop_to_content] crops to is tight: its
    first and last column and its first and last row each hold a pixel of
    non-zero alpha, so no smaller box holds the content. *)
Theorem crop_to_content_box_is_tight (image : Image) (x y : Z) :
  image_wf image ->
  0 <= x < width (pixels image) -> 0 <= y < height (pixels image) ->
  (0 < opacity image x y)%N ->
  exists x0 y0 x1 y1,
    content_bbox image 0 = Ok (coerced image, Some (x0, y0, x1, y1)) /\
    x0 <= x < x1 /\ y0 <= y < y1 /\
    (exists v, y0 <= v < y1 /\ (0 < opacity image x0 v)%N) /\
    (exists v, y0 <= v < y1 /\ (0 < opacity image (x1 - 1) v)%N) /\
    (exists u, x0 <= u < x1 /\ (0 < opacity image u y0)%N) /\
    (exists u, x0 <= u < x1 /\ (0 < opacity image u (y1 - 1))%N).
Proof.
  intros Hwf Hx Hy Hop.
  destruct (getbbox_opaque image x y Hwf Hx Hy Hop) as (a & b & c & d & E).
  pose proof (getbbox_inside _ _ _ _ _ E) as (Ha & Hc & Hb & Hd).
  pose proof (coerced_size image) as Hs. unfold size in Hs.
  injection Hs as Hw Hh.
  unfold alpha_band in Hc, Hd; simpl in Hc, Hd.
  rewrite Hw in Hc. rewrite Hh in Hd.
  destruct (getbbox_content image a b c d Hwf E)
    as (Hall & (v1 & Hv1 & O1) & (v2 & Hv2 & O2)
        & (u1 & Hu1 & O3) & (u2 & Hu2 & O4)).
  exists a, b, c, d.
  split; [rewrite content_bbox_eq, E; reflexivity|].
  pose proof (Hall x y Hx Hy Hop) as [Hxin Hyin].
  split; [exact Hxin|]. split; [exact Hyin|].
  split; [|split; [|split]].
  - exists v1. split; [|exact O1].
    apply (Hall a v1); [lia | done | done].
  - exists v2. split; [|exact O2].
    apply (Hall (c - 1) v2); [lia | done | done].
  - exists u1. split; [|exact O3].
    apply (Hall u1 b); [done | lia | done].
  - exists u2. split; [|exact O4].
    apply (Hall u2 (d - 1)); [done | lia | done].
Qed.

Lemma crop_to_content_box_is_tight_witness :
  image_wf sample_cutout /\
  0 <= 1 < width (pixels sample_cutout) /\
  0 <= 1 < height (pixels sample_cutout) /\
  (0 < opacity sample_cutout 1 1)%N /\
  exists x0 y0 x1 y1,
    content_bbox sample_cutout 0
      = Ok (coerced sample_cutout, Some (x0, y0, x1, y1)) /\
    x0 <= 1 < x1 /\ y0 <= 1 < y1 /\
    (exists v, y0 <= v < y1 /\ (0 < opacity sample_cutout x0 v)%N) /\
    (exists v, y0 <= v < y1 /\ (0 < opacity sample_cutout (x1 - 1) v)%N) /\
    (exists u, x0 <= u < x1 /\ (0 < opacity sample_cutout u y0)%N) /\
    (exists u, x0 <= u < x1 /\ (0 < opacity sample_cutout u (y1 - 1))%N).
Proof.
  assert (Hx : 0 <= 1 < width (pixels sample_cutout)) by (simpl; lia).
  assert (Hy : 0 <= 1 < height (pixels sample_cutout)) by (simpl; lia).
  assert (Ho : (0 < opacity sample_cutout 1 1)%N) by reflexivity.
  split; [exact sample_cutout_wf|].
  split; [exact Hx|]. split; [exact Hy|]. split; [exact Ho|].
  exact (crop_to_content_box_is_tight sample_cutout 1 1
           sample_cutout_wf Hx Hy Ho).
Defined.

(** X9.  A padding of at least the width and the height of an image with
    content makes [crop_to_content] return the whole image, coerced to
    RGBA: the padded box is clamped to the image. *)
Theorem crop_to_content_large_padding (image : Image) (padding x y : Z) :
  image_wf image ->
  0 <= x < width (pixels image) -> 0 <= y < height (pixels image) ->
  (0 < opacity image x y)%N ->
  width (pixels image) <= padding -> height (pixels image) <= padding ->
  content_bbox image padding
    = Ok (coerced image,
          Some (0, 0, width (pixels image), height (pixels image))) /\
  crop_to_content image padding = Ok (coerced image, []).
Proof.
  intros Hwf Hx Hy Hop Hpw Hph.
  destruct (getbbox_opaque image x y Hwf Hx Hy Hop) as (a & b & c & d & E).
  pose proof (getbbox_inside _ _ _ _ _ E) as (Ha & Hc & Hb & Hd).
  pose proof (coerced_size image) as Hs. unfold size in Hs.
  injection Hs as Hw Hh.
  unfold alpha_band in Hc, Hd; simpl in Hc, Hd.
  destruct (add_padding_bounds (coerced image) padding a b c d)
    as (x0 & y0 & x1 & y1 & Ep & _ & _ & _ & _ & -> & -> & -> & ->);
    try done.
  rewrite Hw, Hh in Ep.
  replace (Z.max 0 (a - Z.max 0 padding)) with 0 in Ep by lia.
  replace (Z.max 0 (b - Z.max 0 padding)) with 0 in Ep by lia.
  replace (Z.min (width (pixels image)) (c + Z.max 0 padding))
    with (width (pixels image)) in Ep by lia.
  replace (Z.min (height (pixels image)) (d + Z.max 0 padding))
    with (height (pixels image)) in Ep by lia.
  split; [rewrite content_bbox_eq, E; simpl; by rewrite Ep|].
  rewrite crop_to_content_eq, E, Ep, <- Hw, <- Hh.
  rewrite crop_full by (by apply coerced_wf). reflexivity.
Qed.

Lemma crop_to_content_large_padding_witness :
  image_wf sample_cutout /\
  0 <= 1 < width (pixels sample_cutout) /\
  0 <= 1 < height (pixels sample_cutout) /\
  (0 < opacity sample_cutout 1 1)%N /\
  width (pixels sample_cutout) <= 4 /\ height (pixels sample_cutout) <= 4 /\
  content_bbox sample_cutout 4
    = Ok (coerced sample_cutout,
          Some (0, 0, width (pixels sample_cutout),
                height (pixels sample_cutout))) /\
  crop_to_content sample_cutout 4 = Ok (coerced sample_cutout, []).
Proof.
  assert (Hx : 0 <= 1 < width (pixels sample_cutout)) by (simpl; lia).
  assert (Hy : 0 <= 1 < height (pixels sample_cutout)) by (simpl; lia).
  assert (Ho : (0 < opacity sample_cutout 1 1)%N) by reflexivity.
  assert (Hw : width (pixels sample_cutout) <= 4) by (simpl; lia).
  assert (Hh : height (pixels sample_cutout) <= 4) by (simpl; lia).
  split; [exact sample_cutout_wf|].
  split; [exact Hx|]. split; [exact Hy|]. split; [exact Ho|].
  split; [exact Hw|]. split; [exact Hh|].
  exact (crop_to_content_large_padding sample_cutout 4 1 1
           sample_cutout_wf Hx Hy Ho Hw Hh).
Defined.

(** X10.  [crop_to_content] raises nothing on any image and any padding,
    and what it returns is an RGBA image that is never larger than the
    input in either direction, so the pixel count [main] reports never
    grows. *)
Theorem crop_to_content_never_raises_never_grows
    (image : Image) (padding : Z) :
  image_wf image ->
  exists cropped messages,
    crop_to_content image padding = Ok (cropped, messages) /\
    mode cropped = RGBA /\
    image_wf cropped /\
    width (pixels cropped) <= width (pixels image) /\
    height (pixels cropped) <= height (pixels image) /\
    width (pixels cropped) * height (pixels cropped)
      <= width (pixels image) * height (pixels image).
Proof.
  intros Hwf. pose proof Hwf as (Hw0 & Hh0 & _).
  pose proof (coerced_size image) as Hs. unfold size in Hs.
  injection Hs as Hw Hh.
  rewrite crop_to_content_eq.
  destruct (getbbox (alpha_band (coerced image)))
    as [[[[a b] c] d]|] eqn:E.
  - pose proof (getbbox_inside _ _ _ _ _ E) as (Ha & Hc & Hb & Hd).
    unfold alpha_band in Hc, Hd; simpl in Hc, Hd.
    destruct (add_padding_bounds (coerced image) padding a b c d)
      as (x0 & y0 & x1 & y1 & Ep & Hx0 & Hx1 & Hy0 & Hy1 & _); try done.
    rewrite Ep, crop_Ok by lia. rewrite bind_Ok.
    do 2 eexists. split; [reflexivity|].
    split; [apply coerced_mode|].
    split; [apply raster_make_wf; lia|].
    cbn [pixels width height raster_make].
    split; [lia|]. split; [lia|]. nia.
  - do 2 eexists. split; [reflexivity|].
    split; [apply coerced_mode|]. split; [by apply coerced_wf|].
    rewrite Hw, Hh. lia.
Qed.

Lemma crop_to_content_never_raises_never_grows_witness :
  image_wf sample_cutout /\
  exists cropped messages,
    crop_to_content sample_cutout (-1) = Ok (cropped, messages) /\
    mode cropped = RGBA /\
    image_wf cropped /\
    width (pixels cropped) <= width (pixels sample_cutout) /\
    height (pixels cropped) <= height (pixels sample_cutout) /\
    width (pixels cropped) * height (pixels cropped)
      <= width (pixels sample_cutout) * height (pixels sample_cutout).
Proof.
  split; [exact sample_cutout_wf|].
  exact (crop_to_content_never_raises_never_grows sample_cutout (-1)
           sample_cutout_wf).
Defined.

(** ** The loop of main: one composite per selected object *)

Lemma calculate_valid_position_total
    (objW objH : Z) (config : Config) (ow oh x_min x_max y_max : Z)
    (st : RandomState) :
  has_placement config ow oh x_min x_max y_max ->
  exists cx cy st',
    calculate_valid_position objW objH config st = Ok ((cx, cy), st').
Proof.
  intros Hc.
  rewrite (calculate_valid_position_unfold _ _ _ _ _ _ _ _ _ Hc).
  destruct (Z.ltb_spec (Z.min x_max (ow - objW / 2)) (Z.max x_min (objW / 2)))
    as [Hx | Hx]; [eauto|].
  destruct (Z.ltb_spec (Z.min y_max (oh - objH / 2)) (objH / 2))
    as [Hy | Hy]; [eauto|].
  cbn [orb].
  destruct (randint_range _ _ st Hx) as (cx & st1 & -> & _).
  rewrite bind_Ok.
  destruct (randint_range _ _ st1 Hy) as (cy & st2 & -> & _).
  rewrite bind_Ok. eauto.
Qed.

(** The centre stays within the configured limits, in absolute value. *)
Lemma calculate_valid_position_bounded
    (objW objH : Z) (config : Config) (ow oh x_min x_max y_max B : Z)
    (st st' : RandomState) (cx cy : Z) :
  has_placement config ow oh x_min x_max y_max ->
  0 <= objH ->
  - B < x_min < B -> - B < x_max < B -> - B < y_max < B ->
  calculate_valid_position objW objH config st = Ok ((cx, cy), st') ->
  - B < cx < B /\ - B < cy < B.
Proof.
  intros Hc HH Hx0 Hx1 Hy E.
  rewrite (calculate_valid_position_unfold _ _ _ _ _ _ _ _ _ Hc) in E.
  pose proof (Z.div_mod objH 2 ltac:(lia)) as D1.
  pose proof (Z.mod_pos_bound objH 2 ltac:(lia)) as D2.
  destruct (_ || _) eqn:Hb.
  - injection E as <- <- _.
    pose proof (Z.div_mod (x_min + x_max) 2 ltac:(lia)).
    pose proof (Z.mod_pos_bound (x_min + x_max) 2 ltac:(lia)).
    pose proof (Z.div_mod y_max 2 ltac:(lia)).
    pose proof (Z.mod_pos_bound y_max 2 ltac:(lia)).
    lia.
  - apply orb_false_elim in Hb as [Hbx Hby].
    apply Z.ltb_ge in Hbx, Hby.
    destruct (randint_range _ _ st Hbx) as (vx & st1 & Ex & Hvx).
    rewrite Ex, bind_Ok in E.
    destruct (randint_range _ _ st1 Hby) as (vy & st2 & Ey & Hvy).
    rewrite Ey, bind_Ok in E. injection E as <- <- _. lia.
Qed.

(** One round, step by step, for an object that can be resized. *)
Lemma generate_one_run
    (lanczos : Image -> Z -> Z -> Z -> Z -> Pixel)
    (config : Config) (ow oh x_min x_max y_max : Z)
    (min_height max_height : Z)
    (background obj_image : nat) (bg ob : Image) (w : World) :
  heap w !! background = Some bg ->
  heap w !! obj_image = Some ob ->
  has_placement config ow oh x_min x_max y_max ->
  1 <= min_height <= max_height ->
  resizable min_height max_height ob ->
  exists g w' resized,
    generate_one lanczos config min_height max_height background obj_image w
      = Ok (g, w') /\
    (forall r image, heap w !! r = Some image -> heap w' !! r = Some image) /\
    heap w !! gen_result g = None /\
    heap w' !! gen_obj_resized g = Some resized /\
    mode resized = mode ob /\
    1 <= width (pixels resized) <= 2 ^ 50 /\
    width (pixels resized)
      <= width (pixels ob) * height (pixels resized) / height (pixels ob) /\
    min_height <= height (pixels resized) <= max_height /\
    gen_bbox g
      = bounding_box (width (pixels resized)) (height (pixels resized))
          (fst (gen_center g)) (snd (gen_center g)) /\
    heap w' !! gen_result g
      = Some (composite_value bg resized
                (fst (gen_center g)) (snd (gen_center g))) /\
    exists st st',
      calculate_valid_position
        (width (pixels resized)) (height (pixels resized)) config st
        = Ok (gen_center g, st').
Proof.
  intros Hbg Hob Hcfg Hh (HW & HH & Hmax & Hmin). unfold generate_one.
  rewrite Prog_bind_unfold. unfold with_random at 1.
  destruct (randint_range min_height max_height (random w))
    as (t & st1 & -> & Ht); [lia|].
  set (w1 := mkWorld (heap w) st1).
  rewrite Prog_bind_unfold, (load_Some obj_image ob w1) by exact Hob.
  rewrite Prog_bind_unfold. unfold lift.
  destruct (new_width_of_spec (width (pixels ob)) (height (pixels ob)) t)
    as (z & Ez & Hz); try lia; [nia|].
  assert (Hz1 : 1 <= z).
  { assert (2 <= width (pixels ob) * t / height (pixels ob))
      by (apply Z.div_le_lower_bound; nia).
    lia. }
  assert (Hz2 : z <= 2 ^ 50).
  { assert (Hwt : 0 <= width (pixels ob) * t) by nia.
    assert (width (pixels ob) * t / height (pixels ob)
            <= width (pixels ob) * t).
    { apply Z.div_le_upper_bound; [lia|].
      replace (width (pixels ob) * t) with (1 * (width (pixels ob) * t))
        at 1 by lia.
      apply Z.mul_le_mono_nonneg_r; lia. }
    nia. }
  rewrite resize_object_with_height_eq, Ez, bind_Ok, resize_Ok by lia.
  set (resized := mkImage (mode ob) (raster_make z t (lanczos ob z t))).
  destruct (alloc_fresh resized w1) as (r & Er & Hr).
  rewrite Prog_bind_unfold, Er.
  set (w2 := mkWorld (<[r := resized]> (heap w1)) (random w1)).
  rewrite Prog_bind_unfold. unfold with_random.
  destruct (calculate_valid_position_total
              (width (pixels resized)) (height (pixels resized))
              config _ _ _ _ _ (random w2) Hcfg)
    as (cx & cy & st2 & Ecvp).
  rewrite Ecvp.
  set (w3 := mkWorld (heap w2) st2).
  assert (Hrb : r <> background).
  { intros ->. simpl in Hr. congruence. }
  assert (Hbg3 : heap w3 !! background = Some bg).
  { simpl. by rewrite lookup_insert_ne. }
  rewrite Prog_bind_unfold, (load_Some background bg w3) by exact Hbg3.
  destruct (alloc_fresh (copy bg) w3) as (c & Ec & Hc).
  rewrite Prog_bind_unfold, Ec.
  set (w4 := mkWorld (<[c := copy bg]> (heap w3)) (random w3)).
  assert (Hcr : c <> r).
  { intros ->. simpl in Hc. by rewrite lookup_insert_eq in Hc. }
  assert (Hc4 : heap w4 !! c = Some bg) by apply lookup_insert_eq.
  assert (Hr4 : heap w4 !! r = Some resized).
  { simpl. rewrite lookup_insert_ne by done. apply lookup_insert_eq. }
  destruct (composite_images_spec c r cx cy bg resized w4 Hc4 Hr4)
    as (res & w5 & E5 & Hfresh & Hres & Hext & _).
  rewrite Prog_bind_unfold, E5. cbn [size].
  assert (Hinc : forall k image,
            heap w !! k = Some image -> heap w4 !! k = Some image).
  { intros k image Hk. simpl.
    assert (k <> r) by (intros ->; simpl in Hr; congruence).
    assert (k <> c).
    { intros ->. simpl in Hc. rewrite lookup_insert_ne in Hc by done.
      congruence. }
    by rewrite !lookup_insert_ne. }
  eexists _, w5, resized. split; [reflexivity|].
  cbn [gen_obj_resized gen_bbox gen_center gen_result fst snd].
  split; [intros k image Hk; by apply Hext, Hinc|].
  split.
  { destruct (heap w !! res) as [image|] eqn:Hk; [|done].
    apply Hinc in Hk. congruence. }
  split; [by apply Hext|]. split; [reflexivity|].
  split; [cbn [resized pixels raster_make width height]; lia|].
  split; [cbn [resized pixels raster_make width height]; lia|].
  split; [cbn [resized pixels raster_make width height]; lia|].
  split; [reflexivity|]. split; [exact Hres|].
  exists (random w2), st2. exact Ecvp.
Qed.

(** The resized object is an image of a size Pillow works with. *)
Lemma resized_pillow_size (max_height w h W H : Z) :
  0 < w -> 0 < h -> 1 <= W -> 1 <= H <= max_height ->
  W <= w * H / h ->
  w * max_height / h * max_height <= max_image_pixels ->
  pillow_size W H.
Proof.
  intros Hw Hh HW HH Hle Hmax.
  assert (Hq : w * H / h <= w * max_height / h).
  { apply Z.div_le_mono; [lia|]. apply Z.mul_le_mono_nonneg_l; lia. }
  assert (Hp : W * H <= w * max_height / h * max_height).
  { apply Z.mul_le_mono_nonneg; lia. }
  unfold pillow_size. lia.
Qed.


Lemma sample_object_resizable : resizable 2 3 sample_object.
Proof. unfold resizable; simpl; lia. Qed.

Lemma sample_object_in_range : resize_in_range 3 sample_object.
Proof.
  unfold resize_in_range, pillow_size, max_image_pixels.
  split; [simpl; lia | vm_compute; discriminate].
Qed.

Lemma sample_background_size :
  pillow_size (width (pixels sample_background))
    (height (pixels sample_background)).
Proof. unfold pillow_size, max_image_pixels; simpl; lia. Qed.

Lemma sample_limits_in_range : limits_in_range 1 3 2.
Proof. unfold limits_in_range. lia. Qed.


(** X12.  An object so thin that its width times the largest height of
    the range is below its own height stops the round: whatever height is
    drawn, the width computed for it is 0 and [resize] raises
    [ValueError]; nothing is composited. *)
Theorem generate_one_thin_object_raises
    (lanczos : Image -> Z -> Z -> Z -> Z -> Pixel)
    (config : Config) (min_height max_height : Z)
    (background obj_image : nat) (ob : Image) (w : World) :
  heap w !! obj_image = Some ob ->
  1 <= min_height <= max_height ->
  0 < width (pixels ob) ->
  width (pixels ob) * max_height < height (pixels ob) ->
  height (pixels ob) <= 2 ^ 50 ->
  generate_one lanczos config min_height max_height background obj_image w
    = Raise (ValueError "height and width must be > 0").
Proof.
  intros Hob Hh HW Hlt Hmax. unfold generate_one.
  rewrite Prog_bind_unfold. unfold with_random at 1.
  destruct (randint_range min_height max_height (random w))
    as (t & st1 & -> & Ht); [lia|].
  set (w1 := mkWorld (heap w) st1).
  rewrite Prog_bind_unfold, (load_Some obj_image ob w1) by exact Hob.
  rewrite Prog_bind_unfold. unfold lift.
  destruct (new_width_of_spec (width (pixels ob)) (height (pixels ob)) t)
    as (z & Ez & Hz); try nia.
  assert (Hdiv : width (pixels ob) * t / height (pixels ob) = 0)
    by (apply Z.div_small; nia).
  assert (Hmod : (width (pixels ob) * t) mod height (pixels ob)
                 = width (pixels ob) * t)
    by (apply Z.mod_small; nia).
  assert (z = 0) by nia. subst z.
  rewrite resize_object_with_height_eq, Ez, bind_Ok. reflexivity.
Qed.

Lemma generate_one_thin_object_raises_witness :
  heap thin_world !! 1%nat = Some sample_thin /\
  1 <= 40 <= 50 /\
  0 < width (pixels sample_thin) /\
  width (pixels sample_thin) * 50 < height (pixels sample_thin) /\
  height (pixels sample_thin) <= 2 ^ 50 /\
  generate_one nearest (placement_config 4 3 1 3 2) 40 50 0 1 thin_world
    = Raise (ValueError "height and width must be > 0").
Proof.
  assert (H1 : heap thin_world !! 1%nat = Some sample_thin) by reflexivity.
  assert (H2 : 1 <= 40 <= 50) by lia.
  assert (H3 : 0 < width (pixels sample_thin)) by (simpl; lia).
  assert (H4 : width (pixels sample_thin) * 50 < height (pixels sample_thin))
    by (simpl; lia).
  assert (H5 : height (pixels sample_thin) <= 2 ^ 50) by (simpl; lia).
  split; [exact H1|]. split; [exact H2|]. split; [exact H3|].
  split; [exact H4|]. split; [exact H5|].
  exact (generate_one_thin_object_raises nearest _ 40 50 0 1 _ _
           H1 H2 H3 H4 H5).
Defined.

(** ** crop_and_resize_to_target: the crop stays on the image *)

(** The order of two normalised positive floats is the order of their
    values. *)
Lemma float_lt_spec (m1 m2 : positive) (e1 e2 : Z) :
  2 ^ 52 <= Zpos m1 < 2 ^ 53 -> 2 ^ 52 <= Zpos m2 < 2 ^ 53 ->
  if float_lt (S754_finite false m1 e1) (S754_finite false m2 e2)
  then (IZR (Zpos m1) * bpow e1 < IZR (Zpos m2) * bpow e2)%R
  else (IZR (Zpos m2) * bpow e2 <= IZR (Zpos m1) * bpow e1)%R.
Proof.
  intros [L1 U1] [L2 U2].
  apply IZR_le in L1, L2. apply IZR_lt in U1, U2.
  rewrite <- bpow_IZR in L1, L2, U1, U2 by lia.
  assert (Hstep : forall (a b : positive) (ea eb : Z),
            (bpow 52 <= IZR (Zpos a))%R -> (IZR (Zpos b) < bpow 53)%R ->
            eb < ea ->
            (IZR (Zpos b) * bpow eb < IZR (Zpos a) * bpow ea)%R).
  { intros a b ea eb La Ub Hlt.
    pose proof (bpow_pos ea) as Pa. pose proof (bpow_pos eb) as Pb.
    assert (Hle : (bpow (53 + eb) <= bpow (52 + ea))%R)
      by (apply bpow_le; lia).
    rewrite !bpow_add in Hle.
    apply Rlt_le_trans with (bpow 53 * bpow eb)%R.
    - apply Rmult_lt_compat_r; assumption.
    - apply Rle_trans with (bpow 52 * bpow ea)%R; [exact Hle|].
      apply Rmult_le_compat_r; lra. }
  unfold float_lt, SFltb, SFcompare.
  destruct (Z.compare_spec e1 e2) as [-> | Hlt | Hgt].
  - pose proof (bpow_pos e2) as P2.
    change (Pos.compare_cont Eq m1 m2) with (Pos.compare m1 m2).
    destruct (Pos.compare_spec m1 m2) as [-> | Hm | Hm].
    + lra.
    + apply Rmult_lt_compat_r; [exact P2|]. apply IZR_lt. lia.
    + apply Rmult_le_compat_r; [lra|]. apply IZR_le. lia.
  - by apply Hstep.
  - left. by apply Hstep.
Qed.

Lemma two_roundings_up (w eps x : R) :
  (0 < w)%R -> (0 <= eps)%R -> (w * eps <= 1 / 4)%R -> (eps <= 1)%R ->
  (x < w * (1 + eps) * (1 + eps))%R -> (x < w + 1)%R.
Proof.
  intros Hw He Hwe He1 Hx.
  assert (w * eps * eps <= 1 / 4)%R by nra.
  nra.
Qed.

Lemma quotient_rounding_up (h eps a q : R) :
  (0 < h)%R -> (0 <= eps)%R -> (h * eps <= 1 / 4)%R -> (eps <= 1 / 4)%R ->
  (0 <= a)%R -> (a * (1 - eps) <= h)%R -> (q <= a * (1 + eps))%R ->
  (q < h + 1)%R.
Proof.
  intros Hh He Hhe He1 Ha Hah Hq.
  assert (H1 : (q * (1 - eps) <= h * (1 + eps))%R).
  { apply Rle_trans with (a * (1 + eps) * (1 - eps))%R; [nra|].
    replace (a * (1 + eps) * (1 - eps))%R
      with (a * (1 - eps) * (1 + eps))%R by ring.
    apply Rmult_le_compat_r; lra. }
  destruct (Rlt_le_dec q (h + 1)) as [|Hge]; [assumption|].
  exfalso.
  assert ((h + 1) * (1 - eps) <= q * (1 - eps))%R
    by (apply Rmult_le_compat_r; lra).
  nra.
Qed.

Lemma eps_small : (0 <= bpow (-52) /\ bpow (-52) <= 1 / 4)%R.
Proof.
  split; [left; apply bpow_pos|].
  apply Rle_trans with (bpow (-2)); [apply bpow_le; lia|].
  unfold bpow; simpl. lra.
Qed.

Lemma small_times_eps (w : Z) :
  0 < w <= 2 ^ 50 -> (IZR w * bpow (-52) <= 1 / 4)%R.
Proof.
  intros [Hw1 Hw2]. apply IZR_le in Hw2.
  rewrite <- bpow_IZR in Hw2 by lia.
  pose proof (bpow_pos (-52)) as Pe.
  apply Rle_trans with (bpow 50 * bpow (-52))%R.
  - apply Rmult_le_compat_r; lra.
  - rewrite <- bpow_add. unfold bpow; simpl. lra.
Qed.

Section CropBox.

Variable lanczos : Image -> Z -> Z -> Z -> Z -> Pixel.

(** X13.  For an image of at most 2^50 pixels a side and a positive target
    size, [crop_and_resize_to_target] either resizes the image as it is,
    or crops it first to a box of full height, or to a box of full width.
    The box lies on the image and is centred: its two margins differ by at
    most one pixel.  The rounding of the two float ratios never makes the
    crop reach beyond the image. *)
Theorem crop_and_resize_to_target_crops_inside
    (image : Image) (target_width target_height : Z) :
  let w := width (pixels image) in
  let h := height (pixels image) in
  0 < w <= 2 ^ 50 -> 0 < h <= 2 ^ 50 ->
  0 < target_width < 2 ^ 53 -> 0 < target_height < 2 ^ 53 ->
  crop_and_resize_to_target lanczos image target_width target_height
    = resize lanczos image (target_width, target_height) \/
  (exists new_width x0,
     0 <= new_width <= w /\ x0 = (w - new_width) / 2 /\
     0 <= x0 /\ x0 + new_width <= w /\
     0 <= (w - (x0 + new_width)) - x0 <= 1 /\
     crop_and_resize_to_target lanczos image target_width target_height
       = (cropped ← crop image (x0, 0, x0 + new_width, h);
          resize lanczos cropped (target_width, target_height))) \/
  (exists new_height y0,
     0 <= new_height <= h /\ y0 = (h - new_height) / 2 /\
     0 <= y0 /\ y0 + new_height <= h /\
     0 <= (h - (y0 + new_height)) - y0 <= 1 /\
     crop_and_resize_to_target lanczos image target_width target_height
       = (cropped ← crop image (0, y0, w, y0 + new_height);
          resize lanczos cropped (target_width, target_height))).
Proof.
  intros w h Hiw Hih HW HH. unfold crop_and_resize_to_target.
  destruct (int_truediv_spec target_width target_height HW HH)
    as (m1 & e1 & E1 & Hm1 & He1 & Hc1).
  rewrite E1, bind_Ok. cbn [size]. fold w h.
  assert (Hiw' : 0 < w < 2 ^ 53) by lia.
  assert (Hih' : 0 < h < 2 ^ 53) by lia.
  destruct (int_truediv_spec _ _ Hiw' Hih')
    as (m2 & e2 & E2 & Hm2 & He2 & Hc2).
  rewrite E2, bind_Ok.
  destruct (float_lt _ float_0_001); [by left|]. right.
  pose proof (float_lt_spec m1 m2 e1 e2 Hm1 Hm2) as Hlt.
  pose proof eps_small as [Pe Pe4].
  assert (Rw : (0 < IZR w)%R) by (apply IZR_lt; lia).
  assert (Rh : (0 < IZR h)%R) by (apply IZR_lt; lia).
  set (V1 := (IZR (Zpos m1) * bpow e1)%R) in *.
  set (V2 := (IZR (Zpos m2) * bpow e2)%R) in *.
  assert (PV1 : (0 < V1)%R).
  { apply Rmult_lt_0_compat; [apply IZR_lt; lia | apply bpow_pos]. }
  assert (PV2 : (0 < V2)%R).
  { apply Rmult_lt_0_compat; [apply IZR_lt; lia | apply bpow_pos]. }
  set (r := (IZR w / IZR h)%R) in *.
  assert (Hr : (r * IZR h = IZR w)%R) by (unfold r; field; lra).
  assert (Pr : (0 < r)%R) by (unfold r; apply Rdiv_lt_0_compat; lra).
  destruct Hc2 as [Hc2l Hc2u].
  destruct (float_lt _ _).
  - left.
    destruct (float_of_int_spec _ Hih') as (mh & eh & Eh & Hmh & Heh & Hvh).
    rewrite Eh, bind_Ok. unfold float_mul.
    destruct (SFmul_close mh m1 eh e1) as (m & e & E & _ & _ & Hcm);
      try lia.
    rewrite E.
    destruct (int_of_float_spec m e) as (z & Ez & Hz & Hzl & _).
    rewrite Ez, bind_Ok.
    rewrite Hvh in Hcm. fold V1 in Hcm. destruct Hcm as [_ Hcu].
    assert (Hzw : z <= w).
    { apply Z.lt_succ_r. apply lt_IZR. rewrite succ_IZR.
      apply (two_roundings_up (IZR w) (bpow (-52))); try lra.
      - by apply small_times_eps.
      - apply Rle_lt_trans with (IZR h * V1 * (1 + bpow (-52)))%R; [lra|].
        apply Rmult_lt_compat_r; [lra|].
        apply Rlt_le_trans with (IZR h * V2)%R;
          [apply Rmult_lt_compat_l; lra|].
        apply Rle_trans with (IZR h * (r + r * bpow (-52)))%R;
          [apply Rmult_le_compat_l; lra|].
        rewrite <- Hr. lra. }
    exists z, ((w - z) / 2). split; [lia|]. split; [reflexivity|].
    pose proof (Z.div_mod (w - z) 2 ltac:(lia)).
    pose proof (Z.mod_pos_bound (w - z) 2 ltac:(lia)).
    split; [lia|]. split; [lia|]. split; [lia|]. reflexivity.
  - right.
    destruct (float_of_int_spec _ Hiw') as (mw & ew & Ew & Hmw & Hew & Hvw).
    rewrite Ew, bind_Ok.
    destruct (float_truediv_spec mw m1 ew e1) as (m & e & E & _ & Hcq);
      try lia.
    rewrite E, bind_Ok.
    destruct (int_of_float_spec m e) as (z & Ez & Hz & Hzl & _).
    rewrite Ez, bind_Ok.
    rewrite Hvw in Hcq. fold V1 in Hcq. destruct Hcq as [_ Hcu].
    set (a := (IZR w / V1)%R) in *.
    assert (Ha : (a * V1 = IZR w)%R) by (unfold a; field; lra).
    assert (Pa : (0 < a)%R) by (unfold a; apply Rdiv_lt_0_compat; lra).
    assert (Hzh : z <= h).
    { apply Z.lt_succ_r. apply lt_IZR. rewrite succ_IZR.
      apply (quotient_rounding_up (IZR h) (bpow (-52)) a); try lra.
      - by apply small_times_eps.
      - apply Rmult_le_reg_l with r; [exact Pr|].
        rewrite (Rmult_comm r (IZR h)).
        replace (IZR h * r)%R with (IZR w) by lra.
        rewrite <- Ha.
        replace (r * (a * (1 - bpow (-52))))%R
          with (a * (r - r * bpow (-52)))%R by ring.
        apply Rmult_le_compat_l; lra. }
    exists z, ((h - z) / 2). split; [lia|]. split; [reflexivity|].
    pose proof (Z.div_mod (h - z) 2 ltac:(lia)).
    pose proof (Z.mod_pos_bound (h - z) 2 ltac:(lia)).
    split; [lia|]. split; [lia|]. split; [lia|]. reflexivity.
Qed.

End CropBox.

Lemma crop_and_resize_to_target_crops_inside_witness :
  0 < width (pixels sample_background) <= 2 ^ 50 /\
  0 < height (pixels sample_background) <= 2 ^ 50 /\
  0 < 5 < 2 ^ 53 /\ 0 < 2 < 2 ^ 53 /\
  (crop_and_resize_to_target nearest sample_background 5 2
     = resize nearest sample_background (5, 2) \/
   (exists new_width x0,
      0 <= new_width <= width (pixels sample_background) /\
      x0 = (width (pixels sample_background) - new_width) / 2 /\
      0 <= x0 /\ x0 + new_width <= width (pixels sample_background) /\
      0 <= (width (pixels sample_background) - (x0 + new_width)) - x0 <= 1 /\
      crop_and_resize_to_target nearest sample_background 5 2
        = (cropped ← crop sample_background
                        (x0, 0, x0 + new_width,
                         height (pixels sample_background));
           resize nearest cropped (5, 2))) \/
   (exists new_height y0,
      0 <= new_height <= height (pixels sample_background) /\
      y0 = (height (pixels sample_background) - new_height) / 2 /\
      0 <= y0 /\ y0 + new_height <= height (pixels sample_background) /\
      0 <= (height (pixels sample_background) - (y0 + new_height)) - y0
        <= 1 /\
      crop_and_resize_to_target nearest sample_background 5 2
        = (cropped ← crop sample_background
                        (0, y0, width (pixels sample_background),
                         y0 + new_height);
           resize nearest cropped (5, 2)))).
Proof.
  assert (H1 : 0 < width (pixels sample_background) <= 2 ^ 50)
    by (simpl; lia).
  assert (H2 : 0 < height (pixels sample_background) <= 2 ^ 50)
    by (simpl; lia).
  assert (H3 : 0 < 5 < 2 ^ 53) by lia.
  assert (H4 : 0 < 2 < 2 ^ 53) by lia.
  split; [exact H1|]. split; [exact H2|]. split; [exact H3|].
  split; [exact H4|].
  exact (crop_and_resize_to_target_crops_inside nearest sample_background 5 2
           H1 H2 H3 H4).
Defined.

(** ** The coordinates of the annotation *)

(** The sign given to [binary_round_aux] only ends up on its result. *)
Lemma binary_round_aux_sign (mx ex : Z) (lx : location) :
  binary_round_aux prec emax true mx ex lx
    = SFopp (binary_round_aux prec emax false mx ex lx).
Proof.
  unfold binary_round_aux.
  destruct (shr_fexp prec emax mx ex lx) as [mrs' e'].
  destruct (shr_fexp prec emax _ e' loc_Exact) as [mrs'' e''].
  destruct (shr_m mrs''); [reflexivity | | reflexivity].
  by destruct (e'' <=? emax - prec).
Qed.

(** Below 2^53 in absolute value the conversion of an int to a float loses
    nothing: [int] of the float is the int again. *)
Lemma float_of_int_exact (z : Z) :
  - 2 ^ 53 < z < 2 ^ 53 ->
  exists f, float_of_int z = Ok f /\ int_of_float f = Ok z.
Proof.
  assert (Hpos : forall p : positive, Zpos p < 2 ^ 53 ->
            exists m e,
              float_of_int (Zpos p) = Ok (S754_finite false m e) /\
              int_of_float (S754_finite false m e) = Ok (Zpos p)).
  { intros p Hp.
    destruct (float_of_int_spec (Zpos p) ltac:(lia))
      as (m & e & E & Hm & He & Hv).
    exists m, e. split; [exact E|].
    unfold int_of_float. destruct e as [|k|k]; [| lia |].
    - f_equal. apply eq_IZR. rewrite <- Hv. unfold bpow; simpl. lra.
    - f_equal.
      assert (Hp2 : 0 < 2 ^ Zpos k) by (apply Z.pow_pos_nonneg; lia).
      assert (Hb : (bpow (Zpos k) * bpow (Zneg k) = 1)%R).
      { rewrite <- bpow_add. replace (Zpos k + Zneg k) with 0 by lia.
        reflexivity. }
      assert (Hmz : Zpos m = Zpos p * 2 ^ Zpos k).
      { apply eq_IZR. rewrite mult_IZR, <- bpow_IZR by lia.
        rewrite <- Hv.
        replace (IZR (Zpos m) * bpow (Zneg k) * bpow (Zpos k))%R
          with (IZR (Zpos m) * (bpow (Zpos k) * bpow (Zneg k)))%R by ring.
        rewrite Hb. ring. }
      rewrite Hmz. apply Z.div_mul. lia. }
  intros [H0 H1]. destruct z as [|p|p].
  - eexists. split; reflexivity.
  - destruct (Hpos p H1) as (m & e & E & Hi). eauto.
  - destruct (Hpos p ltac:(lia)) as (m & e & E & Hi).
    exists (S754_finite true m e).
    unfold float_of_int, binary_normalize, binary_round in E |- *.
    destruct (shl_align p 0 _) as [mz ez].
    rewrite binary_round_aux_sign.
    destruct (binary_round_aux prec emax false (Zpos mz) ez loc_Exact);
      try discriminate.
    injection E as -> -> ->. split; [reflexivity|].
    unfold int_of_float in Hi |- *. injection Hi as Hi.
    rewrite Hi. reflexivity.
Qed.

(** X14.  The four coordinates of a box with entries below 2^53 in
    absolute value are converted to floats without error and without
    loss: [int] of each float is the coordinate it came from, so the
    rectangle written to the annotation is exactly the integer box. *)
Theorem bbox_to_float_exact (x0 y0 x1 y1 : Z) :
  - 2 ^ 53 < x0 < 2 ^ 53 -> - 2 ^ 53 < y0 < 2 ^ 53 ->
  - 2 ^ 53 < x1 < 2 ^ 53 -> - 2 ^ 53 < y1 < 2 ^ 53 ->
  exists l t r b,
    bbox_to_float (x0, y0, x1, y1) = Ok (l, t, r, b) /\
    int_of_float l = Ok x0 /\ int_of_float t = Ok y0 /\
    int_of_float r = Ok x1 /\ int_of_float b = Ok y1.
Proof.
  intros Hx0 Hy0 Hx1 Hy1.
  destruct (float_of_int_exact x0 Hx0) as (l & El & Hl).
  destruct (float_of_int_exact y0 Hy0) as (t & Et & Ht).
  destruct (float_of_int_exact x1 Hx1) as (r & Er & Hr).
  destruct (float_of_int_exact y1 Hy1) as (b & Eb & Hb).
  exists l, t, r, b. unfold bbox_to_float.
  rewrite El, bind_Ok, Et, bind_Ok, Er, bind_Ok, Eb, bind_Ok.
  by repeat split.
Qed.

Lemma bbox_to_float_exact_witness :
  - 2 ^ 53 < 240 < 2 ^ 53 /\ - 2 ^ 53 < -220 < 2 ^ 53 /\
  - 2 ^ 53 < 1040 < 2 ^ 53 /\ - 2 ^ 53 < 580 < 2 ^ 53 /\
  exists l t r b,
    bbox_to_float (240, -220, 1040, 580) = Ok (l, t, r, b) /\
    int_of_float l = Ok 240 /\ int_of_float t = Ok (-220) /\
    int_of_float r = Ok 1040 /\ int_of_float b = Ok 580.
Proof.
  assert (H1 : - 2 ^ 53 < 240 < 2 ^ 53) by lia.
  assert (H2 : - 2 ^ 53 < -220 < 2 ^ 53) by lia.
  assert (H3 : - 2 ^ 53 < 1040 < 2 ^ 53) by lia.
  assert (H4 : - 2 ^ 53 < 580 < 2 ^ 53) by lia.
  split; [exact H1|]. split; [exact H2|]. split; [exact H3|].
  split; [exact H4|].
  exact (bbox_to_float_exact 240 (-220) 1040 580 H1 H2 H3 H4).
Defined.

(** ** get_image_files *)

Lemma str_app_cons (c : Ascii.ascii) (s t : string) :
  String c s +:+ t = String c (s +:+ t).
Proof. reflexivity. Qed.

Lemma str_app_nil_l (t : string) : "" +:+ t = t.
Proof. reflexivity. Qed.

Lemma str_app_nil_r (s : string) : s +:+ "" = s.
Proof. induction s as [|c s IH]; [done|]. by rewrite str_app_cons, IH. Qed.

Lemma str_app_assoc (s t u : string) : (s +:+ t) +:+ u = s +:+ (t +:+ u).
Proof.
  induction s as [|c s IH]; [done|]. by rewrite !str_app_cons, IH.
Qed.

Lemma str_length_app (s t : string) :
  String.length (s +:+ t) = (String.length s + String.length t)%nat.
Proof.
  induction s as [|c s IH]; [done|].
  rewrite str_app_cons. cbn [String.length]. by rewrite IH.
Qed.

(** [endswith] holds exactly when the string is some stem followed by the
    suffix. *)
Lemma endswith_spec (s suffix : string) :
  endswith s suffix = true <-> exists stem, s = stem +:+ suffix.
Proof.
  induction s as [|c s IH]; cbn [endswith].
  - destruct (String.eqb_spec "" suffix) as [<- | Hne].
    + split; [exists ""; reflexivity | done].
    + split; [done|]. intros ([|c stem] & E); [by destruct Hne | done].
  - destruct (String.eqb_spec (String c s) suffix) as [<- | Hne].
    + split; [exists ""; reflexivity | done].
    + rewrite IH. split.
      * intros (stem & ->). exists (String c stem). reflexivity.
      * intros ([|c' stem] & E); [by destruct Hne|].
        rewrite str_app_cons in E. injection E as _ ->. by exists stem.
Qed.

Lemma lower_app (s t : string) : lower (s +:+ t) = lower s +:+ lower t.
Proof.
  induction s as [|c s IH]; [done|].
  rewrite str_app_cons. cbn [lower]. by rewrite IH.
Qed.

(** A split of the lowered name is the lowering of a split of the name. *)
Lemma lower_split (f stem' ext : string) :
  lower f = stem' +:+ ext ->
  exists stem e, f = stem +:+ e /\ lower stem = stem' /\ lower e = ext.
Proof.
  revert f. induction stem' as [|c stem' IH]; intros f E.
  - exists "", f. by repeat split.
  - destruct f as [|d f]; [done|].
    rewrite str_app_cons in E. cbn [lower] in E. injection E as Hc E.
    destruct (IH f E) as (stem & e & -> & Hs & He).
    exists (String d stem), e. repeat split; [|done].
    cbn [lower]. by rewrite Hc, Hs.
Qed.

Lemma lower_char_not_upper (c : Ascii.ascii) : is_upper (lower_char c) = false.
Proof.
  unfold lower_char. destruct (is_upper c) eqn:E; [|exact E].
  unfold is_upper in *. apply andb_prop in E as [E1 E2].
  apply Nat.leb_le in E1, E2.
  rewrite Ascii.nat_ascii_embedding by lia.
  apply andb_false_iff. right. apply Nat.leb_gt. lia.
Qed.

Lemma lower_no_upper (s : string) : has_upper (lower s) = false.
Proof.
  induction s as [|c s IH]; [done|].
  cbn [lower has_upper]. by rewrite lower_char_not_upper, IH.
Qed.

Lemma has_upper_app (s t : string) :
  has_upper (s +:+ t) = has_upper s || has_upper t.
Proof.
  induction s as [|c s IH]; [done|].
  rewrite str_app_cons. cbn [has_upper]. by rewrite IH, orb_assoc.
Qed.

(** The loop appends, in the order of the listing, the joined path of
    every name that passes the test. *)
Lemma get_image_files_loop_eq
    (directory : string) (extensions names files : list string) :
  get_image_files_loop directory extensions names files
    = files ++ (join directory <$>
                filter (fun f => endswith_any (lower f) extensions = true)
                       names).
Proof.
  revert files. induction names as [|f rest IH]; intros files.
  - cbn [get_image_files_loop]. by rewrite filter_nil, fmap_nil, app_nil_r.
  - cbn [get_image_files_loop]. rewrite IH, filter_cons.
    destruct (endswith_any (lower f) extensions) eqn:E.
    + rewrite decide_True by done. by rewrite fmap_cons, <- app_assoc.
    + rewrite decide_False by done. reflexivity.
Qed.

(** The test on a name: its tail, with the letters lowered, is one of the
    extensions. *)
Lemma endswith_any_lower (f : string) (extensions : list string) :
  endswith_any (lower f) extensions = true <->
  exists ext stem e,
    ext ∈ extensions /\ f = stem +:+ e /\ lower e = ext.
Proof.
  unfold endswith_any. rewrite existsb_exists. split.
  - intros (ext & Hin & He). apply endswith_spec in He as (stem' & E).
    destruct (lower_split f stem' ext E) as (stem & e & -> & _ & Hl).
    exists ext, stem, e. split; [by apply list_elem_of_In | done].
  - intros (ext & stem & e & Hin & -> & Hl).
    exists ext. split; [by apply list_elem_of_In|].
    apply endswith_spec. exists (lower stem). by rewrite lower_app, Hl.
Qed.

(** X15.  For a directory, [get_image_files] returns the joined paths of
    exactly those entries whose name ends, letter case ignored, with one
    of the extensions: the name is a stem followed by a tail whose
    lowering is the extension.  The paths come in the order of the
    listing. *)
Theorem get_image_files_selects_ignoring_case
    (fs : FileSystem) (directory : string) (extensions names : list string) :
  fs !! directory = Some (Directory names) ->
  exists files,
    get_image_files fs directory extensions = inr files /\
    (forall p,
       p ∈ files <->
       exists f ext stem e,
         f ∈ names /\ ext ∈ extensions /\
         f = stem +:+ e /\ lower e = ext /\ p = join directory f) /\
    files `sublist_of` (join directory <$> names).
Proof.
  intros Hd. unfold get_image_files. rewrite Hd.
  eexists. split; [reflexivity|].
  rewrite get_image_files_loop_eq, app_nil_l. split.
  - intros p. rewrite list_elem_of_fmap. split.
    + intros (f & -> & Hin). apply list_elem_of_filter in Hin as [Hm Hin].
      apply endswith_any_lower in Hm as (ext & stem & e & He & Hf & Hl).
      exists f, ext, stem, e. by repeat split.
    + intros (f & ext & stem & e & Hin & He & Hf & Hl & ->).
      exists f. split; [done|]. apply list_elem_of_filter. split; [|done].
      apply endswith_any_lower. by exists ext, stem, e.
  - apply fmap_sublist, sublist_filter.
Qed.

Lemma get_image_files_selects_ignoring_case_witness :
  sample_fs !! "data/objects"
    = Some (Directory ["cat.png"; "DOG.PNG"; "notes.txt"; "bird.Png"; "png"]) /\
  exists files,
    get_image_files sample_fs "data/objects" [".png"] = inr files /\
    "data/objects/DOG.PNG" ∈ files.
Proof.
  assert (H : sample_fs !! "data/objects"
              = Some (Directory ["cat.png"; "DOG.PNG"; "notes.txt";
                                 "bird.Png"; "png"])) by reflexivity.
  split; [exact H|].
  destruct (get_image_files_selects_ignoring_case sample_fs "data/objects"
              [".png"] _ H) as (files & E & Hin & _).
  exists files. split; [exact E|].
  apply Hin. exists "DOG.PNG", ".png", "DOG", ".PNG".
  repeat split; repeat constructor.
Defined.

(** X16.  The extensions are compared with the lowered name as they are:
    an extension that contains a letter of A to Z matches no name at all,
    so a call with such extensions only returns the empty list for every
    directory. *)
Theorem get_image_files_upper_case_extension_matches_nothing
    (fs : FileSystem) (directory : string) (extensions names : list string) :
  fs !! directory = Some (Directory names) ->
  Forall (fun ext => has_upper ext = true) extensions ->
  get_image_files fs directory extensions = inr [].
Proof.
  intros Hd Hup. unfold get_image_files. rewrite Hd. f_equal.
  rewrite get_image_files_loop_eq, app_nil_l.
  assert (Hnone : forall f, endswith_any (lower f) extensions = false).
  { intros f. apply not_true_is_false. intros Hm.
    unfold endswith_any in Hm.
    apply existsb_exists in Hm as (ext & Hin & He).
    apply endswith_spec in He as (stem & E).
    rewrite Forall_forall in Hup.
    specialize (Hup ext ltac:(by apply list_elem_of_In)).
    pose proof (lower_no_upper f) as Hl.
    rewrite E, has_upper_app, Hup, orb_true_r in Hl. discriminate. }
  clear Hd. induction names as [|f rest IH]; [reflexivity|].
  rewrite filter_cons, decide_False by (rewrite Hnone; discriminate).
  exact IH.
Qed.

Lemma get_image_files_upper_case_extension_matches_nothing_witness :
  sample_fs !! "data/objects"
    = Some (Directory ["cat.png"; "DOG.PNG"; "notes.txt"; "bird.Png"; "png"]) /\
  Forall (fun ext => has_upper ext = true) [".PNG"; ".Jpg"] /\
  get_image_files sample_fs "data/objects" [".PNG"; ".Jpg"] = inr [].
Proof.
  assert (H : sample_fs !! "data/objects"
              = Some (Directory ["cat.png"; "DOG.PNG"; "notes.txt";
                                 "bird.Png"; "png"])) by reflexivity.
  assert (H2 : Forall (fun ext => has_upper ext = true) [".PNG"; ".Jpg"])
    by (repeat constructor).
  split; [exact H|]. split; [exact H2|].
  exact (get_image_files_upper_case_extension_matches_nothing
           sample_fs "data/objects" [".PNG"; ".Jpg"] _ H H2).
Defined.

Lemma join_relative (a b : string) :
  startswith b "/" = false -> join a b = join a "" +:+ b.
Proof.
  intros Hb. unfold join. rewrite Hb.
  change (startswith "" "/") with false. cbn [negb].
  destruct (String.eqb a "" || endswith a "/").
  - by rewrite str_app_nil_r.
  - by rewrite str_app_nil_r, str_app_assoc.
Qed.

(** X17.  The entries of a directory are distinct names that do not start
    with a slash; for such a listing the returned paths are pairwise
    distinct, there are as many as there are matching names, and each is
    the directory, with its separator, followed by the name. *)
Theorem get_image_files_paths_distinct
    (fs : FileSystem) (directory : string) (extensions names : list string) :
  fs !! directory = Some (Directory names) ->
  NoDup names ->
  Forall (fun f => startswith f "/" = false) names ->
  exists files,
    get_image_files fs directory extensions = inr files /\
    NoDup files /\
    length files
      = length (filter (fun f => endswith_any (lower f) extensions = true)
                       names) /\
    (length files <= length names)%nat /\
    forall p, p ∈ files ->
      exists f, f ∈ names /\ p = join directory "" +:+ f.
Proof.
  intros Hd Hnd Hrel. unfold get_image_files. rewrite Hd.
  eexists. split; [reflexivity|].
  rewrite get_image_files_loop_eq, app_nil_l.
  set (sel := filter (fun f => endswith_any (lower f) extensions = true)
                     names).
  assert (Hsub : sel ⊆ names) by (intros f Hf; by apply list_elem_of_filter in Hf as [_ ?]).
  assert (Heq : join directory <$> sel
                = (String.app (join directory "")) <$> sel).
  { apply list_fmap_ext. intros i f Hf. apply join_relative.
    rewrite Forall_forall in Hrel. apply Hrel, Hsub.
    by eapply list_elem_of_lookup_2. }
  rewrite Heq. split; [|split; [|split]].
  - apply NoDup_fmap_2; [apply _|]. by apply NoDup_filter.
  - by rewrite length_fmap.
  - rewrite length_fmap. apply length_filter.
  - intros p Hp. apply list_elem_of_fmap in Hp as (f & -> & Hf).
    exists f. split; [by apply Hsub | done].
Qed.

Lemma get_image_files_paths_distinct_witness :
  sample_fs !! "data/objects"
    = Some (Directory ["cat.png"; "DOG.PNG"; "notes.txt"; "bird.Png"; "png"]) /\
  NoDup ["cat.png"; "DOG.PNG"; "notes.txt"; "bird.Png"; "png"] /\
  Forall (fun f => startswith f "/" = false)
         ["cat.png"; "DOG.PNG"; "notes.txt"; "bird.Png"; "png"] /\
  exists files,
    get_image_files sample_fs "data/objects" [".png"] = inr files /\
    NoDup files /\ length files = 3%nat.
Proof.
  assert (H : sample_fs !! "data/objects"
              = Some (Directory ["cat.png"; "DOG.PNG"; "notes.txt";
                                 "bird.Png"; "png"])) by reflexivity.
  assert (H2 : NoDup ["cat.png"; "DOG.PNG"; "notes.txt"; "bird.Png"; "png"])
    by (apply (bool_decide_unpack (NoDup _)); vm_compute; exact I).
  assert (H3 : Forall (fun f => startswith f "/" = false)
                 ["cat.png"; "DOG.PNG"; "notes.txt"; "bird.Png"; "png"])
    by (repeat constructor).
  split; [exact H|]. split; [exact H2|]. split; [exact H3|].
  destruct (get_image_files_paths_distinct sample_fs "data/objects"
              [".png"] _ H H2 H3) as (files & E & Hnd & Hlen & _).
  exists files. split; [exact E|]. split; [exact Hnd|].
  rewrite Hlen. vm_compute. reflexivity.
Defined.

(** ** generate_random_filename *)

Lemma digit_char_value (d : Z) :
  0 <= d <= 9 ->
  digit_value (digit_char d) = d /\ is_digit (digit_char d) = true.
Proof.
  intros Hd. unfold digit_value, is_digit, digit_char.
  rewrite Ascii.nat_ascii_embedding by lia. split; [lia|].
  apply andb_true_intro. split; apply Nat.leb_le; lia.
Qed.

Lemma all_digits_app (s t : string) :
  all_digits (s +:+ t) = all_digits s && all_digits t.
Proof.
  induction s as [|c s IH]; [done|].
  rewrite str_app_cons. cbn [all_digits]. by rewrite IH, andb_assoc.
Qed.

Lemma int_of_digits_app (s t : string) (acc : Z) :
  int_of_digits (s +:+ t) acc = int_of_digits t (int_of_digits s acc).
Proof.
  revert acc. induction s as [|c s IH]; intros acc; [done|].
  rewrite str_app_cons. cbn [int_of_digits]. by rewrite IH.
Qed.

Lemma decimal_go_S (fuel : nat) (n : Z) (acc : string) :
  decimal_go (S fuel) n acc
    = if n / 10 =? 0 then String (digit_char (n mod 10)) acc
      else decimal_go fuel (n / 10) (String (digit_char (n mod 10)) acc).
Proof. reflexivity. Qed.

(** The digits [decimal_go] puts before the accumulator: at least one,
    all decimal, no more than the size of [n] asks for, and with the
    value [n]. *)
Lemma decimal_go_spec (fuel : nat) (n : Z) (acc : string) :
  0 <= n < 2 ^ Z.of_nat (S fuel) ->
  exists s,
    decimal_go (S fuel) n acc = s +:+ acc /\
    all_digits s = true /\
    (1 <= String.length s)%nat /\
    (forall k, (1 <= k)%nat -> n < 10 ^ Z.of_nat k ->
               (String.length s <= k)%nat) /\
    forall v, int_of_digits s v = v * 10 ^ Z.of_nat (String.length s) + n.
Proof.
  revert n acc. induction fuel as [|fuel IH]; intros n acc Hn.
  - assert (Hq : n / 10 = 0) by (apply Z.div_small; simpl in Hn; lia).
    assert (Hm : n mod 10 = n) by (apply Z.mod_small; simpl in Hn; lia).
    rewrite decimal_go_S, Hq, Hm. cbn [Z.eqb].
    destruct (digit_char_value n ltac:(simpl in Hn; lia)) as [Hv Hd].
    exists (String (digit_char n) ""). split; [reflexivity|].
    split; [cbn [all_digits]; by rewrite Hd|].
    split; [cbn [String.length]; lia|].
    split; [intros k Hk _; cbn [String.length]; lia|].
    intros v. cbn [int_of_digits String.length]. rewrite Hv.
    change (10 ^ Z.of_nat 1) with 10. lia.
  - pose proof (Z.mod_pos_bound n 10 ltac:(lia)) as Hmod.
    pose proof (Z.div_mod n 10 ltac:(lia)) as Hdm.
    destruct (digit_char_value (n mod 10) ltac:(lia)) as [Hv Hd].
    rewrite (decimal_go_S (S fuel)).
    destruct (Z.eqb_spec (n / 10) 0) as [Hq | Hq].
    + exists (String (digit_char (n mod 10)) ""). split; [reflexivity|].
      split; [cbn [all_digits]; by rewrite Hd|].
      split; [cbn [String.length]; lia|].
      split; [intros k Hk _; cbn [String.length]; lia|].
      intros v. cbn [int_of_digits String.length]. rewrite Hv.
      change (10 ^ Z.of_nat 1) with 10. lia.
    + assert (Hn' : 0 <= n / 10 < 2 ^ Z.of_nat (S fuel)).
      { split; [apply Z.div_pos; lia|].
        apply Z.div_lt_upper_bound; [lia|].
        replace (Z.of_nat (S (S fuel))) with (Z.of_nat (S fuel) + 1) in Hn
          by lia.
        rewrite Z.pow_add_r in Hn by lia. lia. }
      destruct (IH (n / 10) (String (digit_char (n mod 10)) acc) Hn')
        as (s & E & Hall & Hlen & Hk & Hval).
      rewrite E.
      exists (s +:+ String (digit_char (n mod 10)) "").
      split; [by rewrite str_app_assoc|].
      split; [rewrite all_digits_app, Hall; cbn [all_digits];
              by rewrite Hd|].
      rewrite str_length_app. cbn [String.length].
      split; [lia|]. split.
      * intros k Hk1 Hlt.
        assert (Hk2 : (2 <= k)%nat).
        { destruct (decide (k = 1%nat)) as [-> | ?]; [|lia].
          change (10 ^ Z.of_nat 1) with 10 in Hlt.
          assert (n / 10 = 0) by (apply Z.div_small; lia). lia. }
        assert (String.length s <= k - 1)%nat; [|lia].
        apply Hk; [lia|].
        apply Z.div_lt_upper_bound; [lia|].
        replace (Z.of_nat k) with (Z.of_nat (k - 1) + 1) in Hlt by lia.
        rewrite Z.pow_add_r in Hlt by lia. lia.
      * intros v. rewrite int_of_digits_app, Hval.
        cbn [int_of_digits]. rewrite Hv.
        replace (Z.of_nat (String.length s + 1))
          with (Z.of_nat (String.length s) + 1) by lia.
        rewrite Z.pow_add_r by lia. lia.
Qed.

Lemma decimal_spec (n : Z) :
  0 <= n ->
  all_digits (decimal n) = true /\
  (1 <= String.length (decimal n))%nat /\
  (forall k, (1 <= k)%nat -> n < 10 ^ Z.of_nat k ->
             (String.length (decimal n) <= k)%nat) /\
  int_of_digits (decimal n) 0 = n.
Proof.
  intros Hn. unfold decimal.
  assert (Hb : 0 <= n < 2 ^ Z.of_nat (S (Z.to_nat (Z.log2 n)))).
  { split; [exact Hn|].
    pose proof (Z.log2_nonneg n).
    replace (Z.of_nat (S (Z.to_nat (Z.log2 n)))) with (Z.succ (Z.log2 n))
      by lia.
    destruct (Z.eq_dec n 0) as [-> | Hne]; [reflexivity|].
    apply Z.log2_spec. lia. }
  destruct (decimal_go_spec _ n "" Hb) as (s & E & Hall & Hlen & Hk & Hval).
  rewrite E, str_app_nil_r.
  split; [exact Hall|]. split; [exact Hlen|]. split; [exact Hk|].
  rewrite Hval. lia.
Qed.

Lemma zeros_spec (k : nat) :
  String.length (zeros k) = k /\ all_digits (zeros k) = true /\
  forall v, int_of_digits (zeros k) v = v * 10 ^ Z.of_nat k.
Proof.
  induction k as [|k (IH1 & IH2 & IH3)].
  - repeat split. intros v. cbn [int_of_digits zeros].
    change (10 ^ Z.of_nat 0) with 1. lia.
  - cbn [zeros String.length all_digits int_of_digits].
    split; [by rewrite IH1|]. split; [by rewrite IH2|].
    intros v. rewrite IH3.
    change (digit_value (digit_char 0)) with 0.
    replace (Z.of_nat (S k)) with (Z.of_nat k + 1) by lia.
    rewrite Z.pow_add_r by lia. lia.
Qed.

(** A number below [10 ^ width] is formatted with exactly [width] digits,
    and reading them gives the number back. *)
Lemma format_0d_spec (width : nat) (n : Z) :
  (1 <= width)%nat -> 0 <= n < 10 ^ Z.of_nat width ->
  String.length (format_0d width n) = width /\
  all_digits (format_0d width n) = true /\
  int_of_digits (format_0d width n) 0 = n.
Proof.
  intros Hw [Hn0 Hn1]. unfold format_0d.
  destruct (decimal_spec n Hn0) as (Hall & Hlen & Hk & Hval).
  specialize (Hk width Hw Hn1).
  destruct (zeros_spec (width - String.length (decimal n)))
    as (Zl & Za & Zv).
  rewrite str_length_app, all_digits_app, int_of_digits_app, Zl, Za, Zv, Hall.
  split; [lia|]. split; [reflexivity|]. rewrite Z.mul_0_l. exact Hval.
Qed.

(** One call, step by step. *)
Lemma generate_random_filename_run
    (prefix : string) (digits : nat) (st : RandomState) :
  let n := rs_stream st (rs_pos st) mod 10 ^ Z.of_nat digits in
  generate_random_filename prefix digits st
    = Ok (prefix +:+ "-" +:+ format_0d digits n,
          mkRandom (rs_stream st) (S (rs_pos st))) /\
  0 <= n < 10 ^ Z.of_nat digits.
Proof.
  intros n. unfold generate_random_filename, randint.
  assert (Hp : 0 < 10 ^ Z.of_nat digits) by (apply Z.pow_pos_nonneg; lia).
  destruct (Z.ltb_spec (10 ^ Z.of_nat digits - 1) 0) as [Hlt|_]; [lia|].
  rewrite bind_Ok.
  replace (10 ^ Z.of_nat digits - 1 - 0 + 1) with (10 ^ Z.of_nat digits)
    by lia.
  rewrite Z.add_0_l. fold n.
  split; [reflexivity|]. apply Z.mod_pos_bound. exact Hp.
Qed.


(** X19.  Two calls with the same prefix and [digits >= 1] return the
    same name exactly when their raw draws agree modulo [10 ^ digits]:
    the name determines the number, and nothing else tells two outputs
    apart, so a repeated number means a repeated file name. *)
Theorem generate_random_filename_collides_iff
    (prefix : string) (digits : nat) (st1 st2 : RandomState) :
  (1 <= digits)%nat ->
  exists name1 name2 st1' st2',
    generate_random_filename prefix digits st1 = Ok (name1, st1') /\
    generate_random_filename prefix digits st2 = Ok (name2, st2') /\
    (name1 = name2 <->
     rs_stream st1 (rs_pos st1) mod 10 ^ Z.of_nat digits
       = rs_stream st2 (rs_pos st2) mod 10 ^ Z.of_nat digits).
Proof.
  intros Hd.
  destruct (generate_random_filename_run prefix digits st1) as [E1 Hn1].
  destruct (generate_random_filename_run prefix digits st2) as [E2 Hn2].
  cbv zeta in E1, Hn1, E2, Hn2.
  do 4 eexists. split; [exact E1|]. split; [exact E2|].
  destruct (format_0d_spec digits _ Hd Hn1) as (_ & _ & Hv1).
  destruct (format_0d_spec digits _ Hd Hn2) as (_ & _ & Hv2).
  split.
  - intros Heq. apply (inj (String.app prefix)) in Heq.
    apply (inj (String.app "-")) in Heq.
    rewrite <- Hv1, <- Hv2. by rewrite Heq.
  - intros Heq. by rewrite Heq.
Qed.

Lemma generate_random_filename_collides_iff_witness :
  (1 <= 8)%nat /\
  exists name1 name2 st1' st2',
    generate_random_filename "gen" 8 (constant_random 5) = Ok (name1, st1') /\
    generate_random_filename "gen" 8 (constant_random 100000005)
      = Ok (name2, st2') /\
    (name1 = name2 <->
     5 mod 10 ^ Z.of_nat 8 = 100000005 mod 10 ^ Z.of_nat 8).
Proof.
  assert (H : (1 <= 8)%nat) by lia.
  split; [exact H|].
  exact (generate_random_filename_collides_iff "gen" 8
           (constant_random 5) (constant_random 100000005) H).
Defined.

(** ** The loop of main with its annotations *)

Section Loop.

Variable lanczos : Image -> Z -> Z -> Z -> Z -> Pixel.
Variable save_bytes : Image -> string -> option Z -> string.
Variable b64encode : string -> string.

(** One round of the loop, with the annotation. *)
Lemma loop_body_run
    (config : Config) (ow oh x_min x_max y_max : Z)
    (min_height max_height : Z)
    (label output_prefix image_ext pil_format : string) (jpg_quality : Z)
    (background obj_image : nat) (bg ob : Image) (w : World) :
  heap w !! background = Some bg ->
  heap w !! obj_image = Some ob ->
  has_placement config ow oh x_min x_max y_max ->
  limits_bounded x_min x_max y_max ->
  1 <= min_height <= max_height ->
  resizable min_height max_height ob ->
  exists out w',
    loop_body lanczos save_bytes b64encode config min_height max_height
      label output_prefix image_ext pil_format jpg_quality
      background obj_image w = Ok (out, w') /\
    (forall r image, heap w !! r = Some image -> heap w' !! r = Some image) /\
    heap w !! gen_result (out_generated out) = None /\
    picture_of w' bg out /\
    annotation_agrees w' label out /\
    file_name_of output_prefix image_ext out.
Proof.
  intros Hbg Hob Hcfg (Bx0 & Bx1 & By) Hh Hres.
  pose proof Hres as (HW & HH & Hmax & Hmin).
  destruct (generate_one_run lanczos config _ _ _ _ _ _ _ _ _ _ _ w
              Hbg Hob Hcfg Hh Hres)
    as (g & w1 & resized & E & Hinc & Hfresh & Hr & _ & Hw & _ & Hht & Hb
        & Hc & st & st' & Ecvp).
  destruct (gen_center g) as [cx cy] eqn:Hcen. cbn [fst snd] in *.
  assert (Hmaxh : max_height <= 2 ^ 50).
  { assert (1 * max_height <= width (pixels ob) * max_height)
      by (apply Z.mul_le_mono_nonneg_r; lia).
    lia. }
  assert (Hh0 : 0 <= height (pixels resized)) by lia.
  destruct (calculate_valid_position_bounded _ _ _ _ _ _ _ _ (2 ^ 51)
              _ _ _ _ Hcfg Hh0 Bx0 Bx1 By Ecvp) as [Hcx Hcy].
  pose proof (Z.div_mod (width (pixels resized)) 2 ltac:(lia)) as DW.
  pose proof (Z.mod_pos_bound (width (pixels resized)) 2 ltac:(lia)) as DW'.
  pose proof (Z.div_mod (height (pixels resized)) 2 ltac:(lia)) as DH.
  pose proof (Z.mod_pos_bound (height (pixels resized)) 2 ltac:(lia)) as DH'.
  unfold bounding_box in Hb.
  destruct (float_of_int_exact (cx - width (pixels resized) / 2)
              ltac:(lia)) as (l & El & Hl).
  destruct (float_of_int_exact (cy - height (pixels resized) / 2)
              ltac:(lia)) as (t & Et & Htt).
  destruct (float_of_int_exact
              (cx - width (pixels resized) / 2 + width (pixels resized))
              ltac:(lia)) as (r & Er & Hrr).
  destruct (float_of_int_exact
              (cy - height (pixels resized) / 2 + height (pixels resized))
              ltac:(lia)) as (b & Eb & Hbb).
  unfold loop_body. rewrite Prog_bind_unfold, E.
  rewrite Prog_bind_unfold. unfold with_random.
  destruct (generate_random_filename_run output_prefix 8 (random w1))
    as [En Hn].
  cbv zeta in En, Hn. rewrite En.
  set (w2 := mkWorld (heap w1) _).
  destruct (format_0d_spec 8 _ ltac:(lia) Hn) as (Hlen & Hall & _).
  clear Hn. set (number := format_0d 8 _) in *.
  set (composite := composite_value bg resized cx cy) in *.
  rewrite Prog_bind_unfold, (load_Some (gen_result g) composite w2)
    by exact Hc.
  rewrite Prog_bind_unfold. unfold lift, bbox_to_float. rewrite Hb.
  rewrite El, bind_Ok, Et, bind_Ok, Er, bind_Ok, Eb, bind_Ok.
  eexists _, w2. split; [reflexivity|].
  cbn [out_generated out_image_filename out_labelme].
  split; [exact Hinc|]. split; [exact Hfresh|].
  split; [|split].
  - exists composite. cbn [out_generated].
    split; [exact Hc|]. apply composite_value_size.
  - exists composite, resized, (cx - width (pixels resized) / 2),
      (cy - height (pixels resized) / 2),
      (cx - width (pixels resized) / 2 + width (pixels resized)),
      (cy - height (pixels resized) / 2 + height (pixels resized)),
      l, t, r, b.
    cbn [out_generated out_image_filename out_labelme create_labelme_json
         imageWidth imageHeight labelme_shapes imagePath].
    split; [exact Hc|]. split; [exact Hr|]. split; [exact Hb|].
    split; [clear; lia|]. split; [clear; lia|]. by repeat split.
  - exists number. cbn [out_image_filename]. by repeat split.
Qed.

(** The loop, by induction on the selected objects. *)
Lemma process_objects_run
    (config : Config) (ow oh x_min x_max y_max : Z)
    (min_height max_height : Z)
    (label output_prefix image_ext pil_format : string) (jpg_quality : Z)
    (background : nat) (bg : Image) (selected_objects : list nat)
    (w : World) :
  heap w !! background = Some bg ->
  has_placement config ow oh x_min x_max y_max ->
  limits_bounded x_min x_max y_max ->
  1 <= min_height <= max_height ->
  Forall (fun obj_image =>
            exists ob, heap w !! obj_image = Some ob /\
                       resizable min_height max_height ob)
         selected_objects ->
  exists outs w',
    process_objects lanczos save_bytes b64encode config min_height
      max_height label output_prefix image_ext pil_format jpg_quality
      background selected_objects w = Ok (outs, w') /\
    length outs = length selected_objects /\
    (forall r image, heap w !! r = Some image -> heap w' !! r = Some image) /\
    Forall (fun out =>
              heap w !! gen_result (out_generated out) = None /\
              picture_of w' bg out /\
              annotation_agrees w' label out /\
              file_name_of output_prefix image_ext out) outs /\
    NoDup ((fun out => gen_result (out_generated out)) <$> outs).
Proof.
  intros Hbg Hcfg Hlim Hh Hall. revert w Hbg Hall.
  induction selected_objects as [|o rest IH]; intros w Hbg Hall.
  - exists [], w. cbn [process_objects].
    split; [reflexivity|]. split; [reflexivity|].
    split; [auto|]. split; constructor.
  - apply Forall_cons in Hall as [(ob & Hob & Hres) Hrest].
    destruct (loop_body_run config _ _ _ _ _ min_height max_height
                label output_prefix image_ext pil_format jpg_quality
                background o bg ob w Hbg Hob Hcfg Hlim Hh Hres)
      as (out & w1 & E & Hinc & Hfresh & Hpic & Hann & Hname).
    assert (Hrest1 : Forall (fun obj_image =>
                       exists ob, heap w1 !! obj_image = Some ob /\
                                  resizable min_height max_height ob) rest).
    { eapply Forall_impl; [exact Hrest|].
      intros k (ob' & Hk & Hr'). exists ob'. split; [by apply Hinc | done]. }
    destruct (IH w1 (Hinc _ _ Hbg) Hrest1)
      as (outs & w' & E' & Hlen & Hinc' & Houts & Hnd).
    exists (out :: outs), w'. cbn [process_objects].
    rewrite Prog_bind_unfold, E, Prog_bind_unfold, E'.
    split; [reflexivity|].
    split; [cbn [length]; by rewrite Hlen|].
    split; [intros k image Hk; by apply Hinc', Hinc|].
    split.
    + apply Forall_cons. split.
      * split; [exact Hfresh|].
        destruct Hpic as (c & Hc1 & Hc2).
        destruct Hann as (c' & rs & x0 & y0 & x1 & y1 & l & t & r & b
                          & A1 & A2 & A).
        split; [exists c; split; [by apply Hinc' | exact Hc2]|].
        split; [|exact Hname].
        exists c', rs, x0, y0, x1, y1, l, t, r, b.
        split; [by apply Hinc'|]. split; [by apply Hinc' | exact A].
      * eapply Forall_impl; [exact Houts|].
        intros out' (Hnone & Hrest'). split; [|exact Hrest'].
        destruct (heap w !! gen_result (out_generated out'))
          as [image|] eqn:Hk; [|done].
        apply Hinc in Hk. congruence.
    + rewrite fmap_cons. apply NoDup_cons. split; [|exact Hnd].
      intros Hin. apply list_elem_of_fmap in Hin as (out' & Heq & Hin).
      rewrite Forall_forall in Houts.
      destruct (Houts out' Hin) as [Hnone _]. rewrite <- Heq in Hnone.
      destruct Hpic as (c & Hc1 & _). congruence.
Qed.

Lemma limits_in_range_bounded (x_min x_max y_max : Z) :
  limits_in_range x_min x_max y_max -> limits_bounded x_min x_max y_max.
Proof. unfold limits_in_range, limits_bounded. lia. Qed.



(** [random.choices] on a population that is not empty. *)
Lemma choices_run (population : list nat) (k : nat) (st : RandomState) :
  population <> [] ->
  exists selected st',
    choices population k st = Ok (selected, st') /\
    length selected = k /\
    Forall (fun o => o ∈ population) selected.
Proof.
  intros Hne. revert st. induction k as [|k IH]; intros st.
  - exists [], st. by repeat split.
  - cbn [choices].
    assert (Hlen : 0 < Z.of_nat (length population)).
    { destruct population; [done | cbn [length]; lia]. }
    pose proof (Z.mod_pos_bound (rs_stream st (rs_pos st)) _ Hlen) as Hi.
    set (i := Z.to_nat (rs_stream st (rs_pos st)
                         mod Z.of_nat (length population))) in *.
    destruct (lookup_lt_is_Some_2 population i ltac:(lia)) as [o Ho].
    unfold index. rewrite Ho, bind_Ok.
    destruct (IH (mkRandom (rs_stream st) (S (rs_pos st))))
      as (sel & st' & -> & Hl & Hin).
    rewrite bind_Ok. exists (o :: sel), st'.
    split; [reflexivity|]. split; [cbn [length]; by rewrite Hl|].
    apply Forall_cons. split; [by eapply list_elem_of_lookup_2 | exact Hin].
Qed.

(** The background is brought to the target size for all lengths below
    2^53. *)
Lemma crop_and_resize_to_target_Ok
    (image : Image) (target_width target_height : Z) :
  0 < width (pixels image) < 2 ^ 53 ->
  0 < height (pixels image) < 2 ^ 53 ->
  0 < target_width < 2 ^ 53 ->
  0 < target_height < 2 ^ 53 ->
  exists prepared,
    crop_and_resize_to_target lanczos image target_width target_height
      = Ok prepared /\
    size prepared = (target_width, target_height).
Proof.
  intros Hiw Hih HW HH. unfold crop_and_resize_to_target.
  destruct (int_truediv_spec target_width target_height HW HH)
    as (m1 & e1 & E1 & Hm1 & He1 & _).
  rewrite E1, bind_Ok. cbn [size].
  destruct (int_truediv_spec _ _ Hiw Hih) as (m2 & e2 & E2 & Hm2 & He2 & _).
  rewrite E2, bind_Ok.
  assert (Hcrop : forall box cropped,
            crop image box = Ok cropped ->
            exists prepared,
              (cropped' ← crop image box;
               resize lanczos cropped' (target_width, target_height))
                = Ok prepared /\
              size prepared = (target_width, target_height)).
  { intros box cropped ->. rewrite bind_Ok, resize_Ok by lia. eauto. }
  destruct (float_lt _ float_0_001).
  { rewrite resize_Ok by lia. eauto. }
  destruct (float_lt _ _).
  - destruct (float_of_int_spec _ Hih) as (mh & eh & Eh & Hmh & Heh & _).
    rewrite Eh, bind_Ok. unfold float_mul.
    destruct (SFmul_close mh m1 eh e1) as (m & e & E & _); try lia.
    rewrite E.
    destruct (int_of_float_spec m e) as (z & Ez & Hz & _).
    rewrite Ez, bind_Ok. eapply Hcrop. apply crop_Ok; lia.
  - destruct (float_of_int_spec _ Hiw) as (mw & ew & Ew & Hmw & Hew & _).
    rewrite Ew, bind_Ok.
    destruct (float_truediv_spec mw m1 ew e1) as (m & e & E & _); try lia.
    rewrite E, bind_Ok.
    destruct (int_of_float_spec m e) as (z & Ez & Hz & _).
    rewrite Ez, bind_Ok. eapply Hcrop. apply crop_Ok; lia.
Qed.

(** One background, step by step. *)
Lemma process_background_run
    (config : Config) (x_min x_max y_max : Z)
    (duplicate_count min_height max_height : Z)
    (target_width target_height : Z)
    (label output_prefix image_ext pil_format : string) (jpg_quality : Z)
    (opened : nat) (image : Image) (object_files : list nat) (w : World) :
  heap w !! opened = Some image ->
  0 < width (pixels image) < 2 ^ 53 ->
  0 < height (pixels image) < 2 ^ 53 ->
  0 < target_width < 2 ^ 53 -> 0 < target_height < 2 ^ 53 ->
  has_placement config target_width target_height x_min x_max y_max ->
  limits_bounded x_min x_max y_max ->
  1 <= min_height <= max_height ->
  object_files <> [] ->
  Forall (fun obj_image =>
            exists ob, heap w !! obj_image = Some ob /\
                       resizable min_height max_height ob)
         object_files ->
  exists background outs w',
    process_background lanczos save_bytes b64encode config duplicate_count
      min_height max_height target_width target_height
      label output_prefix image_ext pil_format jpg_quality
      opened object_files w = Ok ((background, outs), w') /\
    length outs = Z.to_nat duplicate_count /\
    (forall r img, heap w !! r = Some img -> heap w' !! r = Some img) /\
    Forall (output_of_size w' target_width target_height) outs.
Proof.
  intros Hop Hiw Hih HW HH Hcfg Hlim Hh Hne Hall.
  unfold process_background.
  rewrite Prog_bind_unfold, (load_Some opened image w) by exact Hop.
  destruct (crop_and_resize_to_target_Ok image target_width target_height
              Hiw Hih HW HH) as (prepared & Ep & Hsz).
  rewrite Prog_bind_unfold. unfold lift. rewrite Ep.
  destruct (alloc_fresh prepared w) as (bgr & Ea & Hfresh).
  rewrite Prog_bind_unfold, Ea.
  set (w1 := mkWorld (<[bgr := prepared]> (heap w)) (random w)).
  rewrite Prog_bind_unfold. unfold with_random.
  destruct (choices_run object_files (Z.to_nat duplicate_count) (random w1)
              Hne) as (sel & st' & -> & Hlen & Hin).
  set (w2 := mkWorld (heap w1) st').
  assert (Hinc : forall k img,
            heap w !! k = Some img -> heap w2 !! k = Some img).
  { intros k img Hk. simpl.
    rewrite lookup_insert_ne; [done|]. intros ->. congruence. }
  assert (Hbg : heap w2 !! bgr = Some prepared) by apply lookup_insert_eq.
  assert (Hsel : Forall (fun obj_image =>
                   exists ob, heap w2 !! obj_image = Some ob /\
                              resizable min_height max_height ob) sel).
  { rewrite Forall_forall in Hall. eapply Forall_impl; [exact Hin|].
    intros o Ho. destruct (Hall o Ho) as (ob & Hob & Hres).
    exists ob. split; [by apply Hinc | done]. }
  destruct (process_objects_run config _ _ _ _ _ min_height max_height
              label output_prefix image_ext pil_format jpg_quality
              bgr prepared sel w2 Hbg Hcfg Hlim Hh Hsel)
    as (outs & w' & E & Hlen' & Hinc' & Houts & _).
  rewrite Prog_bind_unfold, E.
  exists bgr, outs, w'. split; [reflexivity|].
  split; [by rewrite Hlen', Hlen|].
  split; [intros k img Hk; by apply Hinc', Hinc|].
  eapply Forall_impl; [exact Houts|].
  intros out (_ & (c & Hc & Hcs & Hcm) & Hann & _).
  exists c. split; [exact Hc|]. rewrite Hcs, Hsz.
  split; [reflexivity|]. split; [exact Hcm|].
  destruct Hann as (c' & rs & x0 & y0 & x1 & y1 & l & t & r & b
                    & A1 & _ & _ & _ & _ & AW & AH & _).
  rewrite Hc in A1. injection A1 as <-.
  rewrite Hsz in Hcs. unfold size in Hcs. injection Hcs as Hw' Hh'.
  rewrite AW, AH. by split.
Qed.

(** All backgrounds, by induction on their list. *)
Lemma process_backgrounds_run
    (config : Config) (x_min x_max y_max : Z)
    (duplicate_count min_height max_height : Z)
    (target_width target_height : Z)
    (label output_prefix image_ext pil_format : string) (jpg_quality : Z)
    (background_files object_files : list nat) (w : World) :
  Forall (fun opened =>
            exists image, heap w !! opened = Some image /\
                          0 < width (pixels image) < 2 ^ 53 /\
                          0 < height (pixels image) < 2 ^ 53)
         background_files ->
  0 < target_width < 2 ^ 53 -> 0 < target_height < 2 ^ 53 ->
  has_placement config target_width target_height x_min x_max y_max ->
  limits_bounded x_min x_max y_max ->
  1 <= min_height <= max_height ->
  object_files <> [] ->
  Forall (fun obj_image =>
            exists ob, heap w !! obj_image = Some ob /\
                       resizable min_height max_height ob)
         object_files ->
  exists outs w',
    process_backgrounds lanczos save_bytes b64encode config duplicate_count
      min_height max_height target_width target_height
      label output_prefix image_ext pil_format jpg_quality
      background_files object_files w = Ok (outs, w') /\
    length outs
      = (length background_files * Z.to_nat duplicate_count)%nat /\
    (forall r img, heap w !! r = Some img -> heap w' !! r = Some img) /\
    Forall (output_of_size w' target_width target_height) outs.
Proof.
  intros Hbgs HW HH Hcfg Hlim Hh Hne Hall. revert w Hbgs Hall.
  induction background_files as [|opened rest IH]; intros w Hbgs Hall.
  - exists [], w. cbn [process_backgrounds].
    split; [reflexivity|]. split; [reflexivity|]. split; [auto|].
    constructor.
  - apply Forall_cons in Hbgs as [(image & Hop & Hiw & Hih) Hrest].
    destruct (process_background_run config x_min x_max y_max
                duplicate_count min_height max_height target_width
                target_height label output_prefix image_ext pil_format
                jpg_quality opened image object_files w
                Hop Hiw Hih HW HH Hcfg Hlim Hh Hne Hall)
      as (background & outs & w1 & E & Hlen & Hinc & Houts).
    assert (Hrest1 : Forall (fun opened =>
                       exists image, heap w1 !! opened = Some image /\
                         0 < width (pixels image) < 2 ^ 53 /\
                         0 < height (pixels image) < 2 ^ 53) rest).
    { eapply Forall_impl; [exact Hrest|].
      intros k (img & Hk & Hsz). exists img. split; [by apply Hinc | done]. }
    assert (Hall1 : Forall (fun obj_image =>
                      exists ob, heap w1 !! obj_image = Some ob /\
                                 resizable min_height max_height ob)
                      object_files).
    { eapply Forall_impl; [exact Hall|].
      intros k (ob & Hk & Hr). exists ob. split; [by apply Hinc | done]. }
    destruct (IH w1 Hrest1 Hall1)
      as (more & w' & E' & Hlen' & Hinc' & Hmore).
    exists (outs ++ more), w'. cbn [process_backgrounds].
    rewrite Prog_bind_unfold, E, Prog_bind_unfold, E'.
    split; [reflexivity|].
    split; [rewrite length_app, Hlen, Hlen'; cbn [length]; lia|].
    split; [intros k img Hk; by apply Hinc', Hinc|].
    apply Forall_app. split; [|exact Hmore].
    eapply Forall_impl; [exact Houts|].
    intros out (c & Hc & Hrest').
    exists c. split; [by apply Hinc' | exact Hrest'].
Qed.

Lemma pillow_size_float (w h : Z) :
  pillow_size w h -> 0 < w < 2 ^ 53 /\ 0 < h < 2 ^ 53.
Proof. intros H. apply pillow_size_sides in H. lia. Qed.

Lemma in_range_resizable
    (min_height max_height : Z) (objects : list nat) (w : World) :
  Forall (fun obj_image =>
            exists ob, heap w !! obj_image = Some ob /\
                       resizable min_height max_height ob /\
                       resize_in_range max_height ob) objects ->
  Forall (fun obj_image =>
            exists ob, heap w !! obj_image = Some ob /\
                       resizable min_height max_height ob) objects.
Proof.
  intros Hall. eapply Forall_impl; [exact Hall|].
  intros k (ob & Hk & Hr & _). by exists ob.
Qed.



End Loop.

Lemma sample_limits_bounded : limits_bounded 1 3 2.
Proof. unfold limits_bounded. lia. Qed.

Lemma sample_selected_resizable :
  Forall (fun obj_image =>
            exists ob, heap sample_world !! obj_image = Some ob /\
                       resizable 2 3 ob) [1%nat; 1%nat].
Proof.
  repeat constructor;
    (exists sample_object; split;
       [reflexivity | exact sample_object_resizable]).
Qed.

Lemma sample_selected_in_range :
  Forall (fun obj_image =>
            exists ob, heap sample_world !! obj_image = Some ob /\
                       resizable 2 3 ob /\ resize_in_range 3 ob)
         [1%nat; 1%nat].
Proof.
  repeat constructor;
    (exists sample_object; split;
       [reflexivity
       | split; [exact sample_object_resizable
                | exact sample_object_in_range]]).
Qed.



Lemma sample_object_files_in_range :
  Forall (fun obj_image =>
            exists ob, heap sample_world !! obj_image = Some ob /\
                       resizable 2 3 ob /\ resize_in_range 3 ob) [1%nat].
Proof.
  repeat constructor.
  exists sample_object. split; [reflexivity|].
  split; [exact sample_object_resizable | exact sample_object_in_range].
Qed.


Lemma sample_background_files :
  Forall (fun opened =>
            exists image, heap sample_world !! opened = Some image /\
                          pillow_size (width (pixels image))
                            (height (pixels image)))
         [0%nat; 0%nat].
Proof.
  repeat constructor;
    (exists sample_background; split;
       [reflexivity | exact sample_background_size]).
Qed.


(** ** crop_objects.main: paths *)

Lemma components_go_nonempty (p cur : string) : components_go p cur <> [].
Proof.
  revert cur. induction p as [|c p IH]; intros cur; cbn [components_go].
  - discriminate.
  - destruct (Ascii.eqb c slash); [discriminate | apply IH].
Qed.

Lemma components_go_noslash (b cur : string) :
  has_slash b = false -> components_go b cur = [cur +:+ b].
Proof.
  revert cur. induction b as [|c b IH]; intros cur Hb.
  - cbn [components_go]. by rewrite str_app_nil_r.
  - cbn [has_slash] in Hb. apply orb_false_elim in Hb as [Hc Hb].
    cbn [components_go]. rewrite Hc, IH by exact Hb.
    by rewrite str_app_assoc.
Qed.

(** Appending a name without a slash extends the last component. *)
Lemma components_go_app (a b cur : string) :
  has_slash b = false ->
  components_go (a +:+ b) cur
    = removelast (components_go a cur)
      ++ [default "" (last (components_go a cur)) +:+ b].
Proof.
  intros Hb. revert cur. induction a as [|c a IH]; intros cur.
  - rewrite str_app_nil_l, components_go_noslash by exact Hb. reflexivity.
  - rewrite str_app_cons. cbn [components_go].
    destruct (Ascii.eqb c slash).
    + rewrite IH.
      pose proof (components_go_nonempty a "") as Hne.
      destruct (components_go a "") as [|x l] eqn:E; [done|].
      reflexivity.
    + apply IH.
Qed.

Lemma components_go_trailing (x cur : string) :
  last (components_go (x +:+ "/") cur) = Some "".
Proof.
  revert cur. induction x as [|c x IH]; intros cur.
  - reflexivity.
  - rewrite str_app_cons. cbn [components_go].
    destruct (Ascii.eqb c slash).
    + pose proof (components_go_nonempty (x +:+ "/") "") as Hne.
      specialize (IH "").
      destruct (components_go (x +:+ "/") "") as [|y l]; [done|].
      exact IH.
    + apply IH.
Qed.

Lemma has_slash_startswith (f : string) :
  has_slash f = false -> startswith f "/" = false.
Proof.
  destruct f as [|c f]; [done|]. cbn [has_slash]. intros Hf.
  apply orb_false_elim in Hf as [Hc _].
  unfold startswith. cbn [String.prefix].
  destruct (Ascii.ascii_dec _ c) as [Heq | Hne]; [|done].
  subst c. vm_compute in Hc. discriminate Hc.
Qed.

(** [os.path.join(d, "")] is empty or ends with a slash. *)
Lemma join_empty_shape (d : string) :
  join d "" = "" \/ exists x, join d "" = x +:+ "/".
Proof.
  unfold join. change (startswith "" "/") with false. cbn match.
  destruct (String.eqb_spec d "") as [-> | Hne]; [by left|].
  cbn [orb]. destruct (endswith d "/") eqn:E.
  - right. apply endswith_spec in E as (stem & ->).
    exists stem. by rewrite str_app_nil_r.
  - right. exists d. reflexivity.
Qed.

(** The name of a joined path is the file name that was joined. *)
Lemma path_name_join (d f : string) :
  file_name f -> path_name (join d f) = f.
Proof.
  intros (Hne & Hdot & Hs).
  rewrite join_relative by (by apply has_slash_startswith).
  unfold path_name.
  assert (Hlast : exists l, components_go (join d "" +:+ f) "" = l ++ [f]).
  { destruct (join_empty_shape d) as [-> | (x & ->)].
    - rewrite str_app_nil_l, components_go_noslash by exact Hs.
      by exists [].
    - rewrite components_go_app, components_go_trailing by exact Hs.
      eexists. reflexivity. }
  destruct Hlast as (l & ->).
  rewrite filter_app, filter_cons, decide_True by done.
  rewrite filter_nil, last_snoc. reflexivity.
Qed.

(** ** crop_objects.main: the loop *)

(** [crop_to_content] on a well-formed image: no exception, a well-formed
    RGBA image that is not larger, and not empty unless the input is. *)
Lemma crop_to_content_run (image : Image) (padding : Z) :
  image_wf image ->
  exists cropped messages,
    crop_to_content image padding = Ok (cropped, messages) /\
    image_wf cropped /\ mode cropped = RGBA /\
    0 <= width (pixels cropped) <= width (pixels image) /\
    0 <= height (pixels cropped) <= height (pixels image) /\
    (0 < width (pixels image) * height (pixels image) ->
     0 < width (pixels cropped) /\ 0 < height (pixels cropped)).
Proof.
  intros Hwf. pose proof Hwf as (Hw0 & Hh0 & _).
  pose proof (coerced_size image) as Hs. unfold size in Hs.
  injection Hs as Hw Hh.
  rewrite crop_to_content_eq.
  destruct (getbbox (alpha_band (coerced image)))
    as [[[[a b] c] d]|] eqn:E.
  - pose proof (getbbox_inside _ _ _ _ _ E) as (Ha & Hc & Hb & Hd).
    unfold alpha_band in Hc, Hd; simpl in Hc, Hd.
    destruct (add_padding_bounds (coerced image) padding a b c d)
      as (x0 & y0 & x1 & y1 & Ep & Hx0 & Hx1 & Hy0 & Hy1 & _); try done.
    rewrite Ep, crop_Ok by lia. rewrite bind_Ok.
    do 2 eexists. split; [reflexivity|].
    split; [apply raster_make_wf; lia|].
    split; [apply coerced_mode|].
    cbn [pixels width height raster_make]. lia.
  - do 2 eexists. split; [reflexivity|].
    split; [by apply coerced_wf|]. split; [apply coerced_mode|].
    rewrite Hw, Hh. nia.
Qed.

Lemma reduction_percent_Ok (original_pixels new_pixels : Z) :
  original_pixels < 2 ^ 53 ->
  (0 < original_pixels -> 0 < new_pixels <= original_pixels) ->
  exists reduction, reduction_percent original_pixels new_pixels
                    = Ok reduction.
Proof.
  intros Hb Hn. unfold reduction_percent.
  destruct (Z.ltb_spec 0 original_pixels) as [Hpos|_]; [|eauto].
  destruct (int_truediv_spec new_pixels original_pixels)
    as (m & e & -> & _); try lia.
  rewrite bind_Ok.
  destruct (float_of_int_spec 1 ltac:(lia)) as (m1 & e1 & -> & _).
  rewrite bind_Ok.
  destruct (float_of_int_spec 100 ltac:(lia)) as (m2 & e2 & -> & _).
  rewrite bind_Ok. eauto.
Qed.

Section CropLoop.

Variable output_dir : string.
Variable padding : Z.

(** One round of the loop on a picture that is there. *)
Lemma crop_file_run (pictures : Pictures) (obj_path : string)
    (image : Image) :
  pictures !! obj_path = Some image ->
  croppable image ->
  exists cropped messages report,
    crop_to_content image padding = Ok (cropped, messages) /\
    crop_file output_dir padding pictures obj_path
      = inr (<[join output_dir (path_name obj_path) := cropped]> pictures,
             report) /\
    croppable cropped /\ mode cropped = RGBA /\
    report_filename report = path_name obj_path /\
    report_original_size report = size image /\
    report_new_size report = size cropped.
Proof.
  intros Hp [Hwf Hpx].
  destruct (crop_to_content_run image padding Hwf)
    as (cropped & msgs & E & Hcwf & Hm & Hcw & Hch & Hpos).
  assert (Hle : width (pixels cropped) * height (pixels cropped)
                <= width (pixels image) * height (pixels image)) by nia.
  destruct (reduction_percent_Ok
              (width (pixels image) * height (pixels image))
              (width (pixels cropped) * height (pixels cropped)) Hpx)
    as (reduction & Er); [intros H0; specialize (Hpos H0); nia|].
  exists cropped, msgs. eexists. split; [exact E|].
  unfold crop_file. rewrite Hp, E. cbn [size fst snd]. rewrite Er.
  split; [reflexivity|]. split; [split; [exact Hcwf | lia]|].
  by repeat split.
Qed.

(** The loop, for paths whose results do not land on an input that is
    still to be read, nor twice on the same path. *)
Lemma crop_loop_run (pictures0 : Pictures) (object_files : list string) :
  NoDup object_files ->
  (forall p q, p ∈ object_files -> q ∈ object_files ->
     join output_dir (path_name p) = join output_dir (path_name q) ->
     p = q) ->
  (forall p q, p ∈ object_files -> q ∈ object_files -> p <> q ->
     join output_dir (path_name p) <> q) ->
  (forall p, p ∈ object_files ->
     exists image, pictures0 !! p = Some image /\ croppable image) ->
  forall pictures,
    (forall p, p ∈ object_files -> pictures !! p = pictures0 !! p) ->
    exists pictures' reports,
      crop_loop output_dir padding pictures object_files
        = inr (pictures', reports) /\
      report_filename <$> reports = path_name <$> object_files /\
      (forall k,
         k ∉ (fun p => join output_dir (path_name p)) <$> object_files ->
         pictures' !! k = pictures !! k) /\
      (forall p, p ∈ object_files ->
         exists image cropped messages,
           pictures0 !! p = Some image /\
           crop_to_content image padding = Ok (cropped, messages) /\
           croppable cropped /\ mode cropped = RGBA /\
           pictures' !! join output_dir (path_name p) = Some cropped).
Proof.
  induction object_files as [|p rest IH];
    intros Hnd Hinj Hsep Hpics pictures Hagree.
  - exists pictures, []. cbn [crop_loop].
    split; [reflexivity|]. split; [reflexivity|]. split; [auto|].
    intros p Hp. by apply not_elem_of_nil in Hp.
  - apply NoDup_cons in Hnd as [Hp Hnd].
    destruct (Hpics p ltac:(left)) as (image & Hp0 & Hcr).
    assert (Hpp : pictures !! p = Some image).
    { rewrite Hagree by left. exact Hp0. }
    destruct (crop_file_run pictures p image Hpp Hcr)
      as (cropped & msgs & report & Ec & Ef & Hcc & Hcm & Hrf & _).
    set (pictures1 := <[join output_dir (path_name p) := cropped]> pictures)
      in *.
    assert (Hagree1 : forall q, q ∈ rest -> pictures1 !! q = pictures0 !! q).
    { intros q Hq. unfold pictures1.
      rewrite lookup_insert_ne.
      - apply Hagree. by right.
      - apply Hsep; [left | by right |]. intros ->. done. }
    destruct (IH Hnd
                (fun a b Ha Hb => Hinj a b (list_elem_of_further _ _ _ Ha)
                                            (list_elem_of_further _ _ _ Hb))
                (fun a b Ha Hb => Hsep a b (list_elem_of_further _ _ _ Ha)
                                            (list_elem_of_further _ _ _ Hb))
                (fun a Ha => Hpics a (list_elem_of_further _ _ _ Ha))
                pictures1 Hagree1)
      as (pictures' & reports & E & Hnames & Hframe & Hres).
    exists pictures', (report :: reports). cbn [crop_loop].
    rewrite Ef, E. split; [reflexivity|].
    split; [by rewrite !fmap_cons, Hrf, Hnames|].
    assert (Hout : join output_dir (path_name p)
                   ∉ (fun q => join output_dir (path_name q)) <$> rest).
    { intros Hin. apply list_elem_of_fmap in Hin as (q & Heq & Hq).
      assert (p = q) by (apply Hinj; [left | by right | done]).
      subst q. done. }
    split.
    + intros k Hk. rewrite fmap_cons in Hk.
      apply not_elem_of_cons in Hk as [Hk1 Hk2].
      rewrite Hframe by exact Hk2. unfold pictures1.
      by rewrite lookup_insert_ne.
    + intros q Hq. apply elem_of_cons in Hq as [-> | Hq].
      * exists image, cropped, msgs. split; [exact Hp0|].
        split; [exact Ec|]. split; [exact Hcc|]. split; [exact Hcm|].
        rewrite Hframe by exact Hout. apply lookup_insert_eq.
      * by apply Hres.
Qed.

End CropLoop.

(** The paths [get_image_files] returns for a listing of distinct file
    names. *)
Lemma get_image_files_run
    (fs : FileSystem) (directory : string) (extensions names : list string) :
  fs !! directory = Some (Directory names) ->
  NoDup names ->
  Forall file_name names ->
  exists files,
    get_image_files fs directory extensions = inr files /\
    NoDup files /\
    forall p,
      p ∈ files <->
      exists f, f ∈ names /\ endswith_any (lower f) extensions = true /\
                p = join directory f.
Proof.
  intros Hd Hnd Hnames. unfold get_image_files. rewrite Hd.
  eexists. split; [reflexivity|].
  rewrite get_image_files_loop_eq, app_nil_l.
  set (sel := filter (fun f => endswith_any (lower f) extensions = true)
                     names).
  assert (Hsub : forall f, f ∈ sel -> f ∈ names)
    by (intros f Hf; by apply list_elem_of_filter in Hf as [_ ?]).
  assert (Heq : join directory <$> sel
                = (String.app (join directory "")) <$> sel).
  { apply list_fmap_ext. intros i f Hf. apply join_relative.
    rewrite Forall_forall in Hnames.
    destruct (Hnames f) as (_ & _ & Hs).
    - by eapply Hsub, list_elem_of_lookup_2.
    - by apply has_slash_startswith. }
  split.
  - rewrite Heq. apply NoDup_fmap_2; [apply _|]. by apply NoDup_filter.
  - intros p. rewrite list_elem_of_fmap. split.
    + intros (f & -> & Hf). apply list_elem_of_filter in Hf as [Hm Hf].
      by exists f.
    + intros (f & Hf & Hm & ->). exists f. split; [done|].
      by apply list_elem_of_filter.
Qed.



(** ** crop_objects.main: a second run *)

(** A box that holds every pixel of non-zero alpha and has such a pixel
    on each of its four border lines is the content box. *)
Lemma getbbox_intro (image : Image) (x0 y0 x1 y1 : Z) :
  image_wf image ->
  0 <= x0 < x1 -> x1 <= width (pixels image) ->
  0 <= y0 < y1 -> y1 <= height (pixels image) ->
  (forall u v,
     0 <= u < width (pixels image) -> 0 <= v < height (pixels image) ->
     (0 < opacity image u v)%N -> x0 <= u < x1 /\ y0 <= v < y1) ->
  (exists v, 0 <= v < height (pixels image) /\ (0 < opacity image x0 v)%N) ->
  (exists v, 0 <= v < height (pixels image) /\
             (0 < opacity image (x1 - 1) v)%N) ->
  (exists u, 0 <= u < width (pixels image) /\ (0 < opacity image u y0)%N) ->
  (exists u, 0 <= u < width (pixels image) /\
             (0 < opacity image u (y1 - 1))%N) ->
  getbbox (alpha_band (coerced image)) = Some (x0, y0, x1, y1).
Proof.
  intros Hwf Hx0 Hx1 Hy0 Hy1 Hall (v1 & Hv1 & O1) (v2 & Hv2 & O2)
    (u1 & Hu1 & O3) (u2 & Hu2 & O4).
  pose proof (coerced_size image) as Hs. unfold size in Hs.
  injection Hs as Hw Hh.
  assert (Hwb : width (alpha_band (coerced image)) = width (pixels image))
    by exact Hw.
  assert (Hhb : height (alpha_band (coerced image)) = height (pixels image))
    by exact Hh.
  assert (Hnz : forall u v,
            0 <= u < width (pixels image) -> 0 <= v < height (pixels image) ->
            raster_get 0%N (alpha_band (coerced image)) u v <> 0%N <->
            (0 < opacity image u v)%N).
  { intros u v Hu Hv. rewrite coerced_opacity by done.
    split; intros Ho; by apply N.neq_0_lt_0. }
  assert (Hcol : forall u, 0 <= u < width (pixels image) ->
            column_has_data (alpha_band (coerced image)) u = true <->
            exists v, 0 <= v < height (pixels image) /\
                      (0 < opacity image u v)%N).
  { intros u Hu. rewrite column_has_data_spec, Hhb. split.
    - intros (v & Hv & Hne). exists v. split; [done|]. by apply Hnz.
    - intros (v & Hv & Ho). exists v. split; [done|]. by apply Hnz. }
  assert (Hrow : forall v, 0 <= v < height (pixels image) ->
            row_has_data (alpha_band (coerced image)) v = true <->
            exists u, 0 <= u < width (pixels image) /\
                      (0 < opacity image u v)%N).
  { intros v Hv. rewrite row_has_data_spec, Hwb. split.
    - intros (u & Hu & Hne). exists u. split; [done|]. by apply Hnz.
    - intros (u & Hu & Ho). exists u. split; [done|]. by apply Hnz. }
  apply getbbox_Some. rewrite Hwb, Hhb. split.
  - split; [apply Hcol; [lia | eauto]|].
    split; [apply Hcol; [lia | eauto]|].
    split; [lia|]. split; [lia|].
    intros z Hz Hd. apply Hcol in Hd as (v & Hv & Ho); [|done].
    destruct (Hall z v Hz Hv Ho). lia.
  - split; [apply Hrow; [lia | eauto]|].
    split; [apply Hrow; [lia | eauto]|].
    split; [lia|]. split; [lia|].
    intros z Hz Hd. apply Hrow in Hd as (u & Hu & Ho); [|done].
    destruct (Hall u z Hu Hz Ho). lia.
Qed.

(** What [crop_to_content] returns for padding 0 is a fixed point of
    it. *)
Lemma crop_to_content_fixpoint
    (image cropped : Image) (messages : list string) :
  image_wf image ->
  crop_to_content image 0 = Ok (cropped, messages) ->
  exists messages', crop_to_content cropped 0 = Ok (cropped, messages').
Proof.
  intros Hwf E. rewrite crop_to_content_eq in E.
  pose proof (coerced_wf image Hwf) as Hcwf.
  pose proof (coerced_size image) as Hs. unfold size in Hs.
  injection Hs as Hw Hh.
  destruct (getbbox (alpha_band (coerced image)))
    as [[[[a b] c] d]|] eqn:Eb.
  - pose proof (getbbox_inside _ _ _ _ _ Eb) as (Ha & Hc & Hb & Hd).
    unfold alpha_band in Hc, Hd; simpl in Hc, Hd.
    rewrite Hw in Hc. rewrite Hh in Hd.
    destruct (getbbox_content image a b c d Hwf Eb)
      as (Hall & (v1 & Hv1 & O1) & (v2 & Hv2 & O2)
          & (u1 & Hu1 & O3) & (u2 & Hu2 & O4)).
    rewrite add_padding_zero, crop_Ok, bind_Ok in E by lia.
    injection E as <- _. rewrite coerced_mode.
    set (cropped := mkImage RGBA _).
    assert (Hwfc : image_wf cropped) by (apply raster_make_wf; lia).
    assert (Hop : forall u v, 0 <= u < c - a -> 0 <= v < d - b ->
              opacity cropped u v = opacity image (u + a) (v + b)).
    { intros u v Hu Hv. unfold opacity at 1, getpixel at 1.
      cbn [cropped mode pixels to_rgba]. rewrite raster_get_make by lia.
      unfold opacity, coerced.
      rewrite (coerced_getpixel image (u + a) (v + b)) by (done || lia).
      reflexivity. }
    assert (Hbox : getbbox (alpha_band (coerced cropped))
                   = Some (0, 0, c - a, d - b)).
    { apply getbbox_intro; cbn [cropped pixels raster_make width height];
        try done; try lia.
      - destruct (Hall a v1 ltac:(lia) Hv1 O1) as [_ Hin].
        exists (v1 - b). split; [lia|]. rewrite Hop by lia.
        by replace (0 + a) with a by lia;
           replace (v1 - b + b) with v1 by lia.
      - destruct (Hall (c - 1) v2 ltac:(lia) Hv2 O2) as [_ Hin].
        exists (v2 - b). split; [lia|]. rewrite Hop by lia.
        by replace (c - a - 1 + a) with (c - 1) by lia;
           replace (v2 - b + b) with v2 by lia.
      - destruct (Hall u1 b Hu1 ltac:(lia) O3) as [Hin _].
        exists (u1 - a). split; [lia|]. rewrite Hop by lia.
        by replace (0 + b) with b by lia;
           replace (u1 - a + a) with u1 by lia.
      - destruct (Hall u2 (d - 1) Hu2 ltac:(lia) O4) as [Hin _].
        exists (u2 - a). split; [lia|]. rewrite Hop by lia.
        by replace (d - b - 1 + b) with (d - 1) by lia;
           replace (u2 - a + a) with u2 by lia. }
    assert (Hcc : coerced cropped = cropped) by (by apply coerced_RGBA).
    exists []. rewrite crop_to_content_eq, Hbox, add_padding_zero, Hcc.
    change (c - a) with (width (pixels cropped)).
    change (d - b) with (height (pixels cropped)).
    by rewrite crop_full.
  - injection E as <- _.
    assert (Hcc : coerced (coerced image) = coerced image)
      by (apply coerced_RGBA, coerced_mode).
    eexists. rewrite crop_to_content_eq, Hcc, Eb. reflexivity.
Qed.

(** X26.  A second run of the loop in overwrite mode with padding 0
    changes nothing: after the first run every PNG file of the listing
    holds an image that [crop_to_content] returns as it is, so the second
    run writes back what it reads. *)
Theorem crop_loop_second_run_changes_nothing
    (fs : FileSystem) (pictures : Pictures) (input_dir : string)
    (names : list string) :
  fs !! input_dir = Some (Directory names) ->
  NoDup names ->
  Forall file_name names ->
  (forall f, f ∈ names -> endswith_any (lower f) [".png"] = true ->
     exists image,
       pictures !! join input_dir f = Some image /\ croppable image) ->
  exists object_files pictures' reports reports',
    get_image_files fs input_dir [".png"] = inr object_files /\
    crop_loop input_dir 0 pictures object_files = inr (pictures', reports) /\
    crop_loop input_dir 0 pictures' object_files
      = inr (pictures', reports').
Proof.
  intros Hd Hnd Hnames Hpics.
  destruct (get_image_files_run fs input_dir [".png"] names Hd Hnd Hnames)
    as (files & Eg & Hfnd & Hfiles).
  assert (Hout : forall p, p ∈ files ->
            join input_dir (path_name p) = p).
  { intros p Hp. apply Hfiles in Hp as (f & Hf & _ & ->).
    rewrite path_name_join; [done|].
    rewrite Forall_forall in Hnames. by apply Hnames. }
  assert (Hinj : forall p q, p ∈ files -> q ∈ files ->
            join input_dir (path_name p) = join input_dir (path_name q) ->
            p = q).
  { intros p q Hp Hq. by rewrite (Hout p Hp), (Hout q Hq). }
  assert (Hsep : forall p q, p ∈ files -> q ∈ files -> p <> q ->
            join input_dir (path_name p) <> q).
  { intros p q Hp Hq Hne. by rewrite (Hout p Hp). }
  destruct (crop_loop_run input_dir 0 pictures files Hfnd Hinj Hsep)
    with (pictures := pictures)
    as (pictures' & reports & E & _ & Hframe & Hres).
  { intros p Hp. apply Hfiles in Hp as (f & Hf & Hm & ->). by apply Hpics. }
  { done. }
  destruct (crop_loop_run input_dir 0 pictures' files Hfnd Hinj Hsep)
    with (pictures := pictures')
    as (pictures'' & reports' & E' & _ & Hframe' & Hres').
  { intros p Hp.
    destruct (Hres p Hp) as (image & cropped & msgs & _ & _ & Hc & _ & Hl).
    rewrite (Hout p Hp) in Hl. by exists cropped. }
  { done. }
  assert (Heq : pictures'' = pictures').
  { apply map_eq. intros k.
    destruct (decide (k ∈ files)) as [Hk | Hk].
    - destruct (Hres k Hk)
        as (image & cropped & msgs & H1 & H2 & _ & _ & H3).
      destruct (Hres' k Hk)
        as (image' & cropped' & msgs' & H1' & H2' & _ & _ & H3').
      rewrite (Hout k Hk) in H3, H3'.
      rewrite H3 in H1'. injection H1' as <-.
      assert (Hwf : image_wf image).
      { apply Hfiles in Hk as (f & Hf & Hm & ->).
        destruct (Hpics f Hf Hm) as (image0 & Hi & [Hwf0 _]).
        rewrite Hi in H1. by injection H1 as <-. }
      destruct (crop_to_content_fixpoint image cropped msgs Hwf H2)
        as (msgs'' & Hfix).
      rewrite Hfix in H2'. injection H2' as <- _.
      by rewrite H3, H3'.
    - apply Hframe'. intros Hin.
      apply list_elem_of_fmap in Hin as (q & -> & Hq).
      by rewrite (Hout q Hq) in Hk. }
  exists files, pictures', reports, reports'.
  split; [exact Eg|]. split; [exact E|]. by rewrite <- Heq at 2.
Qed.

Lemma sample_fs_listing :
  sample_fs !! "data/objects"
    = Some (Directory ["cat.png"; "DOG.PNG"; "notes.txt"; "bird.Png"; "png"]).
Proof. reflexivity. Qed.

Lemma sample_names_NoDup :
  NoDup ["cat.png"; "DOG.PNG"; "notes.txt"; "bird.Png"; "png"].
Proof. apply (bool_decide_unpack (NoDup _)). vm_compute. exact I. Qed.

Lemma sample_names_file_names :
  Forall file_name ["cat.png"; "DOG.PNG"; "notes.txt"; "bird.Png"; "png"].
Proof. repeat constructor; discriminate. Qed.

Lemma sample_pictures_present (f : string) :
  f ∈ ["cat.png"; "DOG.PNG"; "notes.txt"; "bird.Png"; "png"] ->
  endswith_any (lower f) [".png"] = true ->
  exists image,
    sample_pictures !! join "data/objects" f = Some image /\
    croppable image.
Proof.
  intros Hf Hsel.
  repeat (apply elem_of_cons in Hf as [-> | Hf]).
  - exists sample_cutout. split; [reflexivity|].
    split; [exact sample_cutout_wf | simpl; lia].
  - exists sample_transparent. split; [reflexivity|].
    split; [exact sample_transparent_wf | simpl; lia].
  - vm_compute in Hsel. discriminate.
  - exists sample_object. split; [reflexivity|].
    split; [exact sample_object_wf | simpl; lia].
  - vm_compute in Hsel. discriminate.
  - by apply not_elem_of_nil in Hf.
Qed.

Lemma sample_output_paths_apart (f f' : string) :
  f ∈ ["cat.png"; "DOG.PNG"; "notes.txt"; "bird.Png"; "png"] ->
  f' ∈ ["cat.png"; "DOG.PNG"; "notes.txt"; "bird.Png"; "png"] ->
  join "data/objects_cropped" f <> join "data/objects" f'.
Proof.
  intros Hf Hf'.
  repeat (apply elem_of_cons in Hf as [-> | Hf]);
    try (by apply not_elem_of_nil in Hf);
    repeat (apply elem_of_cons in Hf' as [-> | Hf']);
    try (by apply not_elem_of_nil in Hf');
    vm_compute; discriminate.
Qed.



Lemma crop_loop_second_run_changes_nothing_witness :
  sample_fs !! "data/objects"
    = Some (Directory ["cat.png"; "DOG.PNG"; "notes.txt"; "bird.Png"; "png"]) /\
  NoDup ["cat.png"; "DOG.PNG"; "notes.txt"; "bird.Png"; "png"] /\
  Forall file_name ["cat.png"; "DOG.PNG"; "notes.txt"; "bird.Png"; "png"] /\
  (forall f,
     f ∈ ["cat.png"; "DOG.PNG"; "notes.txt"; "bird.Png"; "png"] ->
     endswith_any (lower f) [".png"] = true ->
     exists image,
       sample_pictures !! join "data/objects" f = Some image /\
       croppable image) /\
  exists object_files pictures' reports reports',
    get_image_files sample_fs "data/objects" [".png"] = inr object_files /\
    crop_loop "data/objects" 0 sample_pictures object_files
      = inr (pictures', reports) /\
    crop_loop "data/objects" 0 pictures' object_files
      = inr (pictures', reports').
Proof.
  split; [exact sample_fs_listing|]. split; [exact sample_names_NoDup|].
  split; [exact sample_names_file_names|].
  split; [exact sample_pictures_present|].
  exact (crop_loop_second_run_changes_nothing sample_fs sample_pictures
           "data/objects" _ sample_fs_listing sample_names_NoDup
           sample_names_file_names sample_pictures_present).
Defined.
